(** * The reader page of the e-book application (static/js/reader.js)

    A shallow embedding of the reader script: the JavaScript values it
    handles, its module variables and the part of the DOM it touches, its
    functions written as programs over a small effect signature, and the
    event loop that runs them. *)

From Stdlib Require Import ZArith NArith List String Ascii Bool Lia.
From Stdlib Require QArith.
Import ListNotations.

Set Warnings "-register-all".

Local Open Scope Z_scope.

(** ** JavaScript strings

    A JavaScript string is a sequence of UTF-16 code units. *)

Module JsString.

Definition t := list N.

Definition lit (s : string) : t := map N_of_ascii (list_ascii_of_string s).

Fixpoint eqb (a b : t) : bool :=
  match a, b with
  | [], [] => true
  | x :: a', y :: b' => N.eqb x y && eqb a' b'
  | _, _ => false
  end.

(** WhiteSpace and LineTerminator code points of ECMAScript: what
    [String.prototype.trim] strips and [parseInt] skips. *)
Definition is_white (c : N) : bool :=
  ((9 <=? c) && (c <=? 13) || (c =? 32) || (c =? 160) || (c =? 5760)
   || (8192 <=? c) && (c <=? 8202) || (c =? 8232) || (c =? 8233)
   || (c =? 8239) || (c =? 8287) || (c =? 12288) || (c =? 65279))%N.

Fixpoint trimStart (s : t) : t :=
  match s with
  | [] => []
  | c :: r => if is_white c then trimStart r else s
  end.

Definition trimEnd (s : t) : t := rev (trimStart (rev s)).

Definition trim (s : t) : t := trimEnd (trimStart s).

(** [s.split(sep)] for a separator of one code unit. *)
Fixpoint split_at (sep : N) (s : t) (cur : t) : list t :=
  match s with
  | [] => [rev cur]
  | c :: r => if N.eqb c sep then rev cur :: split_at sep r []
              else split_at sep r (c :: cur)
  end.

Definition split (sep : N) (s : t) : list t := split_at sep s [].

(** [s.includes(pat)]. *)
Fixpoint starts_with (pat s : t) : bool :=
  match pat, s with
  | [], _ => true
  | p :: pat', c :: s' => N.eqb p c && starts_with pat' s'
  | _ :: _, [] => false
  end.

Fixpoint includes (pat s : t) : bool :=
  starts_with pat s ||
  match s with
  | [] => false
  | _ :: s' => includes pat s'
  end.

End JsString.

Definition jsstring : Type := JsString.t.
Notation "$ s" := (JsString.lit s) (at level 1, format "$ s").

(** ** Numbers

    The numbers the script handles are identifiers, page numbers and the
    results of [parseInt]: integers, or NaN.  They are kept as exact
    integers.  Every integer of magnitude up to 2^53 is a JavaScript
    number, and on these the operations below are the script's; a larger
    one is rounded by JavaScript, which is not modelled: what is stated of
    a number that the backend or the page may choose carries that
    bound. *)

Inductive Num : Type :=
| NaN
| Int (z : Z).

Module Number.

Definition digit_char (d : N) : N := (48 + d)%N.

(** Decimal digits of [n], most significant first, in front of [acc]. *)
Fixpoint digits_fuel (fuel : nat) (n : N) (acc : jsstring) : jsstring :=
  match fuel with
  | O => acc
  | S fuel' =>
      let acc' := digit_char (n mod 10) :: acc in
      if (n / 10 =? 0)%N then acc' else digits_fuel fuel' (n / 10) acc'
  end.

Definition digits (n : N) : jsstring :=
  digits_fuel (S (N.to_nat (N.log2 n))) n [].

(** [String(z)] for an integer, all its digits written out, as JavaScript
    does below 10^21 (the exponent form it uses from there on is not
    modelled). *)
Definition int_to_string (z : Z) : jsstring :=
  match z with
  | Z0 => $"0"
  | Zpos p => digits (Npos p)
  | Zneg p => 45%N :: digits (Npos p)
  end.

Definition to_string (n : Num) : jsstring :=
  match n with
  | NaN => $"NaN"
  | Int z => int_to_string z
  end.

(** Value of a digit in the given radix, if it is one. *)
Definition digit_value (radix : N) (c : N) : option N :=
  let v := (if (48 <=? c) && (c <=? 57) then Some (c - 48)
            else if (97 <=? c) && (c <=? 122) then Some (c - 87)
            else if (65 <=? c) && (c <=? 90) then Some (c - 55)
            else None)%N in
  match v with
  | Some d => if (d <? radix)%N then Some d else None
  | None => None
  end.

(** Longest prefix of digits, read left to right. *)
Fixpoint parse_digits (radix : N) (s : jsstring) (acc : option N) : option N :=
  match s with
  | [] => acc
  | c :: r =>
      match digit_value radix c with
      | Some d =>
          parse_digits radix r
            (Some (match acc with Some a => a * radix + d | None => d end)%N)
      | None => acc
      end
  end.

(** A leading sign: whether it is [-], and the rest. *)
Definition read_sign (s : jsstring) : bool * jsstring :=
  match s with
  | c :: r => if (c =? 45)%N then (true, r)
              else if (c =? 43)%N then (false, r)
              else (false, s)
  | [] => (false, s)
  end.

(** A leading [0x] or [0X] selects radix 16; the radix is 10 otherwise. *)
Definition read_radix (s : jsstring) : N * jsstring :=
  match s with
  | c :: x :: r => if ((c =? 48) && ((x =? 120) || (x =? 88)))%N then (16%N, r)
                   else (10%N, s)
  | _ => (10%N, s)
  end.

(** [parseInt(s)] with no radix argument: leading white space is skipped,
    a sign is read, then the radix prefix, and the longest prefix of
    digits is the result; NaN when there is no digit. *)
Definition parseInt (s : jsstring) : Num :=
  let '(neg, s2) := read_sign (JsString.trimStart s) in
  let '(radix, s3) := read_radix s2 in
  match parse_digits radix s3 None with
  | None => NaN
  | Some n => Int (if neg : bool then - Z.of_N n else Z.of_N n)
  end.

End Number.

(** ** Values *)

Inductive Val : Type :=
| VUndefined
| VNull
| VBool (b : bool)
| VNum (n : Num)
| VStr (s : jsstring)
| VArr (items : list Val)
| VObj (fields : list (jsstring * Val)).

Module Value.

(** ToBoolean. *)
Definition truthy (v : Val) : bool :=
  match v with
  | VUndefined | VNull => false
  | VBool b => b
  | VNum NaN => false
  | VNum (Int z) => negb (z =? 0)
  | VStr s => match s with [] => false | _ => true end
  | VArr _ | VObj _ => true
  end.

(** ToString, as a template literal applies it. *)
Fixpoint to_string (v : Val) : jsstring :=
  match v with
  | VUndefined => $"undefined"
  | VNull => $"null"
  | VBool true => $"true"
  | VBool false => $"false"
  | VNum n => Number.to_string n
  | VStr s => s
  | VArr items =>
      (fix join (l : list Val) : jsstring :=
         match l with
         | [] => []
         | x :: r =>
             let sx := match x with
                       | VUndefined | VNull => []
                       | _ => to_string x
                       end in
             match r with
             | [] => sx
             | _ :: _ => sx ++ 44%N :: join r
             end
         end) items
  | VObj _ => $"[object Object]"
  end.

(** Property read [v.name] on an object; a missing property and a property
    of a primitive are [undefined].  Reading a property of [null] or
    [undefined] is a TypeError: [None]. *)
Fixpoint lookup (name : jsstring) (fields : list (jsstring * Val)) : Val :=
  match fields with
  | [] => VUndefined
  | (k, v) :: r => if JsString.eqb k name then v else lookup name r
  end.

Definition get (name : jsstring) (v : Val) : option Val :=
  match v with
  | VUndefined | VNull => None
  | VObj fields => Some (lookup name fields)
  | _ => Some VUndefined
  end.

(** Strict equality [===] on the values compared by the script
    (primitives; two distinct object references are never equal). *)
Definition strict_eq (a b : Val) : bool :=
  match a, b with
  | VUndefined, VUndefined => true
  | VNull, VNull => true
  | VBool x, VBool y => Bool.eqb x y
  | VNum (Int x), VNum (Int y) => x =? y
  | VStr x, VStr y => JsString.eqb x y
  | _, _ => false
  end.

(** What [JSON.stringify] transmits for a value: [None] when the value is
    left out ([undefined]); NaN becomes [null]; inside an array a
    left-out value becomes [null], inside an object its property is
    dropped. *)
Fixpoint json (v : Val) : option Val :=
  match v with
  | VUndefined => None
  | VNum NaN => Some VNull
  | VArr items =>
      Some (VArr (map (fun x => match json x with
                                | Some y => y
                                | None => VNull
                                end) items))
  | VObj fields =>
      Some (VObj
        ((fix props (l : list (jsstring * Val)) : list (jsstring * Val) :=
            match l with
            | [] => []
            | (k, x) :: r =>
                match json x with
                | Some y => (k, y) :: props r
                | None => props r
                end
            end) fields))
  | _ => Some v
  end.

Definition stringify (v : Val) : Val :=
  match json v with
  | Some j => j
  | None => VUndefined
  end.

End Value.

(** ** The page: elements the script creates and reads

    Only content and structure are kept; inline styling and scroll offsets,
    which no function reads back, are left out. *)

Inductive PageChild : Type :=
| Canvas
| TextLayer.

Record PageWrapper : Type := {
  wrapper_id : jsstring;
  wrapper_class : jsstring;
  wrapper_children : list PageChild
}.

Record SelectOption : Type := {
  option_value : jsstring;
  option_text : jsstring;
  option_disabled : bool
}.

Record Select : Type := {
  options : list SelectOption;
  selectedIndex : option nat
}.

Record Quote : Type := {
  quote_text : jsstring;
  quote_location : option jsstring
}.

Record Card : Type := {
  card_class : jsstring;
  card_attributes : list (jsstring * jsstring);
  card_author : jsstring;
  card_delete : option Val;      (* the id the delete button passes on click *)
  card_content : jsstring;
  card_pre_wrap : bool;
  card_quote : option Quote
}.

Inductive Node : Type :=
| Paragraph (text : jsstring)
| CardNode (c : Card).

Module Dom.

(** What assigning [v] to [textContent] stores. *)
Definition text_of (v : Val) : jsstring :=
  match v with
  | VUndefined | VNull => []
  | _ => Value.to_string v
  end.

(** [select.value]. *)
Definition select_value (sel : Select) : jsstring :=
  match selectedIndex sel with
  | Some i => match nth_error (options sel) i with
              | Some o => option_value o
              | None => []
              end
  | None => []
  end.

Fixpoint index_of_value (v : jsstring) (l : list SelectOption) : option nat :=
  match l with
  | [] => None
  | o :: r => if JsString.eqb (option_value o) v then Some O
              else option_map S (index_of_value v r)
  end.

(** [select.value = v]: the first option with that value becomes the
    selected one; none is selected when there is no such option. *)
Definition set_select_value (v : jsstring) (sel : Select) : Select :=
  {| options := options sel; selectedIndex := index_of_value v (options sel) |}.

(** [select.appendChild(option)] on a select that shows a selected option. *)
Definition append_option (o : SelectOption) (sel : Select) : Select :=
  {| options := options sel ++ [o]; selectedIndex := selectedIndex sel |}.

Definition attribute (name : jsstring) (c : Card) : option jsstring :=
  option_map snd
    (find (fun kv => JsString.eqb (fst kv) name) (card_attributes c)).

(** The selector [.annotation-card[data-id="<id>"]], for an id without
    characters that have a meaning of their own in a selector. *)
Definition matches_card (id : jsstring) (n : Node) : bool :=
  match n with
  | CardNode c =>
      JsString.eqb (card_class c) $"annotation-card" &&
      match attribute $"data-id" c with
      | Some v => JsString.eqb v id
      | None => false
      end
  | Paragraph _ => false
  end.

(** [querySelector] followed by [remove()] on the element found: the first
    match in document order leaves the list. *)
Fixpoint remove_first (f : Node -> bool) (l : list Node) : list Node :=
  match l with
  | [] => []
  | n :: r => if f n then r else n :: remove_first f r
  end.

End Dom.

(** ** State: the script's variables and the page elements it holds *)

Record Vars : Type := {
  pdfDoc : option Z;                  (* null, or the document (its numPages) *)
  currentPageNum : Num;
  totalPages : Z;
  currentLayerId : Val;
  currentHighlightedText : jsstring
}.

Record Viewer : Type := {
  viewerContainer : list PageWrapper;
  observed : list jsstring;           (* targets of pageObserver, by id *)
  pageNumDisplay : jsstring;
  pageCountDisplay : jsstring;
  mouseupListeners : nat              (* listeners added to viewerArea *)
}.

Record Panel : Type := {
  layerSelect : Select;
  annotationList : list Node;
  annotationTextarea : jsstring    (* its text, line breaks as typed *)
}.

Record Modal : Type := {
  createLayerModal_display : jsstring;
  newLayerNameInput : jsstring;
  newLayerGroupSelect : Select
}.

Record Button : Type := {
  button_textContent : jsstring;
  button_disabled : bool;
  button_animation : jsstring
}.

Record State : Type := {
  vars : Vars;
  viewer : Viewer;
  panel : Panel;
  modal : Modal;
  askAiBtn : Button
}.

(** Assignment to one variable or one element property. *)

Definition on_vars (f : Vars -> Vars) (s : State) : State :=
  {| vars := f (vars s); viewer := viewer s; panel := panel s;
     modal := modal s; askAiBtn := askAiBtn s |}.
Definition on_viewer (f : Viewer -> Viewer) (s : State) : State :=
  {| vars := vars s; viewer := f (viewer s); panel := panel s;
     modal := modal s; askAiBtn := askAiBtn s |}.
Definition on_panel (f : Panel -> Panel) (s : State) : State :=
  {| vars := vars s; viewer := viewer s; panel := f (panel s);
     modal := modal s; askAiBtn := askAiBtn s |}.
Definition on_modal (f : Modal -> Modal) (s : State) : State :=
  {| vars := vars s; viewer := viewer s; panel := panel s;
     modal := f (modal s); askAiBtn := askAiBtn s |}.
Definition on_askAiBtn (f : Button -> Button) (s : State) : State :=
  {| vars := vars s; viewer := viewer s; panel := panel s;
     modal := modal s; askAiBtn := f (askAiBtn s) |}.

Definition set_pdfDoc (x : option Z) : State -> State :=
  on_vars (fun v =>
    {| pdfDoc := x; currentPageNum := currentPageNum v;
       totalPages := totalPages v; currentLayerId := currentLayerId v;
       currentHighlightedText := currentHighlightedText v |}).
Definition set_currentPageNum (x : Num) : State -> State :=
  on_vars (fun v =>
    {| pdfDoc := pdfDoc v; currentPageNum := x;
       totalPages := totalPages v; currentLayerId := currentLayerId v;
       currentHighlightedText := currentHighlightedText v |}).
Definition set_totalPages (x : Z) : State -> State :=
  on_vars (fun v =>
    {| pdfDoc := pdfDoc v; currentPageNum := currentPageNum v;
       totalPages := x; currentLayerId := currentLayerId v;
       currentHighlightedText := currentHighlightedText v |}).
Definition set_currentLayerId (x : Val) : State -> State :=
  on_vars (fun v =>
    {| pdfDoc := pdfDoc v; currentPageNum := currentPageNum v;
       totalPages := totalPages v; currentLayerId := x;
       currentHighlightedText := currentHighlightedText v |}).
Definition set_currentHighlightedText (x : jsstring) : State -> State :=
  on_vars (fun v =>
    {| pdfDoc := pdfDoc v; currentPageNum := currentPageNum v;
       totalPages := totalPages v; currentLayerId := currentLayerId v;
       currentHighlightedText := x |}).

Definition set_viewerContainer (x : list PageWrapper) : State -> State :=
  on_viewer (fun v =>
    {| viewerContainer := x; observed := observed v;
       pageNumDisplay := pageNumDisplay v;
       pageCountDisplay := pageCountDisplay v;
       mouseupListeners := mouseupListeners v |}).
Definition set_observed (x : list jsstring) : State -> State :=
  on_viewer (fun v =>
    {| viewerContainer := viewerContainer v; observed := x;
       pageNumDisplay := pageNumDisplay v;
       pageCountDisplay := pageCountDisplay v;
       mouseupListeners := mouseupListeners v |}).
Definition set_pageNumDisplay (x : jsstring) : State -> State :=
  on_viewer (fun v =>
    {| viewerContainer := viewerContainer v; observed := observed v;
       pageNumDisplay := x; pageCountDisplay := pageCountDisplay v;
       mouseupListeners := mouseupListeners v |}).
Definition set_pageCountDisplay (x : jsstring) : State -> State :=
  on_viewer (fun v =>
    {| viewerContainer := viewerContainer v; observed := observed v;
       pageNumDisplay := pageNumDisplay v; pageCountDisplay := x;
       mouseupListeners := mouseupListeners v |}).
Definition set_mouseupListeners (x : nat) : State -> State :=
  on_viewer (fun v =>
    {| viewerContainer := viewerContainer v; observed := observed v;
       pageNumDisplay := pageNumDisplay v;
       pageCountDisplay := pageCountDisplay v; mouseupListeners := x |}).

Definition set_layerSelect (x : Select) : State -> State :=
  on_panel (fun v =>
    {| layerSelect := x; annotationList := annotationList v;
       annotationTextarea := annotationTextarea v |}).
Definition set_annotationList (x : list Node) : State -> State :=
  on_panel (fun v =>
    {| layerSelect := layerSelect v; annotationList := x;
       annotationTextarea := annotationTextarea v |}).
Definition set_annotationTextarea (x : jsstring) : State -> State :=
  on_panel (fun v =>
    {| layerSelect := layerSelect v; annotationList := annotationList v;
       annotationTextarea := x |}).

Definition set_createLayerModal_display (x : jsstring) : State -> State :=
  on_modal (fun v =>
    {| createLayerModal_display := x;
       newLayerNameInput := newLayerNameInput v;
       newLayerGroupSelect := newLayerGroupSelect v |}).
Definition set_newLayerNameInput (x : jsstring) : State -> State :=
  on_modal (fun v =>
    {| createLayerModal_display := createLayerModal_display v;
       newLayerNameInput := x;
       newLayerGroupSelect := newLayerGroupSelect v |}).
Definition set_newLayerGroupSelect (x : Select) : State -> State :=
  on_modal (fun v =>
    {| createLayerModal_display := createLayerModal_display v;
       newLayerNameInput := newLayerNameInput v;
       newLayerGroupSelect := x |}).

Definition set_button_textContent (x : jsstring) : State -> State :=
  on_askAiBtn (fun v =>
    {| button_textContent := x; button_disabled := button_disabled v;
       button_animation := button_animation v |}).
Definition set_button_disabled (x : bool) : State -> State :=
  on_askAiBtn (fun v =>
    {| button_textContent := button_textContent v; button_disabled := x;
       button_animation := button_animation v |}).
Definition set_button_animation (x : jsstring) : State -> State :=
  on_askAiBtn (fun v =>
    {| button_textContent := button_textContent v;
       button_disabled := button_disabled v; button_animation := x |}).

(** ** Effects

    What a function does besides updating the state: dialogs, console
    output, and the asynchronous operations it awaits. *)

Inductive Method : Type := GET | POST.

Inductive Req : Type :=
| Fetch (url : jsstring) (method : Method) (body : option Val)
| GetDocument (url : jsstring)        (* pdfjsLib.getDocument(..).promise *)
| GetPage (pageNum : Z)               (* pdfDoc.getPage(pageNum) *)
| RenderPage (pageNum : Z)            (* page.render(..).promise *)
| GetTextContent (pageNum : Z)        (* page.getTextContent() *)
| RenderTextLayer (pageNum : Z)       (* pdfjsLib.renderTextLayer(..).promise *)
| ReadJson (body : option Val).       (* response.json(), awaited later *)

(** How an awaited operation settles.  A [Response] carries its [ok] flag
    and what [response.json()] gives: the parsed body, or [None] when the
    body is not JSON.  Where a function awaits [response.json()] right
    after the fetch, reading the body is taken to settle with the response
    itself: the function does nothing between the two, so it resumes once,
    when the body has been read.  Where it awaits something else first,
    reading the body is a suspension of its own, [ReadJson]. *)
Inductive Reply : Type :=
| Rejected
| Response (ok : bool) (body : option Val)
| PdfDocument (numPages : Z)
| Resolved.

Inductive Exn : Type :=
| Rejection                 (* an awaited promise was rejected *)
| SyntaxError               (* response.json() on a body that is not JSON *)
| TypeError
| Error (msg : jsstring).   (* new Error(msg) *)

Inductive Effect : Type :=
| Alert (msg : jsstring)
| ConfirmDialog (msg : jsstring) (answer : bool)
| ConsoleLog (msg : jsstring)
| ConsoleError (e : Exn)
| Request (r : Req)
| ScrollIntoView (id : jsstring)
| UnhandledRejection (e : Exn).

(** ** Programs

    A function body is a tree of steps.  [Read] reads the variables and the
    page, [Modify] is an assignment.  [Await] is a suspension point: the
    rest of the body waits for the reply.  [Spawn] is a call of an async
    function whose promise is not awaited: the callee runs up to its first
    suspension point and the caller goes on. *)

Inductive Prog (A : Type) : Type :=
| Ret (a : A)
| Throw (e : Exn)
| Read (k : State -> Prog A)
| Modify (f : State -> State) (k : Prog A)
| Emit (e : Effect) (k : Prog A)
| Ask (msg : jsstring) (k : bool -> Prog A)
| Await (r : Req) (k : Reply -> Prog A)
| Spawn (p : Prog unit) (k : Prog A).

Arguments Ret {A} a.
Arguments Throw {A} e.
Arguments Read {A} k.
Arguments Modify {A} f k.
Arguments Emit {A} e k.
Arguments Ask {A} msg k.
Arguments Await {A} r k.
Arguments Spawn {A} p k.

Fixpoint bind {A B : Type} (p : Prog A) (f : A -> Prog B) : Prog B :=
  match p with
  | Ret a => f a
  | Throw e => Throw e
  | Read k => Read (fun s => bind (k s) f)
  | Modify g k => Modify g (bind k f)
  | Emit e k => Emit e (bind k f)
  | Ask msg k => Ask msg (fun b => bind (k b) f)
  | Await r k => Await r (fun x => bind (k x) f)
  | Spawn q k => Spawn q (bind k f)
  end.

(** [try { p } catch (e) { h e }]. *)
Fixpoint try_catch {A : Type} (p : Prog A) (h : Exn -> Prog A) : Prog A :=
  match p with
  | Ret a => Ret a
  | Throw e => h e
  | Read k => Read (fun s => try_catch (k s) h)
  | Modify g k => Modify g (try_catch k h)
  | Emit e k => Emit e (try_catch k h)
  | Ask msg k => Ask msg (fun b => try_catch (k b) h)
  | Await r k => Await r (fun x => try_catch (k x) h)
  | Spawn q k => Spawn q (try_catch k h)
  end.

(** [try { p } finally { f }]. *)
Fixpoint try_finally {A : Type} (p : Prog A) (f : Prog unit) : Prog A :=
  match p with
  | Ret a => bind f (fun _ => Ret a)
  | Throw e => bind f (fun _ => Throw e)
  | Read k => Read (fun s => try_finally (k s) f)
  | Modify g k => Modify g (try_finally k f)
  | Emit e k => Emit e (try_finally k f)
  | Ask msg k => Ask msg (fun b => try_finally (k b) f)
  | Await r k => Await r (fun x => try_finally (k x) f)
  | Spawn q k => Spawn q (try_finally k f)
  end.

Declare Scope prog_scope.
Delimit Scope prog_scope with prog.
Bind Scope prog_scope with Prog.

Notation "x <- p ;; q" := (bind p (fun x => q))
  (at level 61, p at next level, right associativity) : prog_scope.
Notation "p ;; q" := (bind p (fun _ => q))
  (at level 61, right associativity) : prog_scope.

Local Open Scope prog_scope.

Definition ret {A : Type} (a : A) : Prog A := Ret a.
Definition get_state : Prog State := Read (fun s => Ret s).
Definition modify (f : State -> State) : Prog unit := Modify f (Ret tt).
Definition emit (e : Effect) : Prog unit := Emit e (Ret tt).
Definition alert (msg : jsstring) : Prog unit := emit (Alert msg).
Definition confirm (msg : jsstring) : Prog bool := Ask msg (fun b => Ret b).
Definition console_error (e : Exn) : Prog unit := emit (ConsoleError e).
Definition spawn (p : Prog unit) : Prog unit := Spawn p (Ret tt).

(** [await] of an operation: a rejection is thrown at the suspension point. *)
Definition await (r : Req) : Prog Reply :=
  Await r (fun x => match x with
                    | Rejected => Throw Rejection
                    | _ => Ret x
                    end).

(** [await fetch(url, {method, body})]: the Response's [ok] and body. *)
Definition fetch (url : jsstring) (method : Method) (body : option Val)
  : Prog (bool * option Val) :=
  x <- await (Fetch url method body) ;;
  match x with
  | Response ok b => ret (ok, b)
  | _ => Throw Rejection
  end.

(** [await response.json()]. *)
Definition json (body : option Val) : Prog Val :=
  match body with
  | Some v => ret v
  | None => Throw SyntaxError
  end.

(** [await response.json()] on a response received in an earlier turn: the
    function waits until the body has been read, and fails if reading it
    fails or if it is not JSON. *)
Definition read_json (body : option Val) : Prog Val :=
  _ <- await (ReadJson body) ;;
  json body.

(** A step that fails with a TypeError where the script would. *)
Definition or_type_error {A : Type} (x : option A) : Prog A :=
  match x with
  | Some a => ret a
  | None => Throw TypeError
  end.

(** [items.forEach(f)]. *)
Fixpoint for_each {A : Type} (items : list A) (f : A -> Prog unit) : Prog unit :=
  match items with
  | [] => ret tt
  | x :: r => f x ;; for_each r f
  end.

(** ** Running a program up to its suspension points

    One turn of the event loop runs a program from the current state until
    it returns, throws, or reaches an [Await].  The calls it spawned on the
    way that are themselves waiting are collected as tasks. *)

Record Task : Type := {
  task_req : Req;
  task_cont : Reply -> Prog unit
}.

Inductive Outcome (A : Type) : Type :=
| Returned (a : A)
| Thrown (e : Exn)
| Waiting (r : Req) (k : Reply -> Prog A).

Arguments Returned {A} a.
Arguments Thrown {A} e.
Arguments Waiting {A} r k.

Record Turn (A : Type) : Type := {
  final : State;
  effects : list Effect;         (* in the order they happen *)
  spawned : list Task;
  outcome : Outcome A
}.

Arguments final {A} t.
Arguments effects {A} t.
Arguments spawned {A} t.
Arguments outcome {A} t.

(** A finished async call leaves nothing behind, except that a rejection
    nobody awaits is reported; a suspended one becomes a task. *)
Definition settle_call (o : Outcome unit) : list Effect * list Task :=
  match o with
  | Returned _ => ([], [])
  | Thrown e => ([UnhandledRejection e], [])
  | Waiting r k => ([], [{| task_req := r; task_cont := k |}])
  end.

(** [user] answers the confirm dialogs of the turn. *)
Fixpoint run (A : Type) (user : jsstring -> bool) (p : Prog A) (s : State)
  : Turn A :=
  match p with
  | Ret a => {| final := s; effects := []; spawned := []; outcome := Returned a |}
  | Throw e => {| final := s; effects := []; spawned := []; outcome := Thrown e |}
  | Read k => run A user (k s) s
  | Modify f k => run A user k (f s)
  | Emit e k =>
      let t := run A user k s in
      {| final := final t; effects := e :: effects t;
         spawned := spawned t; outcome := outcome t |}
  | Ask msg k =>
      let t := run A user (k (user msg)) s in
      {| final := final t;
         effects := ConfirmDialog msg (user msg) :: effects t;
         spawned := spawned t; outcome := outcome t |}
  | Await r k =>
      {| final := s; effects := [Request r]; spawned := [];
         outcome := Waiting r k |}
  | Spawn q k =>
      let tq := run unit user q s in
      let tk := run A user k (final tq) in
      {| final := final tk;
         effects := effects tq ++ fst (settle_call (outcome tq)) ++ effects tk;
         spawned := spawned tq ++ snd (settle_call (outcome tq)) ++ spawned tk;
         outcome := outcome tk |}
  end.

Arguments run {A} user p s.

(** A whole event-handler call: the handler itself is an async call that
    nobody awaits. *)
Record Step : Type := {
  step_state : State;
  step_effects : list Effect;
  step_tasks : list Task
}.

Definition call (user : jsstring -> bool) (p : Prog unit) (s : State) : Step :=
  let t := run user p s in
  {| step_state := final t;
     step_effects := effects t ++ fst (settle_call (outcome t));
     step_tasks := spawned t ++ snd (settle_call (outcome t)) |}.

Definition no_dialog : jsstring -> bool := fun _ => false.
Definition accept : jsstring -> bool := fun _ => true.

(** ** The script *)

Record Entry : Type := {
  target : jsstring;             (* id of the observed element *)
  isIntersecting : bool
}.

(** [v.length === 0]; [None] where reading [length] is a TypeError. *)
Definition length_is_zero (v : Val) : option bool :=
  match v with
  | VUndefined | VNull => None
  | VArr items => Some (match items with [] => true | _ => false end)
  | VStr s => Some (match s with [] => true | _ => false end)
  | VObj fields =>
      Some (Value.strict_eq (Value.lookup $"length" fields) (VNum (Int 0)))
  | _ => Some false
  end.

(** The elements [v.forEach] visits; [None] where the call is a TypeError
    (only arrays have the method). *)
Definition array_items (v : Val) : option (list Val) :=
  match v with
  | VArr items => Some items
  | _ => None
  end.

(** [v.includes(s)]: substring test on a string, membership in an array,
    TypeError elsewhere. *)
Definition includes (s : jsstring) (v : Val) : option bool :=
  match v with
  | VStr x => Some (JsString.includes s x)
  | VArr items => Some (existsb (Value.strict_eq (VStr s)) items)
  | _ => None
  end.

Definition page_wrapper_id (pageNum : Z) : jsstring :=
  $"page-wrapper-" ++ Number.int_to_string pageNum.

(** [parseInt(pageId.split('-')[2])]; a missing third part is [undefined],
    which [parseInt] reads as the string "undefined". *)
Definition page_of_id (pageId : jsstring) : Num :=
  match nth_error (JsString.split 45 pageId) 2 with
  | Some part => Number.parseInt part
  | None => Number.parseInt (Value.to_string VUndefined)
  end.

(** [a - b] on numbers. *)
Definition num_add (a : Num) (d : Z) : Num :=
  match a with
  | NaN => NaN
  | Int z => Int (z + d)
  end.

Definition ask_ai_label : jsstring := [226; 339; 168]%N ++ $" Ask AI".
Definition private_label : jsstring :=
  [240; 376; 8221; 8217]%N ++ $" Private / Public (Everyone)".
Definition group_label_prefix : jsstring := [240; 376; 8216; 165]%N ++ $" Group: ".

(** A hosting page, a reader and a note, for the examples. *)
Module Sample.

Definition empty_select : Select := {| options := []; selectedIndex := None |}.

Definition host : State :=
  {| vars := {| pdfDoc := None; currentPageNum := Int 1; totalPages := 0;
                currentLayerId := VNull; currentHighlightedText := [] |};
     viewer := {| viewerContainer := []; observed := [];
                  pageNumDisplay := $"1"; pageCountDisplay := $"-";
                  mouseupListeners := O |};
     panel := {| layerSelect := empty_select; annotationList := [];
                 annotationTextarea := [] |};
     modal := {| createLayerModal_display := $"none";
                 newLayerNameInput := [];
                 newLayerGroupSelect := empty_select |};
     askAiBtn := {| button_textContent := $"Ask AI";
                    button_disabled := false;
                    button_animation := [] |} |}.

Definition ebook : Val := VNum (Int 5).
Definition user : Val := VNum (Int 1).
Definition url : jsstring := $"/static/book.pdf".

(** A note of the reader [user]. *)
Definition annotation : Val :=
  VObj [($"id", VNum (Int 7)); ($"content", VStr $"a note");
        ($"author_id", VNum (Int 1)); ($"author_name", VStr $"Ann")].

(** A layer of the book. *)
Definition layer : Val :=
  VObj [($"id", VNum (Int 3)); ($"name", VStr $"Journal");
        ($"creator_name", VStr $"Ann")].

(** The page with a draft typed and layer 3 selected. *)
Definition drafting : State :=
  set_currentLayerId (VStr $"3") (set_annotationTextarea $"why?" host).

(** The page with the dialog open, the groups still loading, and a name
    typed. *)
Definition naming : State :=
  set_newLayerNameInput $"Notes"
    (set_createLayerModal_display $"flex"
       (set_newLayerGroupSelect
          {| options := [{| option_value := [];
                            option_text := $"Loading groups...";
                            option_disabled := false |}];
             selectedIndex := Some O |} host)).

Definition page (k : Z) (intersecting : bool) : Entry :=
  {| target := $"page-wrapper-" ++ Number.int_to_string k;
     isIntersecting := intersecting |}.

End Sample.

(** * The sign-in page (static/js/auth_script.js)

    The second script of the file: the tabs of the sign-in form, the field
    for the admin code, and the flash messages with their timers. *)

Module Auth.

(** ** The page

    What the script finds on the page when it starts.  A flash message is
    known by its class list and by whether [remove()] has taken it off its
    parent.  For a close button only the flash that
    [btn.closest(".flash")] finds matters: none for a button outside
    every flash. *)

Record Flash : Type := {
  flash_classes : list jsstring;
  flash_removed : bool
}.

Record Page : Type := {
  container : option (list jsstring);    (* class list of .container *)
  signUpLink : bool;                     (* is there a .SignUpLink *)
  signInLink : bool;                     (* is there a .SignInLink *)
  adminToggle : option bool;             (* checked, of #adminToggle *)
  adminCodeBox : option jsstring;        (* style.display, of #adminCodeBox *)
  flashes : list Flash;                  (* the .flash elements *)
  flashCloseButtons : list (option nat)  (* the .flash-close elements *)
}.

(** [classList.add] and [classList.remove]. *)
Definition class_add (token : jsstring) (classes : list jsstring)
  : list jsstring :=
  if existsb (JsString.eqb token) classes then classes
  else classes ++ [token].

Definition class_remove (token : jsstring) (classes : list jsstring)
  : list jsstring :=
  filter (fun c => negb (JsString.eqb c token)) classes.

Definition set_container (x : option (list jsstring)) (p : Page) : Page :=
  {| container := x; signUpLink := signUpLink p; signInLink := signInLink p;
     adminToggle := adminToggle p; adminCodeBox := adminCodeBox p;
     flashes := flashes p; flashCloseButtons := flashCloseButtons p |}.

Definition set_adminToggle (x : option bool) (p : Page) : Page :=
  {| container := container p; signUpLink := signUpLink p;
     signInLink := signInLink p;
     adminToggle := x; adminCodeBox := adminCodeBox p;
     flashes := flashes p; flashCloseButtons := flashCloseButtons p |}.

Definition set_adminCodeBox (x : option jsstring) (p : Page) : Page :=
  {| container := container p; signUpLink := signUpLink p;
     signInLink := signInLink p;
     adminToggle := adminToggle p; adminCodeBox := x;
     flashes := flashes p; flashCloseButtons := flashCloseButtons p |}.

Definition set_flashes (x : list Flash) (p : Page) : Page :=
  {| container := container p; signUpLink := signUpLink p;
     signInLink := signInLink p;
     adminToggle := adminToggle p; adminCodeBox := adminCodeBox p;
     flashes := x; flashCloseButtons := flashCloseButtons p |}.

Fixpoint update_nth {A : Type} (i : nat) (f : A -> A) (l : list A) : list A :=
  match l, i with
  | [], _ => []
  | x :: r, O => f x :: r
  | x :: r, S i' => x :: update_nth i' f r
  end.

(** [flash.classList.add("fade-out")] and [flash.remove()] on the [i]-th
    flash. *)
Definition fade_out (i : nat) (p : Page) : Page :=
  set_flashes
    (update_nth i
       (fun f => {| flash_classes := class_add $"fade-out" (flash_classes f);
                    flash_removed := flash_removed f |})
       (flashes p)) p.

Definition remove_flash (i : nat) (p : Page) : Page :=
  set_flashes
    (update_nth i
       (fun f => {| flash_classes := flash_classes f;
                    flash_removed := true |})
       (flashes p)) p.

(** ** Timers

    [setTimeout] puts a callback in a queue kept in the order in which the
    callbacks are due, a later call after the earlier ones due at the same
    time.  Time is counted in milliseconds, and a timer fires when it is
    due. *)

Inductive Callback : Type :=
| AutoFade (i : nat)     (* the callback set for 4000 ms at start-up *)
| Remove (i : nat).      (* () => flash.remove() *)

Record Timer : Type := {
  due : nat;
  callback : Callback
}.

Fixpoint schedule (t : Timer) (queue : list Timer) : list Timer :=
  match queue with
  | [] => [t]
  | q :: rest => if (due q <=? due t)%nat then q :: schedule t rest
                 else t :: queue
  end.

Inductive Effect : Type :=
| PreventDefault
| Uncaught (e : Exn).

Record World : Type := {
  page : Page;
  now : nat;
  timers : list Timer;
  log : list Effect
}.

(** [setTimeout(callback, ms)]. *)
Definition setTimeout (c : Callback) (ms : nat) (w : World) : World :=
  {| page := page w; now := now w;
     timers := schedule {| due := now w + ms; callback := c |} (timers w);
     log := log w |}.

Definition on_page (f : Page -> Page) (w : World) : World :=
  {| page := f (page w); now := now w; timers := timers w; log := log w |}.

Definition report (e : Effect) (w : World) : World :=
  {| page := page w; now := now w; timers := timers w;
     log := log w ++ [e] |}.

(** ** The script *)

Definition updateAdminCodeVisibility (p : Page) : Page :=
  match adminToggle p with
  | Some true => set_adminCodeBox (Some $"block") p
  | _ => set_adminCodeBox (Some $"none") p
  end.

(** The listener of a tab link: [add] tells which of the two. *)
Definition tab_click (add : bool) (w : World) : World :=
  let w1 := report PreventDefault w in
  match container (page w1) with
  | Some classes =>
      on_page (set_container
                 (Some (if add then class_add $"active" classes
                        else class_remove $"active" classes))) w1
  | None => report (Uncaught TypeError) w1
  end.

(** The listener of a close button whose nearest flash is [flash]. *)
Definition close_click (flash : option nat) (w : World) : World :=
  match flash with
  | None => w
  | Some i => setTimeout (Remove i) 500 (on_page (fade_out i) w)
  end.

(** A callback that fires. *)
Definition fire (c : Callback) (w : World) : World :=
  match c with
  | AutoFade i => setTimeout (Remove i) 500 (on_page (fade_out i) w)
  | Remove i => on_page (remove_flash i) w
  end.

(** The handler of DOMContentLoaded.  The flashes the script finds are in
    the document. *)
Fixpoint auto_fade_all (i : nat) (count : nat) (w : World) : World :=
  match count with
  | O => w
  | S count' => auto_fade_all (S i) count' (setTimeout (AutoFade i) 4000 w)
  end.

Definition found (host : Page) : Page :=
  set_flashes
    (map (fun f => {| flash_classes := flash_classes f;
                      flash_removed := false |}) (flashes host)) host.

Definition boot (host : Page) : World :=
  let shown :=
    match adminToggle host, adminCodeBox host with
    | Some _, Some _ => updateAdminCodeVisibility (found host)
    | _, _ => found host
    end in
  auto_fade_all 0 (List.length (flashes host))
    {| page := shown; now := 0; timers := []; log := [] |}.

(** ** Events *)

Inductive Event : Type :=
| ClickSignUp
| ClickSignIn
| ChangeAdmin (checked : bool)   (* the user sets the checkbox *)
| ClickClose (j : nat)           (* on the j-th close button *)
| Elapse (ms : nat).             (* time passes *)

(** The timers due by [limit] fire, the earliest first.  A callback sets
    at most one timer, which sets none, so [fuel] firings are enough when
    [fuel] is the weight of the queue. *)
Definition weight (c : Callback) : nat :=
  match c with
  | AutoFade _ => 2
  | Remove _ => 1
  end.

Definition queue_weight (queue : list Timer) : nat :=
  fold_right (fun t n => (weight (callback t) + n)%nat) O queue.

Fixpoint fire_due (fuel : nat) (limit : nat) (w : World) : World :=
  match fuel with
  | O => w
  | S fuel' =>
      match timers w with
      | t :: rest =>
          if (due t <=? limit)%nat then
            fire_due fuel' limit
              (fire (callback t)
                 {| page := page w; now := due t; timers := rest;
                    log := log w |})
          else w
      | [] => w
      end
  end.

Definition elapse (ms : nat) (w : World) : World :=
  let w' := fire_due (queue_weight (timers w)) (now w + ms) w in
  {| page := page w'; now := now w + ms; timers := timers w';
     log := log w' |}.

Definition step (ev : Event) (w : World) : World :=
  match ev with
  | ClickSignUp => if signUpLink (page w) then tab_click true w else w
  | ClickSignIn => if signInLink (page w) then tab_click false w else w
  | ChangeAdmin checked =>
      match adminToggle (page w) with
      | Some _ =>
          let w1 := on_page (set_adminToggle (Some checked)) w in
          match adminCodeBox (page w1) with
          | Some _ => on_page updateAdminCodeVisibility w1
          | None => w1
          end
      | None => w
      end
  | ClickClose j =>
      match nth_error (flashCloseButtons (page w)) j with
      | Some flash => close_click flash w
      | None => w
      end
  | Elapse ms => elapse ms w
  end.

Definition steps (evs : list Event) (w : World) : World :=
  fold_left (fun w ev => step ev w) evs w.

(** The time a run takes, and the tab clicked last in it. *)
Definition elapsed (evs : list Event) : nat :=
  fold_right (fun ev n => match ev with
                          | Elapse ms => (ms + n)%nat
                          | _ => n
                          end) O evs.

Fixpoint last_tab (evs : list Event) : option bool :=
  match evs with
  | [] => None
  | ev :: rest =>
      match last_tab rest with
      | Some b => Some b
      | None => match ev with
                | ClickSignUp => Some true
                | ClickSignIn => Some false
                | _ => None
                end
      end
  end.

Definition faded (f : Flash) : Prop := In $"fade-out" (flash_classes f).

(** Timers wait for a later time, in the order of their times. *)
Fixpoint ordered (queue : list Timer) : Prop :=
  match queue with
  | [] => True
  | t :: rest => Forall (fun q => (due t <= due q)%nat) rest /\ ordered rest
  end.

Definition ahead (w : World) : Prop :=
  Forall (fun t => (now w < due t)%nat) (timers w) /\ ordered (timers w).

(** The [i]-th flash is gone, or a timer that is due by [limit] will take
    it away. *)
Definition doomed (limit : nat) (w : World) (i : nat) : Prop :=
  match nth_error (flashes (page w)) i with
  | None => True
  | Some f =>
      (flash_removed f = true /\ faded f) \/
      (faded f /\
       exists t, In t (timers w) /\ callback t = Remove i /\
                 (due t <= limit)%nat) \/
      (exists t, In t (timers w) /\ callback t = AutoFade i /\
                 (due t + 500 <= limit)%nat)
  end.

(** The box for the admin code is shown exactly when the toggle is
    checked. *)
Definition admin_ok (p : Page) : Prop :=
  forall checked display,
    adminToggle p = Some checked ->
    adminCodeBox p = Some display ->
    display = if checked : bool then $"block" else $"none".

(** What neither a timer nor a close button touches. *)
Definition form_view (p : Page)
  : option (list jsstring) * bool * bool * option bool * option jsstring *
    list (option nat) :=
  (container p, signUpLink p, signInLink p, adminToggle p, adminCodeBox p,
   flashCloseButtons p).

(** A timer that removes a flash is set only once the flash fades. *)
Definition sound (w : World) : Prop :=
  forall t i f,
    In t (timers w) -> callback t = Remove i ->
    nth_error (flashes (page w)) i = Some f -> faded f.


(** *** Example input

    A page with the form, both links, the toggle unchecked while the box
    for the code is displayed, and two flash messages of which the first
    has a close button; a second close button lies outside every flash. *)
Definition sample_page : Page :=
  {| container := Some [$"container"];
     signUpLink := true; signInLink := true;
     adminToggle := Some false; adminCodeBox := Some $"block";
     flashes := [ {| flash_classes := [$"flash"; $"error"];
                     flash_removed := false |};
                  {| flash_classes := [$"flash"; $"success"];
                     flash_removed := false |} ];
     flashCloseButtons := [Some O; None] |}.

End Auth.

Section Reader.

(** Provided by the hosting page. *)
Variable EBOOK_ID : Val.
Variable CURRENT_USER_ID : Val.
Variable PDF_URL : jsstring.

(** *** Scroll observer *)

Definition pageObserver_entry (entry : Entry) : Prog unit :=
  if isIntersecting entry then
    let pageId := target entry in
    let pageNum := page_of_id pageId in
    if Value.truthy (VNum pageNum) then
      modify (set_currentPageNum pageNum) ;;
      s <- get_state ;;
      modify (set_pageNumDisplay (Number.to_string (currentPageNum (vars s))))
    else ret tt
  else ret tt.

Definition pageObserver (entries : list Entry) : Prog unit :=
  for_each entries pageObserver_entry.

(** The option [threshold: 0.5] the observer is created with: the share of
    an element that has to be visible in the viewer area. *)
Definition pageObserver_threshold : QArith_base.Q := QArith_base.Qmake 1 2.

(** *** Loading and rendering the document *)

Definition add_text_layer (id : jsstring) (w : PageWrapper) : PageWrapper :=
  if JsString.eqb (wrapper_id w) id then
    {| wrapper_id := wrapper_id w; wrapper_class := wrapper_class w;
       wrapper_children := wrapper_children w ++ [TextLayer] |}
  else w.

Definition render_page (pageNum : Z) : Prog unit :=
  try_catch
    (_ <- await (GetPage pageNum) ;;
     let pageWrapper :=
       {| wrapper_id := page_wrapper_id pageNum;
          wrapper_class := $"pdf-page-wrapper";
          wrapper_children := [Canvas] |} in
     modify (fun s => set_viewerContainer
                        (viewerContainer (viewer s) ++ [pageWrapper]) s) ;;
     modify (fun s => set_observed
                        (observed (viewer s) ++ [wrapper_id pageWrapper]) s) ;;
     _ <- await (RenderPage pageNum) ;;
     _ <- await (GetTextContent pageNum) ;;
     modify (fun s => set_viewerContainer
                        (map (add_text_layer (wrapper_id pageWrapper))
                             (viewerContainer (viewer s))) s) ;;
     _ <- await (RenderTextLayer pageNum) ;;
     ret tt)
    (fun pageError => console_error pageError).

(** The loop [for (pageNum = 1; pageNum <= totalPages; pageNum++)]:
    [count] iterations remain, the test reads [totalPages] each time. *)
Fixpoint render_pages (count : nat) (pageNum : Z) : Prog unit :=
  match count with
  | O => ret tt
  | S count' =>
      s <- get_state ;;
      if pageNum <=? totalPages (vars s) then
        render_page pageNum ;;
        render_pages count' (pageNum + 1)
      else ret tt
  end.

Definition renderAllPages : Prog unit :=
  modify (set_viewerContainer []) ;;
  modify (set_observed []) ;;
  s <- get_state ;;
  render_pages (Z.to_nat (totalPages (vars s))) 1.

Definition viewerArea_mouseup (selection : jsstring) : Prog unit :=
  let selectedText := JsString.trim selection in
  if (0 <? List.length selectedText)%nat then
    modify (set_currentHighlightedText selectedText)
  else ret tt.

Definition setupTextSelection : Prog unit :=
  modify (fun s => set_mouseupListeners (S (mouseupListeners (viewer s))) s).

Definition loadPdf (pdfUrl : jsstring) : Prog unit :=
  emit (ConsoleLog ($"Loading PDF from URL: " ++ pdfUrl)) ;;
  try_catch
    (doc <- await (GetDocument pdfUrl) ;;
     match doc with
     | PdfDocument numPages =>
         modify (set_pdfDoc (Some numPages)) ;;
         modify (set_totalPages numPages) ;;
         modify (set_pageCountDisplay (Number.int_to_string numPages)) ;;
         renderAllPages ;;
         setupTextSelection
     | _ => Throw Rejection
     end)
    (fun error =>
       console_error error ;;
       alert $"Could not load PDF file.").

(** *** Layers and annotations *)

Definition layer_placeholder : SelectOption :=
  {| option_value := []; option_text := $"-- Select Journal / Group --";
     option_disabled := true |}.

Definition no_layers_placeholder : SelectOption :=
  {| option_value := []; option_text := $"No journals yet";
     option_disabled := true |}.

Definition layer_option (layer : Val) : Prog unit :=
  id <- or_type_error (Value.get $"id" layer) ;;
  name <- or_type_error (Value.get $"name" layer) ;;
  creator_name <- or_type_error (Value.get $"creator_name" layer) ;;
  let option :=
    {| option_value := Value.to_string id;
       option_text := Value.to_string name ++ $" (by " ++
                      Value.to_string creator_name ++ $")";
       option_disabled := false |} in
  modify (fun s => set_layerSelect
                     (Dom.append_option option (layerSelect (panel s))) s).

Definition fetchLayers : Prog unit :=
  try_catch
    (response <- fetch ($"/api/book/" ++ Value.to_string EBOOK_ID ++ $"/layers")
                       GET None ;;
     layers <- json (snd response) ;;
     modify (set_layerSelect
               {| options := [layer_placeholder]; selectedIndex := Some O |}) ;;
     empty <- or_type_error (length_is_zero layers) ;;
     (if empty : bool then
        modify (fun s => set_layerSelect
                           (Dom.append_option no_layers_placeholder
                              (layerSelect (panel s))) s)
      else ret tt) ;;
     items <- or_type_error (array_items layers) ;;
     for_each items layer_option)
    (fun error => console_error error).

Definition annotation_card (annotation : Val) : Prog unit :=
  author_name <- or_type_error (Value.get $"author_name" annotation) ;;
  author_id <- or_type_error (Value.get $"author_id" annotation) ;;
  id <- or_type_error (Value.get $"id" annotation) ;; (* read on click *)
  let deleteBtn :=
    if Value.strict_eq author_id CURRENT_USER_ID then Some id else None in
  content <- or_type_error (Value.get $"content" annotation) ;;
  pre_wrap <- or_type_error (includes $"[AI]:" content) ;;
  highlighted_text <- or_type_error (Value.get $"highlighted_text" annotation) ;;
  position_data <- or_type_error (Value.get $"position_data" annotation) ;;
  let quote :=
    if Value.truthy highlighted_text then
      Some {| quote_text := Dom.text_of highlighted_text;
              quote_location :=
                if Value.truthy position_data then
                  Some ($"(Location: " ++ Value.to_string position_data ++ $")")
                else None |}
    else None in
  let card :=
    {| card_class := $"annotation-card";
       card_attributes := [];
       card_author := Dom.text_of author_name;
       card_delete := deleteBtn;
       card_content := Dom.text_of content;
       card_pre_wrap := pre_wrap;
       card_quote := quote |} in
  modify (fun s => set_annotationList
                     (annotationList (panel s) ++ [CardNode card]) s).

Definition renderAnnotations (annotations : Val) : Prog unit :=
  modify (set_annotationList []) ;;
  empty <- or_type_error (length_is_zero annotations) ;;
  if empty : bool then
    modify (set_annotationList
              [Paragraph $"No notes yet. Start writing below!"])
  else
    items <- or_type_error (array_items annotations) ;;
    for_each items annotation_card.

Definition fetchAnnotations (layerId : Val) : Prog unit :=
  if negb (Value.truthy layerId) then
    modify (set_annotationList [Paragraph $"Select a journal layer above."])
  else
    modify (set_currentLayerId layerId) ;;
    modify (set_annotationList [Paragraph $"Loading..."]) ;;
    try_catch
      (response <- fetch ($"/api/layer/" ++ Value.to_string layerId ++
                          $"/annotations") GET None ;;
       annotations <- json (snd response) ;;
       renderAnnotations annotations)
      (fun error => console_error error).

Definition saveAnnotation : Prog unit :=
  s <- get_state ;;
  let content := JsString.trim (annotationTextarea (panel s)) in
  if negb (Value.truthy (VStr content)) then
    alert $"Please write a note."
  else if negb (Value.truthy (currentLayerId (vars s))) then
    alert $"Please select a journal layer."
  else
    let highlightedText := currentHighlightedText (vars s) in
    let positionData :=
      $"Page " ++ Number.to_string (currentPageNum (vars s)) in
    try_catch
      (response <- fetch $"/api/annotation/new" POST
         (Some (Value.stringify (VObj
            [($"content", VStr content);
             ($"layer_id", currentLayerId (vars s));
             ($"highlighted_text", VStr highlightedText);
             ($"position_data", VStr positionData)]))) ;;
       if negb (fst response) then Throw (Error $"Failed to save")
       else
         s' <- get_state ;;
         spawn (fetchAnnotations (currentLayerId (vars s'))) ;;
         modify (set_annotationTextarea []) ;;
         modify (set_currentHighlightedText []))
      (fun error =>
         console_error error ;;
         alert $"Error saving note.").

Definition deleteAnnotation (annotationId : Val) : Prog unit :=
  ok <- confirm $"Delete this note?" ;;
  if negb ok then ret tt
  else
    _ <- fetch ($"/api/annotation/" ++ Value.to_string annotationId ++
                $"/delete") POST None ;;
    modify (fun s => set_annotationList
              (Dom.remove_first
                 (Dom.matches_card (Value.to_string annotationId))
                 (annotationList (panel s))) s).

(** *** The dialog that creates a layer *)

Definition group_option (group : Val) : Prog unit :=
  id <- or_type_error (Value.get $"id" group) ;;
  name <- or_type_error (Value.get $"name" group) ;;
  let opt :=
    {| option_value := Value.to_string id;
       option_text := group_label_prefix ++ Value.to_string name;
       option_disabled := false |} in
  modify (fun s => set_newLayerGroupSelect
                     (Dom.append_option opt (newLayerGroupSelect (modal s))) s).

Definition openCreateLayerModal : Prog unit :=
  modify (set_newLayerNameInput []) ;;
  modify (set_newLayerGroupSelect
            {| options := [{| option_value := [];
                              option_text := $"Loading groups...";
                              option_disabled := false |}];
               selectedIndex := Some O |}) ;;
  modify (set_createLayerModal_display $"flex") ;;
  try_catch
    (response <- fetch $"/api/user/groups" GET None ;;
     if negb (fst response) then Throw (Error $"Could not fetch groups.")
     else
       userGroups <- json (snd response) ;;
       modify (set_newLayerGroupSelect
                 {| options := [{| option_value := $"0";
                                   option_text := private_label;
                                   option_disabled := false |}];
                    selectedIndex := Some O |}) ;;
       items <- or_type_error (array_items userGroups) ;;
       for_each items group_option)
    (fun error =>
       console_error error ;;
       alert $"Error loading groups." ;;
       modify (set_createLayerModal_display $"none")).

Definition confirmLayerBtn_onclick : Prog unit :=
  s <- get_state ;;
  let layerName := JsString.trim (newLayerNameInput (modal s)) in
  let groupIdVal := Dom.select_value (newLayerGroupSelect (modal s)) in
  if negb (Value.truthy (VStr layerName)) then
    alert $"Please enter a name."
  else
    let studyGroupId :=
      if JsString.eqb groupIdVal $"0" then VNull
      else VNum (Number.parseInt groupIdVal) in
    try_catch
      (createResponse <- fetch $"/api/layer/new" POST
         (Some (Value.stringify (VObj
            [($"name", VStr layerName);
             ($"ebook_id", EBOOK_ID);
             ($"study_group_id", studyGroupId)]))) ;;
       if negb (fst createResponse) then Throw (Error $"Failed to create layer")
       else
         modify (set_createLayerModal_display $"none") ;;
         fetchLayers ;;
         newLayer <- read_json (snd createResponse) ;;
         id <- or_type_error (Value.get $"id" newLayer) ;;
         modify (fun s => set_layerSelect
                   (Dom.set_select_value (Value.to_string id)
                      (layerSelect (panel s))) s) ;;
         spawn (fetchAnnotations id))
      (fun error =>
         console_error error ;;
         alert $"Error creating layer.").

Definition cancelLayerBtn_onclick : Prog unit :=
  modify (set_createLayerModal_display $"none").

(** *** Ask AI *)

Definition askAiToExplain : Prog unit :=
  s <- get_state ;;
  let userThought := JsString.trim (annotationTextarea (panel s)) in
  if negb (Value.truthy (VStr userThought)) then
    alert $"Please write a question or thought in the box first."
  else
    let originalText := button_textContent (askAiBtn s) in
    modify (set_button_textContent $"Thinking...") ;;
    modify (set_button_disabled true) ;;
    try_finally
      (try_catch
         (response <- fetch $"/api/ai/explain" POST
            (Some (Value.stringify (VObj
               [($"text", VStr userThought);
                ($"ebook_id", EBOOK_ID)]))) ;;
          data <- json (snd response) ;;
          explanation <- or_type_error (Value.get $"explanation" data) ;;
          modify (fun s => set_annotationTextarea
                    (annotationTextarea (panel s) ++ [10; 10]%N ++
                     $"[AI]: " ++ Value.to_string explanation ++ [10]%N) s))
         (fun error =>
            console_error error ;;
            alert $"AI could not respond."))
      (modify (set_button_textContent ask_ai_label) ;;
       modify (set_button_disabled false) ;;
       modify (set_button_animation $"none")).

(** *** Page navigation *)

Definition has_wrapper (id : jsstring) (s : State) : bool :=
  existsb (fun w => JsString.eqb (wrapper_id w) id)
          (viewerContainer (viewer s)).

Definition scroll_to_page (delta : Z) : Prog unit :=
  s <- get_state ;;
  let id := $"page-wrapper-" ++
            Number.to_string (num_add (currentPageNum (vars s)) delta) in
  if has_wrapper id s then emit (ScrollIntoView id) else ret tt.

Definition prevPageBtn_click : Prog unit := scroll_to_page (-1).
Definition nextPageBtn_click : Prog unit := scroll_to_page 1.

(** *** Start-up: the end of the DOMContentLoaded handler *)

Definition init : Prog unit :=
  spawn fetchLayers ;;
  spawn (loadPdf PDF_URL).

(** The variables as the script declares them, over the elements of the
    hosting page [host]; the observer and the viewer have nothing attached
    yet. *)
Definition initial_state (host : State) : State :=
  {| vars := {| pdfDoc := None; currentPageNum := Int 1; totalPages := 0;
                currentLayerId := VNull; currentHighlightedText := [] |};
     viewer := {| viewerContainer := viewerContainer (viewer host);
                  observed := [];
                  pageNumDisplay := pageNumDisplay (viewer host);
                  pageCountDisplay := pageCountDisplay (viewer host);
                  mouseupListeners := O |};
     panel := panel host;
     modal := modal host;
     askAiBtn := askAiBtn host |}.

(** ** The event loop *)

Record World : Type := {
  state : State;
  log : list Effect;
  pending : list Task
}.

Inductive Event : Type :=
| Intersect (entries : list Entry)       (* the observer reports *)
| MouseUp (selection : jsstring)         (* pointer release in the viewer *)
| TypeNote (text : jsstring)             (* the user edits the textarea *)
| TypeLayerName (text : jsstring)
| ChooseGroup (i : nat)                  (* picks an option of the dialog *)
| ChooseLayer (i : nat)                  (* picks a layer: a change event *)
| ClickSave
| ClickDelete (i : nat) (answer : bool)  (* on the i-th node of the list *)
| ClickAddLayer
| ClickConfirmLayer
| ClickCancelLayer
| ClickBackdrop
| ClickAskAi
| ClickPrev
| ClickNext
| Settle (i : nat) (reply : Reply).      (* the i-th pending task resumes *)

Fixpoint remove_nth {A : Type} (i : nat) (l : list A) : list A :=
  match l, i with
  | [], _ => []
  | _ :: r, O => r
  | x :: r, S i' => x :: remove_nth i' r
  end.

Definition choose (i : nat) (sel : Select) : option Select :=
  match nth_error (options sel) i with
  | Some o => if option_disabled o then None
              else Some {| options := options sel; selectedIndex := Some i |}
  | None => None
  end.

(** The handler an event starts, with the answer to its dialog. *)
Definition createLayerModal_click (on_backdrop : bool) : Prog unit :=
  if on_backdrop then modify (set_createLayerModal_display $"none")
  else ret tt.

Definition handler (ev : Event) (w : World) : (jsstring -> bool) * Prog unit :=
  let s := state w in
  match ev with
  | Intersect entries => (no_dialog, pageObserver entries)
  | MouseUp selection =>
      (no_dialog,
       for_each (seq 0 (mouseupListeners (viewer s)))
                (fun _ => viewerArea_mouseup selection))
  | TypeNote text => (no_dialog, modify (set_annotationTextarea text))
  | TypeLayerName text => (no_dialog, modify (set_newLayerNameInput text))
  | ChooseGroup i =>
      (no_dialog,
       match choose i (newLayerGroupSelect (modal s)) with
       | Some sel => modify (set_newLayerGroupSelect sel)
       | None => ret tt
       end)
  | ChooseLayer i =>
      (no_dialog,
       match choose i (layerSelect (panel s)) with
       | Some sel =>
           modify (set_layerSelect sel) ;;
           fetchAnnotations (VStr (Dom.select_value sel))
       | None => ret tt
       end)
  | ClickSave => (no_dialog, saveAnnotation)
  | ClickDelete i answer =>
      (fun _ => answer,
       match nth_error (annotationList (panel s)) i with
       | Some (CardNode c) =>
           match card_delete c with
           | Some id => deleteAnnotation id
           | None => ret tt
           end
       | _ => ret tt
       end)
  | ClickAddLayer => (no_dialog, openCreateLayerModal)
  | ClickConfirmLayer => (no_dialog, confirmLayerBtn_onclick)
  | ClickCancelLayer => (no_dialog, cancelLayerBtn_onclick)
  | ClickBackdrop => (no_dialog, createLayerModal_click true)
  | ClickAskAi =>
      (no_dialog,
       if button_disabled (askAiBtn s) then ret tt else askAiToExplain)
  | ClickPrev => (no_dialog, prevPageBtn_click)
  | ClickNext => (no_dialog, nextPageBtn_click)
  | Settle i reply =>
      (no_dialog,
       match nth_error (pending w) i with
       | Some t => task_cont t reply
       | None => ret tt
       end)
  end.

Definition step (ev : Event) (w : World) : World :=
  let '(user, p) := handler ev w in
  let r := call user p (state w) in
  {| state := step_state r;
     log := log w ++ step_effects r;
     pending := match ev with
                | Settle i _ => remove_nth i (pending w)
                | _ => pending w
                end ++ step_tasks r |}.

Definition boot (host : State) : World :=
  let r := call no_dialog init (initial_state host) in
  {| state := step_state r; log := step_effects r; pending := step_tasks r |}.

Definition steps (evs : list Event) (w : World) : World :=
  fold_left (fun w ev => step ev w) evs w.

(** *** What the environment may deliver

    A reply answers the operation awaited: a fetch settles with a
    Response, the document loader with a document of any number of
    pages, the page operations and the reading of a body with no value
    the script reads; any of them may be rejected.  The observer reports
    on elements it observes. *)

Definition reply_ok (r : Req) (reply : Reply) : bool :=
  match reply, r with
  | Rejected, _ => true
  | Response _ _, Fetch _ _ _ => true
  | PdfDocument _, GetDocument _ => true
  | Resolved, (GetPage _ | RenderPage _ | GetTextContent _ | RenderTextLayer _
               | ReadJson _) =>
      true
  | _, _ => false
  end.

Definition is_observed (s : State) (id : jsstring) : bool :=
  existsb (JsString.eqb id) (observed (viewer s)).

(** The entries a browser delivers to an observer with one threshold for
    the elements whose visible share it has measured.  The script reads
    [isIntersecting] only; browsers set that flag from the threshold: an
    entry is marked intersecting when the share has reached it. *)
Definition report (threshold : QArith_base.Q)
  (measured : list (jsstring * QArith_base.Q)) : list Entry :=
  map (fun m => {| target := fst m;
                   isIntersecting := QArith_base.Qle_bool threshold (snd m) |})
      measured.

Definition event_ok (w : World) (ev : Event) : bool :=
  match ev with
  | Intersect entries =>
      forallb (fun e => is_observed (state w) (target e)) entries
  | Settle i reply =>
      match nth_error (pending w) i with
      | Some t => reply_ok (task_req t) reply
      | None => false
      end
  | _ => true
  end.

Fixpoint trace_ok (evs : list Event) (w : World) : bool :=
  match evs with
  | [] => true
  | ev :: rest => event_ok w ev && trace_ok rest (step ev w)
  end.

(** A request that fails: the fetch is rejected, or the response does not
    have a success status. *)
Definition request_failed (reply : Reply) : bool :=
  match reply with
  | Rejected | Response false _ => true
  | _ => false
  end.



(** *** Invariants of the page tracker *)

Definition valid_page_id (n : Z) (id : jsstring) : Prop :=
  exists k, 1 <= k <= n /\ id = page_wrapper_id k.

(** Before the document has arrived ([None]) and with a document of [n]
    pages ([Some n]); the current page stays 1 when the document has no
    page. *)
Definition Tracked (d : option Z) (s : State) : Prop :=
  match d with
  | None =>
      pdfDoc (vars s) = None /\ totalPages (vars s) = 0 /\
      currentPageNum (vars s) = Int 1 /\ observed (viewer s) = []
  | Some n =>
      totalPages (vars s) = n /\
      (exists z, currentPageNum (vars s) = Int z /\ 1 <= z <= Z.max 1 n) /\
      Forall (valid_page_id n) (observed (viewer s))
  end.

(** An assignment that keeps [I] and does not touch [currentPageNum]. *)
Definition preserves (I : State -> Prop) (f : State -> State) : Prop :=
  forall s, I s ->
    I (f s) /\ currentPageNum (vars (f s)) = currentPageNum (vars s).

(** The variables and elements the tracker invariant speaks of. *)
Definition tracker_view (s : State)
  : option Z * Num * Z * list jsstring :=
  (pdfDoc (vars s), currentPageNum (vars s), totalPages (vars s),
   observed (viewer s)).

(** An assignment to something else. *)
Definition quiet (f : State -> State) : Prop :=
  forall s, tracker_view (f s) = tracker_view s.

(** A program all of whose assignments satisfy [P], whatever the replies
    and whatever it reads from states that satisfy [I]. *)
Inductive Safe (I : State -> Prop) (P : (State -> State) -> Prop)
  : forall A : Type, Prog A -> Prop :=
| Safe_Ret A (a : A) : Safe I P A (Ret a)
| Safe_Throw A e : Safe I P A (Throw e)
| Safe_Read A k : (forall s, I s -> Safe I P A (k s)) -> Safe I P A (Read k)
| Safe_Modify A f k : P f -> Safe I P A k -> Safe I P A (Modify f k)
| Safe_Emit A e k : Safe I P A k -> Safe I P A (Emit e k)
| Safe_Ask A msg k : (forall b, Safe I P A (k b)) -> Safe I P A (Ask msg k)
| Safe_Await A r k :
    (forall reply, reply_ok r reply = true -> Safe I P A (k reply)) ->
    Safe I P A (Await r k)
| Safe_Spawn A q k :
    Safe I P unit q -> Safe I P A k -> Safe I P A (Spawn q k).

Definition SafeTask (I : State -> Prop) (P : (State -> State) -> Prop)
  (t : Task) : Prop :=
  forall reply, reply_ok (task_req t) reply = true ->
    Safe I P unit (task_cont t reply).

(** Programs that leave the tracker alone, and programs that keep its
    invariant. *)
Definition Quiet (A : Type) (p : Prog A) : Prop :=
  Safe (fun _ => True) quiet A p.

Definition Keeps (d : option Z) (A : Type) (p : Prog A) : Prop :=
  Safe (Tracked d) (preserves (Tracked d)) A p.

(** The task [loadPdf] leaves waiting for the document: resumed before
    a document has arrived, it keeps the current page and leaves the
    tracker in order, for no document or for the one that arrived. *)
Definition LoadTask (t : Task) : Prop :=
  forall reply s,
    reply_ok (task_req t) reply = true ->
    Tracked None s ->
    currentPageNum (vars (step_state (call no_dialog (task_cont t reply) s))) =
      currentPageNum (vars s) /\
    exists d,
      Tracked d (step_state (call no_dialog (task_cont t reply) s)) /\
      Forall (SafeTask (Tracked d) (preserves (Tracked d)))
             (step_tasks (call no_dialog (task_cont t reply) s)).

(** What holds of the page between two turns of the event loop. *)
Definition WorldInv (w : World) : Prop :=
  (exists d,
     Tracked d (state w) /\
     Forall (SafeTask (Tracked d) (preserves (Tracked d))) (pending w)) \/
  (Tracked None (state w) /\
   exists l1 t l2,
     pending w = l1 ++ t :: l2 /\ LoadTask t /\
     Forall (SafeTask (fun _ => True) quiet) (l1 ++ l2)).

(** *** The selected layer *)

Definition layer_selected (s : State) : Prop :=
  Value.truthy (currentLayerId (vars s)) = true.

(** An assignment that does not unselect the layer. *)
Definition keeps_layer (f : State -> State) : Prop :=
  forall s, layer_selected s -> layer_selected (f s).

Definition Steady (A : Type) (p : Prog A) : Prop :=
  Safe (fun _ => True) keeps_layer A p.

Definition still_selected (s s' : State) : Prop :=
  layer_selected s -> layer_selected s'.

(** *** Decimal numerals *)

Definition is_digit (c : N) : Prop := (48 <= c <= 57)%N.

(** The number a string of decimal digits denotes, after [a]. *)
Definition value_of (l : jsstring) (a : N) : N :=
  fold_left (fun a c => a * 10 + (c - 48))%N l a.

(** *** Cards as [renderAnnotations] makes them *)

Definition no_data_id (n : Node) : Prop :=
  match n with
  | CardNode c => Dom.attribute $"data-id" c = None
  | Paragraph _ => True
  end.

Definition plain_list (s : State) : Prop :=
  Forall no_data_id (annotationList (panel s)).

(** *** Example inputs *)

(** The page after [renderAnnotations] has shown the sample note. *)
Definition rendered : State :=
  final (run no_dialog (renderAnnotations (VArr [Sample.annotation]))
             Sample.host).

(** A document of two pages arrives, its first page is rendered, its second
    page is fetched and observed, and the observer reports page 2 as
    intersecting. *)
Definition reading : list Event :=
  [Settle 1 (PdfDocument 2);
   Settle 1 Resolved; Settle 1 Resolved; Settle 1 Resolved; Settle 1 Resolved;
   Settle 1 Resolved;
   Intersect [Sample.page 1 false; Sample.page 2 true]].

(** The layers arrive, the reader picks the first one and types a note. *)
Definition note_taking : list Event :=
  [Settle 0 (Response true (Some (VArr [Sample.layer])));
   ChooseLayer 1;
   TypeNote $"why?"].

(** The same, and then the document of two pages arrives and page 2 is
    reported, as in [reading]. *)
Definition studying : list Event :=
  note_taking ++
  [Settle 0 (PdfDocument 2);
   Settle 1 Resolved; Settle 1 Resolved; Settle 1 Resolved; Settle 1 Resolved;
   Settle 1 Resolved;
   Intersect [Sample.page 1 false; Sample.page 2 true]].

(** The sample dialog once the groups have arrived, with the private
    scope and one group to choose from and the [i]-th option selected. *)
Definition choosing (i : nat) : State :=
  set_newLayerGroupSelect
    {| options := [{| option_value := $"0"; option_text := private_label;
                      option_disabled := false |};
                   {| option_value := $"4";
                      option_text := group_label_prefix ++ $"Club";
                      option_disabled := false |}];
       selectedIndex := Some i |} Sample.naming.

(** A document of one page arrives and its page is rendered: [loadPdf]
    returns. *)
Definition loaded : list Event :=
  [Settle 1 (PdfDocument 1);
   Settle 1 Resolved; Settle 1 Resolved; Settle 1 Resolved; Settle 1 Resolved].

(** The layer the backend answers a creation with. *)
Definition created_layer : Val :=
  VObj [($"id", VNum (Int 9)); ($"name", VStr $"Notes");
        ($"creator_name", VStr $"Ann")].


(** *** One task run to its end

    The turns of one suspended call, resumed with one reply after the
    other while nothing else happens on the page in between. *)

Definition after {A : Type} (effs : list Effect) (tasks : list Task)
  (t : Turn A) : Turn A :=
  {| final := final t; effects := effs ++ effects t;
     spawned := tasks ++ spawned t; outcome := outcome t |}.

Definition resume {A : Type} (user : jsstring -> bool) (t : Turn A)
  (reply : Reply) : Turn A :=
  match outcome t with
  | Waiting _ k => after (effects t) (spawned t) (run user (k reply) (final t))
  | _ => t
  end.

Definition settle_all {A : Type} (user : jsstring -> bool)
  (replies : list Reply) (t : Turn A) : Turn A :=
  fold_left (resume user) replies t.

(** The replies in [replies] are exactly those the call awaits before it
    ends. *)
Fixpoint consumes {A : Type} (user : jsstring -> bool) (replies : list Reply)
  (t : Turn A) : Prop :=
  match replies with
  | [] => match outcome t with Waiting _ _ => False | _ => True end
  | x :: rest =>
      match outcome t with
      | Waiting _ _ => consumes user rest (resume user t x)
      | _ => False
      end
  end.

(** *** What happens to one page in [renderAllPages]

    The four operations the loop awaits for a page, and the first of them
    that is rejected, if any. *)

Inductive PageFate : Type :=
| FailGetPage
| FailRender
| FailTextContent
| FailTextLayer
| Complete.

Definition page_replies (fate : PageFate) : list Reply :=
  match fate with
  | FailGetPage => [Rejected]
  | FailRender => [Resolved; Rejected]
  | FailTextContent => [Resolved; Resolved; Rejected]
  | FailTextLayer => [Resolved; Resolved; Resolved; Rejected]
  | Complete => [Resolved; Resolved; Resolved; Resolved]
  end.

Definition page_wrapper (pageNum : Z) (children : list PageChild)
  : PageWrapper :=
  {| wrapper_id := page_wrapper_id pageNum;
     wrapper_class := $"pdf-page-wrapper";
     wrapper_children := children |}.

(** The wrapper the page leaves in the viewer. *)
Definition page_result (pageNum : Z) (fate : PageFate) : list PageWrapper :=
  match fate with
  | FailGetPage => []
  | FailRender | FailTextContent => [page_wrapper pageNum [Canvas]]
  | FailTextLayer | Complete => [page_wrapper pageNum [Canvas; TextLayer]]
  end.

(** What the loop requests and reports for the page. *)
Definition page_effects (pageNum : Z) (fate : PageFate) : list Effect :=
  match fate with
  | FailGetPage =>
      [Request (GetPage pageNum); ConsoleError Rejection]
  | FailRender =>
      [Request (GetPage pageNum); Request (RenderPage pageNum);
       ConsoleError Rejection]
  | FailTextContent =>
      [Request (GetPage pageNum); Request (RenderPage pageNum);
       Request (GetTextContent pageNum); ConsoleError Rejection]
  | FailTextLayer =>
      [Request (GetPage pageNum); Request (RenderPage pageNum);
       Request (GetTextContent pageNum); Request (RenderTextLayer pageNum);
       ConsoleError Rejection]
  | Complete =>
      [Request (GetPage pageNum); Request (RenderPage pageNum);
       Request (GetTextContent pageNum); Request (RenderTextLayer pageNum)]
  end.

(** Pages [first], [first + 1], ... with their fates. *)
Fixpoint numbered (first : Z) (fates : list PageFate) : list (Z * PageFate) :=
  match fates with
  | [] => []
  | fate :: rest => (first, fate) :: numbered (first + 1) rest
  end.

Definition pages_result (first : Z) (fates : list PageFate)
  : list PageWrapper :=
  flat_map (fun p => page_result (fst p) (snd p)) (numbered first fates).

Definition pages_effects (first : Z) (fates : list PageFate) : list Effect :=
  flat_map (fun p => page_effects (fst p) (snd p)) (numbered first fates).

(** The viewer with the wrappers [added] appended and observed. *)
Definition with_pages (added : list PageWrapper) (s : State) : State :=
  set_observed (observed (viewer s) ++ map wrapper_id added)
    (set_viewerContainer (viewerContainer (viewer s) ++ added) s).

(** *** The page indicator *)

Definition indicator_view (s : State) : Num * jsstring :=
  (currentPageNum (vars s), pageNumDisplay (viewer s)).

(** An assignment to something else than the current page and its
    indicator. *)
Definition keeps_indicator (f : State -> State) : Prop :=
  forall s, indicator_view (f s) = indicator_view s.

Definition Offstage (A : Type) (p : Prog A) : Prop :=
  Safe (fun _ => True) keeps_indicator A p.

(** The indicator shows the current page, or nothing has been reported yet
    and it shows what the hosting page put there. *)
Definition indicator_ok (host s : State) : Prop :=
  (currentPageNum (vars s) = Int 1 /\
   pageNumDisplay (viewer s) = pageNumDisplay (viewer host)) \/
  pageNumDisplay (viewer s) = Number.to_string (currentPageNum (vars s)).

(** *** What the backend may send *)

(** A reply from which no body can be read: the fetch is rejected, or the
    body is not JSON. *)
Definition unreadable (reply : Reply) : bool :=
  match reply with
  | Rejected | Response _ None => true
  | _ => false
  end.

(** A value whose properties can be read. *)
Definition has_properties (v : Val) : bool :=
  match v with
  | VUndefined | VNull => false
  | _ => true
  end.

(** [v.name], [undefined] when there is no such property. *)
Definition prop (name : jsstring) (v : Val) : Val :=
  match Value.get name v with
  | Some x => x
  | None => VUndefined
  end.

(** The option [fetchLayers] shows for a layer. *)
Definition layer_as_option (layer : Val) : SelectOption :=
  {| option_value := Value.to_string (prop $"id" layer);
     option_text := Value.to_string (prop $"name" layer) ++ $" (by " ++
                    Value.to_string (prop $"creator_name" layer) ++ $")";
     option_disabled := false |}.


(** An annotation [renderAnnotations] can make a card of: its properties
    can be read and its content has an [includes] method. *)
Definition renderable (annotation : Val) : bool :=
  match Value.get $"content" annotation with
  | Some (VStr _) | Some (VArr _) => true
  | _ => false
  end.

(** What a card shows of its annotation. *)
Definition card_shows (user : Val) (annotation : Val) (c : Card) : Prop :=
  card_class c = $"annotation-card" /\
  card_author c = Dom.text_of (prop $"author_name" annotation) /\
  card_content c = Dom.text_of (prop $"content" annotation) /\
  card_delete c =
    (if Value.strict_eq (prop $"author_id" annotation) user
     then Some (prop $"id" annotation) else None) /\
  (card_quote c = None <->
   Value.truthy (prop $"highlighted_text" annotation) = false).

(** The elements of an array; nothing for any other value. *)
Definition items_of (v : Val) : list Val :=
  match array_items v with
  | Some items => items
  | None => []
  end.

(** A node that offers deletion only of a note of [user] among [items]. *)
Definition own_delete (user : Val) (items : list Val) (n : Node) : Prop :=
  match n with
  | CardNode c =>
      forall id, card_delete c = Some id ->
        exists annotation,
          In annotation items /\
          Value.strict_eq (prop $"author_id" annotation) user = true /\
          prop $"id" annotation = id
  | Paragraph _ => True
  end.

(** A body from which no record can be read: not JSON, or [null]. *)
Definition no_record (body : option Val) : bool :=
  match body with
  | Some v => negb (has_properties v)
  | None => true
  end.



(** *** The selection listener

    [setupTextSelection] is called at the end of [loadPdf], after the
    pages have been rendered: what a pointer release does depends on how
    far the loading has come. *)

(** An operation of the document loader or of a page. *)
Definition page_request (r : Req) : bool :=
  match r with
  | GetDocument _ | GetPage _ | RenderPage _ | GetTextContent _
  | RenderTextLayer _ => true
  | Fetch _ _ _ | ReadJson _ => false
  end.

(** The document has arrived and nothing of it is awaited any more. *)
Definition loading_finished (w : World) : bool :=
  match pdfDoc (vars (state w)) with
  | Some _ => forallb (fun t => negb (page_request (task_req t))) (pending w)
  | None => false
  end.

Definition loader_view (s : State) : option Z * nat :=
  (pdfDoc (vars s), mouseupListeners (viewer s)).

(** An assignment to something else than the document and the
    listeners. *)
Definition bystanding (f : State -> State) : Prop :=
  forall s, loader_view (f s) = loader_view s.

(** A program that leaves the document and the listeners alone and awaits
    no operation of the document. *)
Inductive Bystander : forall A : Type, Prog A -> Prop :=
| By_Ret A (a : A) : Bystander A (Ret a)
| By_Throw A e : Bystander A (Throw e)
| By_Read A k : (forall s, Bystander A (k s)) -> Bystander A (Read k)
| By_Modify A f k : bystanding f -> Bystander A k -> Bystander A (Modify f k)
| By_Emit A e k : Bystander A k -> Bystander A (Emit e k)
| By_Ask A msg k : (forall b, Bystander A (k b)) -> Bystander A (Ask msg k)
| By_Await A r k :
    page_request r = false -> (forall reply, Bystander A (k reply)) ->
    Bystander A (Await r k)
| By_Spawn A q k :
    Bystander unit q -> Bystander A k -> Bystander A (Spawn q k).

(** A program that leaves the document and the listeners alone, awaits
    operations of the document only and calls nothing on the side;
    [throws] tells whether it may fail. *)
Inductive Calm (throws : bool) : forall A : Type, Prog A -> Prop :=
| Calm_Ret A (a : A) : Calm throws A (Ret a)
| Calm_Throw A e : throws = true -> Calm throws A (Throw e)
| Calm_Read A k : (forall s, Calm throws A (k s)) -> Calm throws A (Read k)
| Calm_Modify A f k :
    bystanding f -> Calm throws A k -> Calm throws A (Modify f k)
| Calm_Emit A e k : Calm throws A k -> Calm throws A (Emit e k)
| Calm_Await A r k :
    page_request r = true -> (forall reply, Calm throws A (k reply)) ->
    Calm throws A (Await r k).

(** A program that goes on like that, cannot fail, and adds the listener
    as its last step. *)
Inductive Finishing : Prog unit -> Prop :=
| Fin_Read k : (forall s, Finishing (k s)) -> Finishing (Read k)
| Fin_Modify f k : bystanding f -> Finishing k -> Finishing (Modify f k)
| Fin_Emit e k : Finishing k -> Finishing (Emit e k)
| Fin_Await r k :
    page_request r = true -> (forall reply, Finishing (k reply)) ->
    Finishing (Await r k)
| Fin_Done : Finishing setupTextSelection.

(** What [loadPdf] does with the reply to its request for the document:
    it stores the document and goes on to the listener, or it reports the
    failure and returns. *)
Inductive Opening : Prog unit -> Prop :=
| Open_Document n p :
    Finishing p -> Opening (Modify (set_pdfDoc (Some n)) p)
| Open_Failed p :
    (forall user s,
       loader_view (final (run user p s)) = loader_view s /\
       spawned (run user p s) = [] /\
       outcome (run user p s) = Returned tt) ->
    Opening p.

Definition bystander_task (t : Task) : Prop :=
  page_request (task_req t) = false /\
  forall reply, Bystander unit (task_cont t reply).

Definition render_task (t : Task) : Prop :=
  page_request (task_req t) = true /\
  forall reply, Finishing (task_cont t reply).

Definition load_task (t : Task) : Prop :=
  page_request (task_req t) = true /\
  forall reply, Opening (task_cont t reply).

(** How far the loading has come: the task of [loadPdf] is waiting, for
    the document ([None]) or for a page, and the listener is not there; or
    the call has returned, with the listener if the document arrived and
    without it if it did not. *)
Definition Loader (w : World) : Prop :=
  (exists d l1 t l2,
     loader_view (state w) = (d, O) /\
     pending w = l1 ++ t :: l2 /\
     match d with
     | None => load_task t
     | Some _ => render_task t
     end /\
     Forall bystander_task (l1 ++ l2)) \/
  (exists d,
     loader_view (state w) =
       (d, match d with Some _ => 1%nat | None => O end) /\
     Forall bystander_task (pending w)).

(** *** The layer requested last

    [fetchAnnotations] is the one function that assigns [currentLayerId],
    and it requests the annotations of the layer in the same turn. *)

Definition annotations_url (layerId : Val) : jsstring :=
  $"/api/layer/" ++ Value.to_string layerId ++ $"/annotations".

(** The URL, if the effect is a request for the annotations of a layer:
    these are the requests the script makes with GET under
    [/api/layer/]. *)
Definition annotations_requested (e : Effect) : option jsstring :=
  match e with
  | Request (Fetch url GET _) =>
      if JsString.starts_with $"/api/layer/" url then Some url else None
  | _ => None
  end.

(** The last such request of a log. *)
Fixpoint requested_last (log : list Effect) : option jsstring :=
  match log with
  | [] => None
  | e :: rest =>
      match requested_last rest with
      | Some url => Some url
      | None => annotations_requested e
      end
  end.

(** After the effects [effs], [currentLayerId] is the layer whose
    annotations were requested last in them; it is [before] if none were
    requested. *)
Definition tied (before : Val) (effs : list Effect) (s : State) : Prop :=
  match requested_last effs with
  | Some url =>
      url = annotations_url (currentLayerId (vars s)) /\
      Value.truthy (currentLayerId (vars s)) = true
  | None => currentLayerId (vars s) = before
  end.

(** An assignment to something else than [currentLayerId]. *)
Definition keeps_layer_id (f : State -> State) : Prop :=
  forall s, currentLayerId (vars (f s)) = currentLayerId (vars s).

(** A program that assigns [currentLayerId] only as [fetchAnnotations]
    does, a truthy id whose annotations it requests next, and requests
    annotations only so. *)
Inductive Tied : forall A : Type, Prog A -> Prop :=
| Tied_Ret A (a : A) : Tied A (Ret a)
| Tied_Throw A e : Tied A (Throw e)
| Tied_Read A k : (forall s, Tied A (k s)) -> Tied A (Read k)
| Tied_Modify A f k : keeps_layer_id f -> Tied A k -> Tied A (Modify f k)
| Tied_Emit A e k :
    annotations_requested e = None -> Tied A k -> Tied A (Emit e k)
| Tied_Ask A msg k : (forall b, Tied A (k b)) -> Tied A (Ask msg k)
| Tied_Await A r k :
    annotations_requested (Request r) = None ->
    (forall reply, Tied A (k reply)) ->
    Tied A (Await r k)
| Tied_Spawn A q k : Tied unit q -> Tied A k -> Tied A (Spawn q k)
| Tied_Select A layerId g k :
    Value.truthy layerId = true ->
    keeps_layer_id g ->
    (forall reply, Tied A (k reply)) ->
    Tied A (Modify (set_currentLayerId layerId)
              (Modify g
                 (Await (Fetch (annotations_url layerId) GET None) k))).

Definition tied_task (t : Task) : Prop :=
  forall reply, Tied unit (task_cont t reply).

Definition Follows (w : World) : Prop :=
  tied VNull (log w) (state w) /\ Forall tied_task (pending w).

(** The reader picks layer 3 and then creates a layer, to which the
    backend gives the id 0; then a note is typed. *)
Definition creating_layer_zero : list Event :=
  [Settle 0 (Response true (Some (VArr [Sample.layer])));
   ChooseLayer 1;
   ClickAddLayer;
   Settle 2 (Response true (Some (VArr [])));
   TypeLayerName $"Notes";
   ClickConfirmLayer;
   Settle 2 (Response true
               (Some (VObj [($"id", VNum (Int 0)); ($"name", VStr $"Notes");
                            ($"creator_name", VStr $"Ann")])));
   Settle 2 (Response true (Some (VArr [Sample.layer])));
   Settle 2 Resolved;
   TypeNote $"why?"].

(** The reader opens the dialog, the groups arrive (there is none), a
    name is typed and confirmed; layer 9 is created, the layers arrive
    with it, the body of the creation response is read; then a note is
    typed.  The reader has selected no layer. *)
Definition creating : list Event :=
  [ClickAddLayer;
   Settle 2 (Response true (Some (VArr [])));
   TypeLayerName $"Notes";
   ClickConfirmLayer;
   Settle 2 (Response true (Some created_layer));
   Settle 2 (Response true (Some (VArr [created_layer])));
   Settle 2 Resolved;
   TypeNote $"why?"].

(** ** Properties *)

(** *** The interpreter *)

(** A handler that only reports leaves the state as the body left it. *)
Lemma final_try_catch (A : Type) (p : Prog A) :
  forall (h : Exn -> Prog A) user s,
    (forall e s0, final (run user (h e) s0) = s0) ->
    final (run user (try_catch p h) s) = final (run user p s).
Proof.
  induction p as [A a|A e|A k IH|A f k IH|A e k IH|A msg k IH|A r k IH
                 |A q IHq k IHk]; intros h user s Hh; cbn; auto.
Qed.

(** *** Strings and numbers *)

Lemma eqb_eq (a b : jsstring) : JsString.eqb a b = true <-> a = b.
Proof.
  revert b. induction a as [|x a IH]; intros [|y b]; cbn;
    try (split; [discriminate|congruence]); try tauto.
  rewrite andb_true_iff, N.eqb_eq, IH. split.
  - intros [-> ->]. reflexivity.
  - intros H. injection H as -> ->. auto.
Qed.

Lemma digit_value_digit (c : N) :
  is_digit c -> Number.digit_value 10 c = Some (c - 48)%N.
Proof.
  intros [H1 H2]. unfold Number.digit_value.
  assert (E1 : (48 <=? c)%N = true) by (apply N.leb_le; exact H1).
  assert (E2 : (c <=? 57)%N = true) by (apply N.leb_le; exact H2).
  rewrite E1, E2. cbn.
  assert (E3 : (c - 48 <? 10)%N = true) by (apply N.ltb_lt; lia).
  rewrite E3. reflexivity.
Qed.

Lemma parse_digits_value (l : jsstring) :
  Forall is_digit l ->
  forall a, Number.parse_digits 10 l (Some a) = Some (value_of l a).
Proof.
  induction 1 as [|c l Hc Hl IH]; intros a; cbn; [reflexivity|].
  rewrite (digit_value_digit c Hc). apply IH.
Qed.

Lemma parse_digits_start (c : N) (l : jsstring) :
  Forall is_digit (c :: l) ->
  Number.parse_digits 10 (c :: l) None = Some (value_of (c :: l) 0).
Proof.
  intros H. inversion H as [|? ? Hc Hl]; subst. cbn.
  rewrite (digit_value_digit c Hc). apply parse_digits_value, Hl.
Qed.

Lemma digits_fuel_digits (fuel : nat) :
  forall n acc, Forall is_digit acc ->
    Forall is_digit (Number.digits_fuel fuel n acc).
Proof.
  induction fuel as [|fuel IH]; intros n acc Hacc;
    cbn [Number.digits_fuel]; [exact Hacc|].
  assert (Hd : is_digit (Number.digit_char (n mod 10))).
  { unfold is_digit, Number.digit_char.
    assert (n mod 10 < 10)%N by (apply N.mod_upper_bound; lia).
    generalize dependent (n mod 10)%N. intros m. lia. }
  destruct (n / 10 =? 0)%N; [|apply IH]; constructor; assumption.
Qed.

Lemma digits_fuel_value (fuel : nat) :
  forall n acc, (n < 10 ^ N.of_nat fuel)%N ->
    value_of (Number.digits_fuel fuel n acc) 0 = value_of acc n.
Proof.
  induction fuel as [|fuel IH]; intros n acc Hn.
  - cbn in *. replace n with 0%N by lia. reflexivity.
  - cbn [Number.digits_fuel].
    rewrite Nnat.Nat2N.inj_succ, N.pow_succ_r' in Hn.
    assert (Hdm : n = (10 * (n / 10) + n mod 10)%N)
      by (apply N.div_mod; lia).
    assert (Hm : (n mod 10 < 10)%N) by (apply N.mod_upper_bound; lia).
    remember (10 ^ N.of_nat fuel)%N as bound eqn:Hbound.
    revert Hdm Hm.
    generalize (n mod 10)%N (n / 10)%N.
    intros m q Hdm Hm.
    destruct (q =? 0)%N eqn:Hq.
    + apply N.eqb_eq in Hq. unfold value_of, Number.digit_char.
      cbn [fold_left]. f_equal. lia.
    + rewrite IH.
      * unfold value_of, Number.digit_char. cbn [fold_left]. f_equal. lia.
      * subst bound. lia.
Qed.

Lemma digits_fuel_nonempty (fuel : nat) :
  forall n acc, acc <> [] -> Number.digits_fuel fuel n acc <> [].
Proof.
  induction fuel as [|fuel IH]; intros n acc Hacc;
    cbn [Number.digits_fuel]; [exact Hacc|].
  destruct (n / 10 =? 0)%N; [discriminate|]. apply IH. discriminate.
Qed.

Lemma digits_spec (n : N) :
  exists c l, Number.digits n = c :: l /\ Forall is_digit (c :: l) /\
              value_of (c :: l) 0 = n.
Proof.
  assert (Hd : Forall is_digit (Number.digits n))
    by (apply digits_fuel_digits; constructor).
  assert (Hv : value_of (Number.digits n) 0 = n).
  { unfold Number.digits. rewrite digits_fuel_value; [reflexivity|].
    rewrite Nnat.Nat2N.inj_succ, Nnat.N2Nat.id.
    destruct n as [|p]; [reflexivity|].
    pose proof (N.log2_spec (N.pos p) ltac:(lia)) as [_ H].
    eapply N.lt_le_trans; [exact H|].
    apply N.pow_le_mono_l. lia. }
  destruct (Number.digits n) as [|c l] eqn:E.
  - exfalso. revert E. unfold Number.digits. cbn [Number.digits_fuel].
    destruct (n / 10 =? 0)%N; [discriminate|].
    apply digits_fuel_nonempty. discriminate.
  - exists c, l. auto.
Qed.

Lemma is_digit_facts (c : N) :
  is_digit c ->
  JsString.is_white c = false /\ (c =? 45)%N = false /\
  (c =? 43)%N = false /\ (c =? 120)%N = false /\ (c =? 88)%N = false.
Proof.
  intros [H1 H2]. unfold JsString.is_white.
  repeat match goal with
  | |- context [(?a <=? ?b)%N] =>
      let H := fresh in
      destruct (N.leb_spec a b) as [H|H]; try lia; clear H
  | |- context [(?a =? ?b)%N] =>
      let H := fresh in
      destruct (N.eqb_spec a b) as [H|H]; try lia; clear H
  end; cbn; auto.
Qed.

Lemma parseInt_digits (n : N) :
  Number.parseInt (Number.digits n) = Int (Z.of_N n) /\
  Number.parseInt (45%N :: Number.digits n) = Int (- Z.of_N n) /\
  Forall is_digit (Number.digits n).
Proof.
  destruct (digits_spec n) as (c & l & E & Hd & Hv). rewrite E.
  pose proof (parse_digits_start c l Hd) as Hp. rewrite Hv in Hp.
  assert (Hc : is_digit c) by (inversion Hd; assumption).
  assert (Hl : Forall is_digit l) by (inversion Hd; assumption).
  destruct (is_digit_facts c Hc) as (Hw & Hm & Hpl & _).
  assert (Hr : Number.read_radix (c :: l) = (10%N, c :: l)).
  { unfold Number.read_radix. destruct l as [|x l']; [reflexivity|].
    assert (Hx : is_digit x) by (inversion Hl; assumption).
    destruct (is_digit_facts x Hx) as (_ & _ & _ & H120 & H88).
    rewrite H120, H88, andb_false_r. reflexivity. }
  repeat split; [| |exact Hd].
  - unfold Number.parseInt. cbn [JsString.trimStart]. rewrite Hw.
    unfold Number.read_sign. rewrite Hm, Hpl, Hr, Hp. reflexivity.
  - unfold Number.parseInt. cbn [JsString.trimStart].
    replace (JsString.is_white 45) with false by reflexivity.
    unfold Number.read_sign.
    replace (45 =? 45)%N with true by reflexivity.
    rewrite Hr, Hp. reflexivity.
Qed.

(** [parseInt] reads back the decimal form of every integer. *)
Lemma parseInt_int_to_string (z : Z) :
  Number.parseInt (Number.int_to_string z) = Int z.
Proof.
  destruct z as [|p|p]; [reflexivity| |].
  - apply (parseInt_digits (N.pos p)).
  - apply (parseInt_digits (N.pos p)).
Qed.

(** *** Saving a note *)

(** C3: a save with an empty trimmed note, or with no layer selected,
    shows one message and does nothing else: the state is unchanged, no
    request is issued and nothing is left waiting. *)
Theorem saveAnnotation_fails_fast (s : State) :
  JsString.trim (annotationTextarea (panel s)) = [] \/
  currentLayerId (vars s) = VNull ->
  exists msg,
    call no_dialog saveAnnotation s =
      {| step_state := s; step_effects := [Alert msg]; step_tasks := [] |}.
Proof.
  intros H. unfold call, saveAnnotation. cbn.
  destruct (JsString.trim (annotationTextarea (panel s))) as [|c content] eqn:Hc.
  - cbn. eexists. reflexivity.
  - destruct H as [H | H]; [discriminate|].
    rewrite H. cbn. eexists. reflexivity.
Qed.


(** The continuation of a save.  The save suspends on the POST; when a
    successful response arrives, in whatever state [s'] with a layer
    selected, the textarea and the pending quote are cleared, the list is
    replaced by the loading placeholder and the annotations of the layer are
    requested again; when that request is answered the list is what
    [renderAnnotations] builds from the answer. *)
Lemma saveAnnotation_resumed (s : State) :
  JsString.trim (annotationTextarea (panel s)) <> [] ->
  Value.truthy (currentLayerId (vars s)) = true ->
  exists body k,
    run no_dialog saveAnnotation s =
      {| final := s;
         effects := [Request (Fetch $"/api/annotation/new" POST (Some body))];
         spawned := [];
         outcome := Waiting (Fetch $"/api/annotation/new" POST (Some body)) k |} /\
    forall s' b,
      Value.truthy (currentLayerId (vars s')) = true ->
      let layer := currentLayerId (vars s') in
      let refetch :=
        Fetch ($"/api/layer/" ++ Value.to_string layer ++ $"/annotations")
              GET None in
      exists k',
        call no_dialog (k (Response true b)) s' =
          {| step_state :=
               set_currentHighlightedText []
                 (set_annotationTextarea []
                    (set_annotationList [Paragraph $"Loading..."]
                       (set_currentLayerId layer s')));
             step_effects := [Request refetch];
             step_tasks := [{| task_req := refetch; task_cont := k' |}] |} /\
        forall ok annotations s'',
          annotationList (panel (step_state
            (call no_dialog (k' (Response ok (Some annotations))) s''))) =
          annotationList (panel (final
            (run no_dialog (renderAnnotations annotations) s''))).
Proof.
  intros Hcontent Hlayer. unfold saveAnnotation. cbn.
  destruct (JsString.trim (annotationTextarea (panel s))) as [|c content];
    [congruence|].
  cbn. rewrite Hlayer. cbn.
  eexists. eexists. split; [reflexivity|].
  intros s' b Hs'. unfold call, fetchAnnotations. cbn.
  rewrite Hs'. cbn.
  eexists. split; [reflexivity|].
  intros ok annotations s''. cbn.
  apply f_equal, f_equal, final_try_catch. reflexivity.
Qed.


(** *** Selection capture *)

(** The listener [setupTextSelection] adds, on its own: it stores the
    trimmed selection as the pending quote when it is not empty, and
    leaves the pending quote (and everything else) as it was when it is
    empty. *)
Lemma viewerArea_mouseup_pending_quote (selection : jsstring) (s : State) :
  let r := call no_dialog (viewerArea_mouseup selection) s in
  currentHighlightedText (vars (step_state r)) =
    match JsString.trim selection with
    | [] => currentHighlightedText (vars s)
    | selectedText => selectedText
    end /\
  step_state r =
    match JsString.trim selection with
    | [] => s
    | selectedText => set_currentHighlightedText selectedText s
    end /\
  step_effects r = [] /\ step_tasks r = [].
Proof.
  unfold call, viewerArea_mouseup.
  destruct (JsString.trim selection) as [|c t]; cbn; auto.
Qed.


(** *** The dialog that creates a layer *)

(** C2, as the script has it: opening the dialog shows it and suspends on
    the groups request, and when that request fails an error is shown and
    the dialog is closed; confirming with a name suspends on the creation
    request, and when that request fails an error is shown and the page
    is left exactly as it is, the dialog included.  Neither failure
    issues a request. *)
Theorem layer_dialog_failures (s : State) :
  (exists k,
     run no_dialog openCreateLayerModal s =
       {| final :=
            set_createLayerModal_display $"flex"
              (set_newLayerGroupSelect
                 {| options := [{| option_value := [];
                                   option_text := $"Loading groups...";
                                   option_disabled := false |}];
                    selectedIndex := Some O |}
                 (set_newLayerNameInput [] s));
          effects := [Request (Fetch $"/api/user/groups" GET None)];
          spawned := [];
          outcome := Waiting (Fetch $"/api/user/groups" GET None) k |} /\
     forall reply s',
       request_failed reply = true ->
       exists e,
         call no_dialog (k reply) s' =
           {| step_state := set_createLayerModal_display $"none" s';
              step_effects := [ConsoleError e; Alert $"Error loading groups."];
              step_tasks := [] |}) /\
  (JsString.trim (newLayerNameInput (modal s)) <> [] ->
   exists body k,
     run no_dialog confirmLayerBtn_onclick s =
       {| final := s;
          effects := [Request (Fetch $"/api/layer/new" POST (Some body))];
          spawned := [];
          outcome := Waiting (Fetch $"/api/layer/new" POST (Some body)) k |} /\
     forall reply s',
       request_failed reply = true ->
       exists e,
         call no_dialog (k reply) s' =
           {| step_state := s';
              step_effects := [ConsoleError e; Alert $"Error creating layer."];
              step_tasks := [] |}).
Proof.
  split.
  - eexists. split; [reflexivity|].
    intros reply s' Hfail.
    destruct reply as [|[|] b| |]; try discriminate; eexists; reflexivity.
  - intros Hname. unfold confirmLayerBtn_onclick. cbn.
    destruct (JsString.trim (newLayerNameInput (modal s))) as [|c name];
      [congruence|].
    cbn. eexists. eexists. split; [reflexivity|].
    intros reply s' Hfail.
    destruct reply as [|[|] b| |]; try discriminate; eexists; reflexivity.
Qed.


(** *** The dialog: scope of the new layer *)

(** C5, as the script has it: confirming with a name submits one request
    whose payload carries the trimmed name and a [study_group_id] that is
    [null] for the sentinel value "0"; for any other value it is the
    integer [parseInt] reads, when there is one and its magnitude is at
    most 2^53 (up to there a JavaScript number is the integer itself), and
    [null] again when [parseInt] finds no integer (NaN is transmitted as
    [null]).  In particular the value of a group option made from a
    non-zero integer id of magnitude at most 2^53 gives that id back. *)
Theorem confirm_scope_mapping (s : State) :
  JsString.trim (newLayerNameInput (modal s)) <> [] ->
  let groupIdVal := Dom.select_value (newLayerGroupSelect (modal s)) in
  exists fields k,
    run no_dialog confirmLayerBtn_onclick s =
      {| final := s;
         effects :=
           [Request (Fetch $"/api/layer/new" POST (Some (VObj fields)))];
         spawned := [];
         outcome :=
           Waiting (Fetch $"/api/layer/new" POST (Some (VObj fields))) k |} /\
    Value.lookup $"name" fields =
      VStr (JsString.trim (newLayerNameInput (modal s))) /\
    (groupIdVal = $"0" -> Value.lookup $"study_group_id" fields = VNull) /\
    (forall z,
       groupIdVal <> $"0" ->
       Number.parseInt groupIdVal = Int z -> Z.abs z <= 2 ^ 53 ->
       Value.lookup $"study_group_id" fields = VNum (Int z)) /\
    (groupIdVal <> $"0" ->
     Number.parseInt groupIdVal = NaN ->
     Value.lookup $"study_group_id" fields = VNull) /\
    (forall id,
       id <> 0 -> Z.abs id <= 2 ^ 53 ->
       groupIdVal = Number.int_to_string id ->
       Value.lookup $"study_group_id" fields = VNum (Int id)).
Proof.
  intros Hname groupIdVal. unfold confirmLayerBtn_onclick. cbn.
  destruct (JsString.trim (newLayerNameInput (modal s))) as [|c name];
    [congruence|].
  cbn. fold groupIdVal.
  assert (Hid : forall id, id <> 0 -> groupIdVal = Number.int_to_string id ->
    JsString.eqb groupIdVal [48%N] = false /\
    Number.parseInt groupIdVal = Int id).
  { intros id Hid E. rewrite E, parseInt_int_to_string. split; [|reflexivity].
    destruct (JsString.eqb (Number.int_to_string id) [48%N]) eqn:E0;
      [|reflexivity].
    apply eqb_eq in E0.
    pose proof (parseInt_int_to_string id) as Hp. rewrite E0 in Hp.
    cbn in Hp. congruence. }
  assert (Hsent : groupIdVal = [48%N] <-> JsString.eqb groupIdVal [48%N] = true).
  { split; [intros ->; reflexivity|apply eqb_eq]. }
  destruct (JsString.eqb groupIdVal [48%N]) eqn:Esent;
    [|destruct (Number.parseInt groupIdVal) as [|z] eqn:Eparse];
    cbn; destruct (Value.json EBOOK_ID) as [e|];
    (eexists; eexists; split; [reflexivity|]; cbn;
     split; [reflexivity|];
     split; [intros E; try reflexivity; apply Hsent in E; discriminate|];
     split; [intros z' Hne E _; try congruence;
             exfalso; apply Hne, Hsent; reflexivity|];
     split; [intros Hne E; try reflexivity; try discriminate;
             exfalso; apply Hne, Hsent; reflexivity|];
     intros id Hne _ E; destruct (Hid id Hne E); congruence).
Qed.


(** *** Ask AI *)

(** C8, as the script has it: with an empty draft the trigger only shows
    a message and the button is untouched; otherwise it shows the busy
    label, disables the button and suspends on the request, and whatever
    the reply the call ends with the button enabled and showing the fixed
    label [ask_ai_label] (the label read into [originalText] is not used),
    with nothing left waiting. *)
Theorem askAiToExplain_clears_busy (s : State) :
  (JsString.trim (annotationTextarea (panel s)) = [] ->
   exists msg,
     call no_dialog askAiToExplain s =
       {| step_state := s; step_effects := [Alert msg]; step_tasks := [] |}) /\
  (JsString.trim (annotationTextarea (panel s)) <> [] ->
   exists body k,
     run no_dialog askAiToExplain s =
       {| final := set_button_disabled true
                     (set_button_textContent $"Thinking..." s);
          effects := [Request (Fetch $"/api/ai/explain" POST (Some body))];
          spawned := [];
          outcome := Waiting (Fetch $"/api/ai/explain" POST (Some body)) k |} /\
     forall reply s',
       let r := call no_dialog (k reply) s' in
       button_disabled (askAiBtn (step_state r)) = false /\
       button_textContent (askAiBtn (step_state r)) = ask_ai_label /\
       step_tasks r = []).
Proof.
  unfold call, askAiToExplain. cbn.
  destruct (JsString.trim (annotationTextarea (panel s))) as [|c draft];
    (split; [intros H|intros H]; try congruence).
  - cbn. eexists. reflexivity.
  - cbn. eexists. eexists. split; [reflexivity|].
    intros reply s'.
    destruct reply as [|ok [data|]| |]; cbn; auto.
    destruct data; cbn; auto.
Qed.


(** *** Programs that keep an invariant *)

Section Safety.

Variable I : State -> Prop.
Variable P : (State -> State) -> Prop.

Lemma Safe_bind (A B : Type) (p : Prog A) (f : A -> Prog B) :
  Safe I P A p -> (forall a, Safe I P B (f a)) -> Safe I P B (bind p f).
Proof.
  intros Hp Hf. induction Hp; cbn; try (constructor; auto; fail); auto.
Qed.

Lemma Safe_try_catch (A : Type) (p : Prog A) (h : Exn -> Prog A) :
  Safe I P A p -> (forall e, Safe I P A (h e)) ->
  Safe I P A (try_catch p h).
Proof.
  intros Hp Hh. induction Hp; cbn; try (constructor; auto; fail); auto.
Qed.

Lemma Safe_try_finally (A : Type) (p : Prog A) (f : Prog unit) :
  Safe I P A p -> Safe I P unit f -> Safe I P A (try_finally p f).
Proof.
  intros Hp Hf. induction Hp; cbn; try (constructor; auto; fail).
  - apply Safe_bind; [exact Hf|]. intros _. constructor.
  - apply Safe_bind; [exact Hf|]. intros _. constructor.
Qed.

Lemma Safe_for_each (A : Type) (items : list A) (f : A -> Prog unit) :
  (forall x, Safe I P unit (f x)) -> Safe I P unit (for_each items f).
Proof.
  intros Hf. induction items as [|x items IH]; cbn; [constructor|].
  apply Safe_bind; auto.
Qed.

Lemma Safe_modify (f : State -> State) :
  P f -> Safe I P unit (modify f).
Proof. intros Hf. constructor; [exact Hf|constructor]. Qed.

Lemma Safe_emit (e : Effect) : Safe I P unit (emit e).
Proof. repeat constructor. Qed.

Lemma Safe_or_type_error (A : Type) (x : option A) :
  Safe I P A (or_type_error x).
Proof. destruct x; constructor. Qed.

Lemma Safe_json (body : option Val) : Safe I P Val (json body).
Proof. destruct body; constructor. Qed.

Lemma Safe_await (r : Req) : Safe I P Reply (await r).
Proof. constructor. intros [| | |] _; constructor. Qed.

Lemma Safe_fetch (url : jsstring) (method : Method) (body : option Val) :
  Safe I P (bool * option Val) (fetch url method body).
Proof.
  apply Safe_bind; [apply Safe_await|]. intros [| | |]; constructor.
Qed.

Lemma Safe_get_state (A : Type) (k : State -> Prog A) :
  (forall s, I s -> Safe I P A (k s)) -> Safe I P A (bind get_state k).
Proof. intros Hk. cbn. constructor. exact Hk. Qed.

Lemma settle_call_safe (o : Outcome unit) :
  match o with
  | Waiting r k =>
      forall reply, reply_ok r reply = true -> Safe I P unit (k reply)
  | _ => True
  end ->
  Forall (SafeTask I P) (snd (settle_call o)).
Proof.
  destruct o as [u|e|r k]; cbn; intros H; constructor; [|constructor].
  intros reply Hreply. cbn in *. auto.
Qed.

Variable R : State -> State -> Prop.
Hypothesis R_refl : forall s, R s s.
Hypothesis R_trans : forall a b c, R a b -> R b c -> R a c.
Hypothesis P_step : forall f, P f -> forall s, I s -> I (f s) /\ R s (f s).

(** One turn of a safe program keeps the invariant, relates the state it
    leaves to the state it found, and what it leaves waiting is safe
    again. *)
Lemma run_safe (A : Type) (p : Prog A) :
  Safe I P A p ->
  forall user s, I s ->
    I (final (run user p s)) /\
    R s (final (run user p s)) /\
    Forall (SafeTask I P) (spawned (run user p s)) /\
    match outcome (run user p s) with
    | Waiting r k =>
        forall reply, reply_ok r reply = true -> Safe I P A (k reply)
    | _ => True
    end.
Proof.
  induction 1 as [A a|A e|A k Hk IH|A f k Hf Hk IH|A e k Hk IH
                 |A msg k Hk IH|A r k Hk IH|A q k Hq IHq Hk IHk];
    intros user s Hs; cbn [run final spawned outcome effects].
  - auto.
  - auto.
  - apply IH; exact Hs.
  - destruct (P_step f Hf s Hs) as [Hfs Hrel].
    destruct (IH user (f s) Hfs) as (H1 & H2 & H3 & H4).
    split; [exact H1|]. split; [exact (R_trans _ _ _ Hrel H2)|]. auto.
  - apply IH; exact Hs.
  - apply IH; exact Hs.
  - auto.
  - destruct (IHq user s Hs) as (Q1 & Q2 & Q3 & Q4).
    destruct (IHk user (final (run user q s)) Q1) as (K1 & K2 & K3 & K4).
    split; [exact K1|]. split; [exact (R_trans _ _ _ Q2 K2)|].
    split; [|exact K4].
    apply Forall_app. split; [exact Q3|].
    apply Forall_app. split; [|exact K3].
    apply settle_call_safe. exact Q4.
Qed.

Lemma call_safe (p : Prog unit) :
  Safe I P unit p ->
  forall user s, I s ->
    I (step_state (call user p s)) /\
    R s (step_state (call user p s)) /\
    Forall (SafeTask I P) (step_tasks (call user p s)).
Proof.
  intros Hp user s Hs. unfold call. cbn.
  destruct (run_safe unit p Hp user s Hs) as (H1 & H2 & H3 & H4).
  split; [exact H1|]. split; [exact H2|].
  apply Forall_app. split; [exact H3|].
  apply settle_call_safe. exact H4.
Qed.

End Safety.

(** The turn lemmas for assignments that keep the current page. *)
Lemma run_keeps_page (I : State -> Prop) (P : (State -> State) -> Prop)
  (A : Type) (p : Prog A) :
  (forall f, P f -> preserves I f) ->
  Safe I P A p ->
  forall user s, I s ->
    I (final (run user p s)) /\
    currentPageNum (vars (final (run user p s))) = currentPageNum (vars s) /\
    Forall (SafeTask I P) (spawned (run user p s)) /\
    match outcome (run user p s) with
    | Waiting r k =>
        forall reply, reply_ok r reply = true -> Safe I P A (k reply)
    | _ => True
    end.
Proof.
  intros HP.
  apply (run_safe I P
           (fun s s' => currentPageNum (vars s') = currentPageNum (vars s))).
  - reflexivity.
  - intros a b c Hab Hbc. congruence.
  - exact HP.
Qed.

Lemma call_keeps_page (I : State -> Prop) (P : (State -> State) -> Prop)
  (p : Prog unit) :
  (forall f, P f -> preserves I f) ->
  Safe I P unit p ->
  forall user s, I s ->
    I (step_state (call user p s)) /\
    currentPageNum (vars (step_state (call user p s))) =
      currentPageNum (vars s) /\
    Forall (SafeTask I P) (step_tasks (call user p s)).
Proof.
  intros HP.
  apply (call_safe I P
           (fun s s' => currentPageNum (vars s') = currentPageNum (vars s))).
  - reflexivity.
  - intros a b c Hab Hbc. congruence.
  - exact HP.
Qed.

Lemma Safe_weaken (I I' : State -> Prop) (P P' : (State -> State) -> Prop)
  (A : Type) (p : Prog A) :
  (forall s, I' s -> I s) -> (forall f, P f -> P' f) ->
  Safe I P A p -> Safe I' P' A p.
Proof.
  intros HI HP Hp. induction Hp; constructor; auto.
Qed.

(** *** The tracker invariant *)

Lemma Tracked_view (d : option Z) (s s' : State) :
  tracker_view s' = tracker_view s -> Tracked d s -> Tracked d s'.
Proof.
  unfold tracker_view. intros E. injection E as E1 E2 E3 E4.
  destruct d as [n|]; cbn; rewrite E2, E3, E4; [|rewrite E1]; auto.
Qed.

Lemma quiet_preserves (d : option Z) (f : State -> State) :
  quiet f -> preserves (Tracked d) f.
Proof.
  intros Hf s Hs. split.
  - apply (Tracked_view d s); [apply Hf|exact Hs].
  - pose proof (Hf s) as E. unfold tracker_view in E. congruence.
Qed.

Lemma quiet_preserves_True (f : State -> State) :
  quiet f -> preserves (fun _ => True) f.
Proof.
  intros Hf s _. split; [exact Logic.I|].
  pose proof (Hf s) as E. unfold tracker_view in E. congruence.
Qed.

Lemma Quiet_Keeps (d : option Z) (A : Type) (p : Prog A) :
  Quiet A p -> Keeps d A p.
Proof.
  apply Safe_weaken; [auto|]. intros f. apply quiet_preserves.
Qed.

Lemma QuietTask_Keeps (d : option Z) (t : Task) :
  SafeTask (fun _ => True) quiet t ->
  SafeTask (Tracked d) (preserves (Tracked d)) t.
Proof.
  intros Ht reply Hreply. apply Quiet_Keeps, Ht, Hreply.
Qed.

Ltac safe_step :=
  first
    [ apply Safe_bind
    | apply Safe_try_catch
    | apply Safe_try_finally
    | apply Safe_for_each
    | apply Safe_modify; intro; reflexivity
    | apply Safe_emit
    | apply Safe_or_type_error
    | apply Safe_json
    | apply Safe_fetch
    | apply Safe_await
    | apply Safe_get_state
    | match goal with
      | |- Safe _ _ _ (if ?b then _ else _) => destruct b
      | |- Safe _ _ _ (match ?x with _ => _ end) => destruct x
      | |- forall _, _ => intro
      end
    | constructor ].

Ltac safe := unfold Quiet, Keeps; repeat safe_step.

Lemma Quiet_viewerArea_mouseup selection :
  Quiet unit (viewerArea_mouseup selection).
Proof. unfold viewerArea_mouseup. safe. Qed.

Lemma Quiet_setupTextSelection : Quiet unit setupTextSelection.
Proof. unfold setupTextSelection. safe. Qed.

Lemma Quiet_fetchLayers : Quiet unit fetchLayers.
Proof. unfold fetchLayers, layer_option. safe. Qed.

Lemma Quiet_renderAnnotations annotations :
  Quiet unit (renderAnnotations annotations).
Proof. unfold renderAnnotations, annotation_card. safe. Qed.

Lemma Quiet_fetchAnnotations layerId :
  Quiet unit (fetchAnnotations layerId).
Proof.
  unfold fetchAnnotations. safe.
Qed.

Lemma Quiet_saveAnnotation : Quiet unit saveAnnotation.
Proof.
  unfold saveAnnotation, alert, console_error, spawn. safe.
  apply Quiet_fetchAnnotations.
Qed.

Lemma Quiet_deleteAnnotation annotationId :
  Quiet unit (deleteAnnotation annotationId).
Proof. unfold deleteAnnotation, confirm. safe. Qed.

Lemma Quiet_openCreateLayerModal : Quiet unit openCreateLayerModal.
Proof.
  unfold openCreateLayerModal, group_option, alert, console_error. safe.
Qed.

Lemma Quiet_confirmLayerBtn_onclick :
  Quiet unit confirmLayerBtn_onclick.
Proof.
  unfold confirmLayerBtn_onclick, alert, console_error, spawn. safe;
    first [apply Quiet_fetchLayers | apply Quiet_fetchAnnotations].
Qed.

Lemma Quiet_askAiToExplain : Quiet unit askAiToExplain.
Proof. unfold askAiToExplain, alert, console_error. safe. Qed.

Lemma Quiet_scroll_to_page delta : Quiet unit (scroll_to_page delta).
Proof. unfold scroll_to_page. safe. Qed.


Lemma split_at_no_separator (sep : N) (l : jsstring) :
  Forall (fun c => c <> sep) l ->
  forall cur, JsString.split_at sep l cur = [rev cur ++ l].
Proof.
  induction 1 as [|c l Hc Hl IH]; intros cur; cbn.
  - rewrite app_nil_r. reflexivity.
  - destruct (N.eqb_spec c sep) as [E|_]; [contradiction|].
    rewrite IH. cbn. rewrite <- app_assoc. reflexivity.
Qed.

(** The observer reads back the page number [renderAllPages] put in the
    wrapper's id. *)
Lemma page_of_wrapper_id (k : Z) :
  0 <= k -> page_of_id (page_wrapper_id k) = Int k.
Proof.
  intros Hk. destruct k as [|p|p]; [reflexivity| |lia].
  unfold page_of_id, page_wrapper_id, Number.int_to_string.
  destruct (parseInt_digits (N.pos p)) as (Hparse & _ & Hdigits).
  revert Hparse Hdigits. generalize (Number.digits (N.pos p)).
  intros ds Hparse Hdigits.
  assert (Hsplit : JsString.split 45 ($"page-wrapper-" ++ ds) =
                   [$"page"; $"wrapper"; ds]).
  { cbn. rewrite split_at_no_separator; [reflexivity|].
    eapply Forall_impl; [|exact Hdigits].
    intros c [H1 H2]. lia. }
  rewrite Hsplit. cbn [nth_error]. exact Hparse.
Qed.


Lemma is_observed_valid (n : Z) (s : State) (id : jsstring) :
  Forall (valid_page_id n) (observed (viewer s)) ->
  is_observed s id = true -> valid_page_id n id.
Proof.
  intros Hall Hobs. unfold is_observed in Hobs.
  apply existsb_exists in Hobs. destruct Hobs as (x & Hin & E).
  apply eqb_eq in E. subst x.
  rewrite Forall_forall in Hall. auto.
Qed.

(** The observer callback on reports about observed elements. *)
Lemma pageObserver_run (d : option Z) (entries : list Entry) :
  forall s,
    Tracked d s ->
    forallb (fun e => is_observed s (target e)) entries = true ->
    let t := run no_dialog (pageObserver entries) s in
    Tracked d (final t) /\
    effects t = [] /\ spawned t = [] /\ outcome t = Returned tt /\
    (currentPageNum (vars (final t)) = currentPageNum (vars s) \/
     exists e, In e entries /\ isIntersecting e = true /\
               currentPageNum (vars (final t)) = page_of_id (target e)).
Proof.
  induction entries as [|e entries IH]; intros s Hs Hobs.
  - cbn. repeat split; auto.
  - cbn [forallb] in Hobs. apply andb_true_iff in Hobs.
    destruct Hobs as [He Hrest].
    unfold pageObserver in *. cbn [for_each]. cbv zeta in IH |- *.
    destruct (isIntersecting e) eqn:Ei.
    + destruct d as [n|].
      * destruct Hs as (Htotal & (z & Hz & Hzn) & Hall).
        destruct (is_observed_valid n s (target e) Hall He) as (k & Hk & Eid).
        assert (Ht : Value.truthy (VNum (Int k)) = true).
        { cbn. destruct (Z.eqb_spec k 0); [lia|reflexivity]. }
        assert (Hrun :
          run no_dialog
            (pageObserver_entry e ;; for_each entries pageObserver_entry) s =
          run no_dialog (for_each entries pageObserver_entry)
            (set_pageNumDisplay (Number.int_to_string k)
               (set_currentPageNum (Int k) s))).
        { unfold pageObserver_entry.
          rewrite Ei, Eid, page_of_wrapper_id, Ht by lia. reflexivity. }
        rewrite Hrun.
        destruct (IH (set_pageNumDisplay (Number.int_to_string k)
                        (set_currentPageNum (Int k) s)))
          as (H1 & H2 & H3 & H4 & H5).
        { cbn. repeat split; auto. exists k. split; [reflexivity|lia]. }
        { exact Hrest. }
        do 4 (split; [assumption|]).
        right. destruct H5 as [H5 | (e' & Hin & Hi & H5)].
        -- exists e. split; [left; reflexivity|]. split; [exact Ei|].
           rewrite H5, Eid, page_of_wrapper_id by lia. reflexivity.
        -- exists e'. split; [right; exact Hin|]. auto.
      * destruct Hs as (_ & _ & _ & Hnone).
        unfold is_observed in He. rewrite Hnone in He. discriminate.
    + assert (Hrun :
        run no_dialog
          (pageObserver_entry e ;; for_each entries pageObserver_entry) s =
        run no_dialog (for_each entries pageObserver_entry) s).
      { unfold pageObserver_entry. rewrite Ei. reflexivity. }
      rewrite Hrun.
      destruct (IH s Hs Hrest) as (H1 & H2 & H3 & H4 & H5).
      do 4 (split; [assumption|]).
      destruct H5 as [H5 | (e' & Hin & Hi & H5)]; [left; exact H5|].
      right. exists e'. split; [right; exact Hin|]. auto.
Qed.

(** Reports none of which is intersecting change nothing. *)
Lemma pageObserver_not_intersecting (entries : list Entry) (s : State) :
  forallb (fun e => negb (isIntersecting e)) entries = true ->
  call no_dialog (pageObserver entries) s =
    {| step_state := s; step_effects := []; step_tasks := [] |}.
Proof.
  induction entries as [|e entries IH]; intros Hno; [reflexivity|].
  cbn [forallb] in Hno. apply andb_true_iff in Hno. destruct Hno as [He Hrest].
  unfold call, pageObserver in *. cbn [for_each].
  destruct (isIntersecting e) eqn:Ei; [discriminate|].
  assert (Hrun :
    run no_dialog
      (pageObserver_entry e ;; for_each entries pageObserver_entry) s =
    run no_dialog (for_each entries pageObserver_entry) s).
  { unfold pageObserver_entry. rewrite Ei. reflexivity. }
  rewrite Hrun. apply IH. exact Hrest.
Qed.


(** *** Rendering keeps the tracker in order *)

Lemma preserves_observe (n k : Z) :
  1 <= k <= n ->
  preserves (Tracked (Some n))
    (fun s => set_observed (observed (viewer s) ++ [page_wrapper_id k]) s).
Proof.
  intros Hk s (Htotal & Hcur & Hall). cbn. repeat split; auto.
  apply Forall_app. split; [exact Hall|].
  constructor; [|constructor]. exists k. auto.
Qed.

Lemma preserves_disconnect (n : Z) :
  preserves (Tracked (Some n)) (set_observed []).
Proof.
  intros s (Htotal & Hcur & Hall). cbn. repeat split; auto.
Qed.

Lemma Keeps_render_page (n k : Z) :
  1 <= k <= n -> Keeps (Some n) unit (render_page k).
Proof.
  intros Hk. unfold Keeps, render_page.
  apply Safe_try_catch; [|intros e; apply Safe_emit].
  apply Safe_bind; [apply Safe_await|]. intros _.
  apply Safe_bind;
    [apply Safe_modify, quiet_preserves; intro; reflexivity|]. intros _.
  apply Safe_bind;
    [apply Safe_modify; cbn; apply preserves_observe; exact Hk|]. intros _.
  apply Safe_bind; [apply Safe_await|]. intros _.
  apply Safe_bind; [apply Safe_await|]. intros _.
  apply Safe_bind;
    [apply Safe_modify, quiet_preserves; intro; reflexivity|]. intros _.
  apply Safe_bind; [apply Safe_await|]. intros _.
  constructor.
Qed.

Lemma Keeps_render_pages (n : Z) (count : nat) :
  forall k, 1 <= k -> Keeps (Some n) unit (render_pages count k).
Proof.
  induction count as [|count IH]; intros k Hk; cbn [render_pages].
  - constructor.
  - apply Safe_get_state. intros s (Htotal & _).
    destruct (Z.leb_spec k (totalPages (vars s))) as [Hle|_];
      [|constructor].
    apply Safe_bind; [apply Keeps_render_page; lia|].
    intros _. apply IH. lia.
Qed.

Lemma Keeps_renderAllPages (n : Z) : Keeps (Some n) unit renderAllPages.
Proof.
  unfold Keeps, renderAllPages.
  apply Safe_bind;
    [apply Safe_modify, quiet_preserves; intro; reflexivity|]. intros _.
  apply Safe_bind; [apply Safe_modify, preserves_disconnect|]. intros _.
  apply Safe_get_state. intros s _. apply Keeps_render_pages. lia.
Qed.


(** *** The event loop keeps the tracker in order *)

Lemma boot_inv (host : State) : WorldInv (boot host).
Proof.
  right. split; [cbn; auto|].
  unfold boot, call, init. cbn.
  eexists [_], _, []. split; [reflexivity|]. split.
  - intros reply s Hok Hs.
    destruct reply as [|ok body|n|]; cbn in Hok; try discriminate.
    + cbn. split; [reflexivity|]. exists None. split; [exact Hs|constructor].
    + match goal with
      | |- context [call no_dialog ?p s] =>
          change (call no_dialog p s) with
            (call no_dialog
               (try_catch (renderAllPages ;; setupTextSelection)
                  (fun error =>
                     console_error error ;;
                     alert $"Could not load PDF file."))
               (set_pageCountDisplay (Number.int_to_string n)
                  (set_totalPages n (set_pdfDoc (Some n) s))))
      end.
      destruct Hs as (Hdoc & Htotal & Hcur & Hobs).
      match goal with
      | |- context [call no_dialog ?p ?s3] =>
          destruct (call_keeps_page (Tracked (Some n))
                      (preserves (Tracked (Some n))) p (fun f H => H))
            with (user := no_dialog) (s := s3)
            as (H1 & H2 & H3)
      end.
      * apply Safe_try_catch.
        -- apply Safe_bind; [apply Keeps_renderAllPages|]. intros _.
           apply Quiet_Keeps, Quiet_setupTextSelection.
        -- intros e. safe.
      * cbn. rewrite Hcur, Hobs. repeat split; auto.
        exists 1. split; [reflexivity|lia].
      * split; [exact H2|]. exists (Some n). split; assumption.
  - constructor; [|constructor].
    intros reply Hok. cbn [task_cont]. unfold layer_option. safe.
Qed.


Lemma Forall_remove_nth (A : Type) (Q : A -> Prop) (l : list A) :
  Forall Q l -> forall i, Forall Q (remove_nth i l).
Proof.
  induction 1 as [|x l Hx Hl IH]; intros [|i]; cbn; auto.
Qed.

Lemma Forall_nth_error (A : Type) (Q : A -> Prop) (l : list A) i x :
  Forall Q l -> nth_error l i = Some x -> Q x.
Proof.
  intros Hl Hi. rewrite Forall_forall in Hl.
  apply Hl. eapply nth_error_In. exact Hi.
Qed.

(** Where the [i]-th element of a list with a distinguished element lies. *)
Lemma nth_error_around (A : Type) (l1 : list A) (t0 : A) (l2 : list A) :
  forall i t,
    nth_error (l1 ++ t0 :: l2) i = Some t ->
    (nth_error l1 i = Some t /\
     remove_nth i (l1 ++ t0 :: l2) = remove_nth i l1 ++ t0 :: l2) \/
    (t = t0 /\ remove_nth i (l1 ++ t0 :: l2) = l1 ++ l2) \/
    (exists j, nth_error l2 j = Some t /\
               remove_nth i (l1 ++ t0 :: l2) = l1 ++ t0 :: remove_nth j l2).
Proof.
  induction l1 as [|x l1 IH]; intros i t Hi.
  - destruct i as [|i]; cbn in *.
    + right. left. split; [congruence|reflexivity].
    + right. right. exists i. auto.
  - destruct i as [|i]; cbn in *.
    + left. auto.
    + destruct (IH i t Hi) as [[H1 H2]|[[H1 H2]|(j & H1 & H2)]].
      * left. rewrite H2. auto.
      * right. left. rewrite H2. auto.
      * right. right. exists j. rewrite H2. auto.
Qed.

Lemma step_unfold (ev : Event) (w : World) :
  step ev w =
    {| state :=
         step_state (call (fst (handler ev w)) (snd (handler ev w)) (state w));
       log :=
         log w ++
         step_effects
           (call (fst (handler ev w)) (snd (handler ev w)) (state w));
       pending :=
         match ev with
         | Settle i _ => remove_nth i (pending w)
         | _ => pending w
         end ++
         step_tasks
           (call (fst (handler ev w)) (snd (handler ev w)) (state w)) |}.
Proof. unfold step. destruct (handler ev w). reflexivity. Qed.

Lemma quiet_call (p : Prog unit) :
  Quiet unit p ->
  forall user s d,
    Tracked d s ->
    Tracked d (step_state (call user p s)) /\
    currentPageNum (vars (step_state (call user p s))) =
      currentPageNum (vars s) /\
    Forall (SafeTask (fun _ => True) quiet) (step_tasks (call user p s)).
Proof.
  intros Hp user s d Hs.
  destruct (call_keeps_page (fun _ => True) quiet p quiet_preserves_True Hp
              user s Logic.I) as (_ & H2 & H3).
  destruct (call_keeps_page (Tracked d) (preserves (Tracked d)) p (fun f H => H)
              (Quiet_Keeps d unit p Hp) user s Hs) as (H1 & _ & _).
  auto.
Qed.

Lemma Forall_QuietTask_Keeps (d : option Z) (l : list Task) :
  Forall (SafeTask (fun _ => True) quiet) l ->
  Forall (SafeTask (Tracked d) (preserves (Tracked d))) l.
Proof.
  intros H. eapply Forall_impl; [|exact H]. apply QuietTask_Keeps.
Qed.

(** A turn of a quiet handler. *)
Lemma inv_quiet_turn (w : World) (p : Prog unit) user lg :
  WorldInv w -> Quiet unit p ->
  WorldInv {| state := step_state (call user p (state w)); log := lg;
              pending := pending w ++ step_tasks (call user p (state w)) |} /\
  currentPageNum (vars (step_state (call user p (state w)))) =
    currentPageNum (vars (state w)).
Proof.
  intros [(d & HT & Hp) | (HT & l1 & t & l2 & E & HL & HQ)] Hq.
  - destruct (quiet_call p Hq user (state w) d HT) as (H1 & H2 & H3).
    split; [|exact H2]. left. exists d. cbn. split; [exact H1|].
    apply Forall_app. split; [exact Hp|].
    apply Forall_QuietTask_Keeps, H3.
  - destruct (quiet_call p Hq user (state w) None HT) as (H1 & H2 & H3).
    split; [|exact H2]. right. cbn [state pending]. split; [exact H1|].
    exists l1, t, (l2 ++ step_tasks (call user p (state w))).
    split; [rewrite E, <- app_assoc; reflexivity|]. split; [exact HL|].
    rewrite app_assoc. apply Forall_app. auto.
Qed.


(** A turn that resumes a pending task. *)
Lemma inv_settle_turn (w : World) (i : nat) (t : Task) (reply : Reply) lg :
  WorldInv w ->
  nth_error (pending w) i = Some t ->
  reply_ok (task_req t) reply = true ->
  WorldInv
    {| state := step_state (call no_dialog (task_cont t reply) (state w));
       log := lg;
       pending :=
         remove_nth i (pending w) ++
         step_tasks (call no_dialog (task_cont t reply) (state w)) |} /\
  currentPageNum
    (vars (step_state (call no_dialog (task_cont t reply) (state w)))) =
    currentPageNum (vars (state w)).
Proof.
  intros [(d & HT & Hp) | (HT & l1 & t0 & l2 & E & HL & HQ)] Hi Hok.
  - pose proof (Forall_nth_error _ _ _ _ _ Hp Hi reply Hok) as Hsafe.
    destruct (call_keeps_page (Tracked d) (preserves (Tracked d)) _
                (fun f H => H) Hsafe no_dialog (state w) HT) as (H1 & H2 & H3).
    split; [|exact H2]. left. exists d. cbn. split; [exact H1|].
    apply Forall_app. split; [|exact H3]. apply Forall_remove_nth, Hp.
  - rewrite E in Hi |- *. apply Forall_app in HQ. destruct HQ as [HQ1 HQ2].
    destruct (nth_error_around _ l1 t0 l2 i t Hi)
      as [[Hn Hr]|[[Hn Hr]|(j & Hn & Hr)]]; rewrite Hr.
    + pose proof (Forall_nth_error _ _ _ _ _ HQ1 Hn reply Hok) as Hq.
      destruct (quiet_call _ Hq no_dialog (state w) None HT) as (H1 & H2 & H3).
      split; [|exact H2]. right. cbn [state pending]. split; [exact H1|].
      eexists (remove_nth i l1), t0, (l2 ++ _).
      split; [rewrite <- app_assoc; reflexivity|]. split; [exact HL|].
      apply Forall_app. split; [apply Forall_remove_nth, HQ1|].
      apply Forall_app. split; [exact HQ2|exact H3].
    + subst t0. destruct (HL reply (state w) Hok HT) as (H2 & d & H1 & H3).
      split; [|exact H2]. left. exists d. cbn. split; [exact H1|].
      apply Forall_app. split; [|exact H3].
      apply Forall_QuietTask_Keeps, Forall_app. auto.
    + pose proof (Forall_nth_error _ _ _ _ _ HQ2 Hn reply Hok) as Hq.
      destruct (quiet_call _ Hq no_dialog (state w) None HT) as (H1 & H2 & H3).
      split; [|exact H2]. right. cbn [state pending]. split; [exact H1|].
      eexists l1, t0, (remove_nth j l2 ++ _).
      split; [rewrite <- app_assoc; reflexivity|]. split; [exact HL|].
      apply Forall_app. split; [exact HQ1|].
      apply Forall_app. split; [apply Forall_remove_nth, HQ2|exact H3].
Qed.

(** A turn of the observer callback. *)
Lemma inv_observer_turn (w : World) (entries : list Entry) lg :
  WorldInv w ->
  forallb (fun e => is_observed (state w) (target e)) entries = true ->
  WorldInv
    {| state := step_state (call no_dialog (pageObserver entries) (state w));
       log := lg;
       pending :=
         pending w ++
         step_tasks (call no_dialog (pageObserver entries) (state w)) |} /\
  (currentPageNum
     (vars (step_state (call no_dialog (pageObserver entries) (state w)))) =
     currentPageNum (vars (state w)) \/
   exists e, In e entries /\ isIntersecting e = true /\
     currentPageNum
       (vars (step_state (call no_dialog (pageObserver entries) (state w)))) =
     page_of_id (target e)).
Proof.
  intros Hw Hobs. unfold call. cbn [step_state step_tasks].
  assert (Hrun : forall d, Tracked d (state w) ->
    Tracked d (final (run no_dialog (pageObserver entries) (state w))) /\
    spawned (run no_dialog (pageObserver entries) (state w)) ++
      snd (settle_call
             (outcome (run no_dialog (pageObserver entries) (state w)))) = [] /\
    (currentPageNum
       (vars (final (run no_dialog (pageObserver entries) (state w)))) =
       currentPageNum (vars (state w)) \/
     exists e, In e entries /\ isIntersecting e = true /\
       currentPageNum
         (vars (final (run no_dialog (pageObserver entries) (state w)))) =
       page_of_id (target e))).
  { intros d HT.
    destruct (pageObserver_run d entries (state w) HT Hobs)
      as (H1 & H2 & H3 & H4 & H5).
    rewrite H3, H4. auto. }
  destruct Hw as [(d & HT & Hp) | (HT & l1 & t & l2 & E & HL & HQ)].
  - destruct (Hrun d HT) as (H1 & H2 & H3). rewrite H2, app_nil_r.
    split; [|exact H3]. left. exists d. auto.
  - destruct (Hrun None HT) as (H1 & H2 & H3). rewrite H2, app_nil_r.
    split; [|exact H3]. right. split; [exact H1|].
    exists l1, t, l2. auto.
Qed.

Lemma handler_quiet (ev : Event) (w : World) :
  match ev with
  | Intersect _ | Settle _ _ => True
  | _ => Quiet unit (snd (handler ev w))
  end.
Proof.
  destruct ev; cbn [handler snd]; try exact Logic.I.
  - unfold Quiet. apply Safe_for_each. intros _.
    apply Quiet_viewerArea_mouseup.
  - safe.
  - safe.
  - safe.
  - destruct (choose i (layerSelect (panel (state w)))); [|safe].
    unfold Quiet. apply Safe_bind; [safe|]. intros _.
    apply Quiet_fetchAnnotations.
  - apply Quiet_saveAnnotation.
  - destruct (nth_error (annotationList (panel (state w))) i) as [[text|c]|];
      [|destruct (card_delete c)|]; safe;
      apply Quiet_deleteAnnotation.
  - apply Quiet_openCreateLayerModal.
  - apply Quiet_confirmLayerBtn_onclick.
  - unfold cancelLayerBtn_onclick. safe.
  - unfold createLayerModal_click. safe.
  - destruct (button_disabled (askAiBtn (state w)));
      [safe|apply Quiet_askAiToExplain].
  - apply Quiet_scroll_to_page.
  - apply Quiet_scroll_to_page.
Qed.

Lemma step_quiet (ev : Event) (w : World) :
  WorldInv w ->
  Quiet unit (snd (handler ev w)) ->
  match ev with Settle _ _ => False | _ => True end ->
  WorldInv (step ev w) /\
  currentPageNum (vars (state (step ev w))) = currentPageNum (vars (state w)).
Proof.
  intros Hw Hq Hev. rewrite step_unfold. cbn [state].
  destruct ev; try contradiction; apply inv_quiet_turn; assumption.
Qed.

(** Every turn keeps the tracker in order, and only a report of the
    observer about an intersecting page moves the current page. *)
Lemma step_inv (w : World) (ev : Event) :
  WorldInv w -> event_ok w ev = true ->
  WorldInv (step ev w) /\
  (currentPageNum (vars (state (step ev w))) =
     currentPageNum (vars (state w)) \/
   exists entries e,
     ev = Intersect entries /\ In e entries /\ isIntersecting e = true /\
     currentPageNum (vars (state (step ev w))) = page_of_id (target e)).
Proof.
  intros Hw Hev.
  pose proof (handler_quiet ev w) as Hq.
  destruct ev as [entries|selection|text|text|i|i| |i answer| | | | | | |
                 |i reply];
    try (destruct (step_quiet _ w Hw Hq Logic.I) as [H1 H2];
         split; [exact H1|left; exact H2]).
  - rewrite step_unfold. cbn [state handler fst snd] in *.
    destruct (inv_observer_turn w entries
                (log w ++ step_effects
                   (call no_dialog (pageObserver entries) (state w)))
                Hw Hev) as [H1 H2].
    split; [exact H1|].
    destruct H2 as [H2|(e & Hin & Hi & H2)]; [left; exact H2|].
    right. exists entries, e. auto.
  - rewrite step_unfold. cbn [state handler fst snd event_ok] in *.
    destruct (nth_error (pending w) i) as [t|] eqn:Hi; [|discriminate].
    destruct (inv_settle_turn w i t reply
                (log w ++ step_effects
                   (call no_dialog (task_cont t reply) (state w)))
                Hw Hi Hev) as [H1 H2].
    split; [exact H1|left; exact H2].
Qed.


Lemma steps_inv (evs : list Event) :
  forall w, WorldInv w -> trace_ok evs w = true -> WorldInv (steps evs w).
Proof.
  induction evs as [|ev evs IH]; intros w Hw Hok; [exact Hw|].
  cbn [trace_ok] in Hok. apply andb_true_iff in Hok. destruct Hok as [Hev Hrest].
  cbn [steps fold_left]. apply IH; [|exact Hrest].
  apply step_inv; assumption.
Qed.

(** *** The page tracker *)

(** C7: in every state the page reaches from start-up, through any events
    the environment may deliver, [currentPageNum] is an integer that is at
    least 1; once the document is there it is at most [totalPages] if the
    document has a page, and it is still 1 if the document has none.  An
    event changes [currentPageNum] only if it is a report of the observer
    holding an intersecting entry, and then to the page number of such an
    entry's element; a report with no intersecting entry leaves it as it
    is.  The script reads nothing but that flag of an entry: for the
    entries a browser makes with the threshold of the observer, one half,
    the page is taken from an element of which at least one half is
    visible, and a report on one observed element of which at least one
    half is visible makes the page of that element the current page. *)
Theorem currentPageNum_in_range (host : State) (evs : list Event) :
  trace_ok evs (boot host) = true ->
  let w := steps evs (boot host) in
  (exists z,
     currentPageNum (vars (state w)) = Int z /\ 1 <= z /\
     forall doc, pdfDoc (vars (state w)) = Some doc ->
       (1 <= totalPages (vars (state w)) ->
        z <= totalPages (vars (state w))) /\
       (totalPages (vars (state w)) < 1 -> z = 1)) /\
  (forall ev, event_ok w ev = true ->
     currentPageNum (vars (state (step ev w))) =
       currentPageNum (vars (state w)) \/
     exists entries e,
       ev = Intersect entries /\ In e entries /\ isIntersecting e = true /\
       currentPageNum (vars (state (step ev w))) = page_of_id (target e)) /\
  (forall entries,
     forallb (fun e => negb (isIntersecting e)) entries = true ->
     currentPageNum (vars (state (step (Intersect entries) w))) =
       currentPageNum (vars (state w))) /\
  (forall measured,
     event_ok w (Intersect (report pageObserver_threshold measured)) = true ->
     let w' := step (Intersect (report pageObserver_threshold measured)) w in
     currentPageNum (vars (state w')) = currentPageNum (vars (state w)) \/
     exists id share,
       In (id, share) measured /\
       QArith_base.Qle (QArith_base.Qmake 1 2) share /\
       currentPageNum (vars (state w')) = page_of_id id) /\
  (forall id share,
     is_observed (state w) id = true ->
     QArith_base.Qle (QArith_base.Qmake 1 2) share ->
     let w' := step (Intersect (report pageObserver_threshold [(id, share)]))
                    w in
     exists k,
       id = page_wrapper_id k /\ 1 <= k <= totalPages (vars (state w)) /\
       currentPageNum (vars (state w')) = Int k).
Proof.
  intros Hok w.
  assert (Hw : WorldInv w) by (apply steps_inv; [apply boot_inv|exact Hok]).
  split; [|split; [|split; [|split]]].
  - destruct Hw as [([n|] & HT & _) | ((Hnone & _ & Hcur & _) & _)].
    + destruct HT as (Htotal & (z & Hz & Hzn) & _).
      exists z. rewrite Htotal. split; [exact Hz|]. split; [lia|].
      intros doc _. split; lia.
    + destruct HT as (Hnone & _ & Hcur & _).
      exists 1. split; [exact Hcur|]. split; [lia|]. congruence.
    + exists 1. split; [exact Hcur|]. split; [lia|]. congruence.
  - intros ev Hev. apply step_inv; assumption.
  - intros entries Hno. rewrite step_unfold. cbn [state handler fst snd].
    rewrite pageObserver_not_intersecting by exact Hno. reflexivity.
  - intros measured Hev w'.
    destruct (step_inv w _ Hw Hev) as [_ [H | (entries & e & E & Hin & Hi & H)]];
      [left; exact H|].
    right. injection E as <-. unfold report in Hin.
    apply in_map_iff in Hin. destruct Hin as ([id share] & <- & Hin).
    cbn [target isIntersecting fst snd] in Hi, H.
    exists id, share. split; [exact Hin|]. split; [|exact H].
    apply QArith_base.Qle_bool_iff. exact Hi.
  - intros id share Hobs Hshare w'.
    assert (Hvalid : exists k,
              id = page_wrapper_id k /\ 1 <= k <= totalPages (vars (state w))).
    { destruct Hw as [([n|] & HT & _) | ((_ & _ & _ & Hnone) & _)].
      - destruct HT as (Htotal & _ & Hall).
        destruct (is_observed_valid n (state w) id Hall Hobs) as (k & Hk & E).
        exists k. rewrite Htotal. auto.
      - destruct HT as (_ & _ & _ & Hnone).
        unfold is_observed in Hobs. rewrite Hnone in Hobs. discriminate.
      - unfold is_observed in Hobs. rewrite Hnone in Hobs. discriminate. }
    destruct Hvalid as (k & Eid & Hk). exists k.
    split; [exact Eid|]. split; [exact Hk|].
    unfold w', report, pageObserver_threshold. cbn [map fst snd].
    rewrite step_unfold. cbn [state handler fst snd].
    apply QArith_base.Qle_bool_iff in Hshare.
    unfold call, pageObserver, pageObserver_entry.
    cbn [for_each isIntersecting target]. rewrite Hshare, Eid.
    rewrite page_of_wrapper_id by lia.
    assert (Ht : Value.truthy (VNum (Int k)) = true).
    { cbn. destruct (Z.eqb_spec k 0); [lia|reflexivity]. }
    rewrite Ht. reflexivity.
Qed.


(** *** Deleting a note *)

Lemma remove_first_plain (id : jsstring) (l : list Node) :
  Forall no_data_id l -> Dom.remove_first (Dom.matches_card id) l = l.
Proof.
  induction 1 as [|n l Hn Hl IH]; cbn; [reflexivity|].
  destruct n as [text|c]; cbn in *.
  - rewrite IH. reflexivity.
  - rewrite Hn, andb_false_r, IH. reflexivity.
Qed.

Lemma preserves_plain_append (c : Card) :
  card_attributes c = [] ->
  preserves plain_list
    (fun s => set_annotationList (annotationList (panel s) ++ [CardNode c]) s).
Proof.
  intros Hc s Hs. split; [|reflexivity].
  unfold plain_list in *. cbn. apply Forall_app. split; [exact Hs|].
  constructor; [|constructor]. unfold no_data_id, Dom.attribute.
  rewrite Hc. reflexivity.
Qed.

(** Whatever the backend sends, no card [renderAnnotations] puts in the
    list carries a [data-id] attribute. *)
Lemma renderAnnotations_plain (annotations : Val) (s : State) :
  plain_list (final (run no_dialog (renderAnnotations annotations) s)).
Proof.
  change (run no_dialog (renderAnnotations annotations) s) with
    (run no_dialog
       (empty <- or_type_error (length_is_zero annotations) ;;
        if empty : bool then
          modify (set_annotationList
                    [Paragraph $"No notes yet. Start writing below!"])
        else
          items <- or_type_error (array_items annotations) ;;
          for_each items annotation_card)
       (set_annotationList [] s)).
  apply (run_keeps_page plain_list (preserves plain_list) unit _ (fun f H => H)).
  - apply Safe_bind; [apply Safe_or_type_error|]. intros [|].
    + apply Safe_modify. intros s0 _. split; [|reflexivity].
      unfold plain_list. cbn. repeat constructor.
    + apply Safe_bind; [apply Safe_or_type_error|]. intros items.
      apply Safe_for_each. intros annotation. unfold annotation_card.
      repeat (apply Safe_bind; [apply Safe_or_type_error|]; intro).
      apply Safe_modify, preserves_plain_append. reflexivity.
  - unfold plain_list. cbn. constructor.
Qed.

(** A confirmed deletion asks the backend to delete and, when the
    response arrives, removes nothing from a list [renderAnnotations]
    made: no card matches the selector. *)
Lemma deleteAnnotation_removes_nothing (annotationId : Val) (s : State) :
  plain_list s ->
  exists k,
    run accept (deleteAnnotation annotationId) s =
      {| final := s;
         effects :=
           [ConfirmDialog $"Delete this note?" true;
            Request (Fetch ($"/api/annotation/" ++
                            Value.to_string annotationId ++ $"/delete")
                           POST None)];
         spawned := [];
         outcome :=
           Waiting (Fetch ($"/api/annotation/" ++
                           Value.to_string annotationId ++ $"/delete")
                          POST None) k |} /\
    forall ok body s',
      plain_list s' ->
      call no_dialog (k (Response ok body)) s' =
        {| step_state := set_annotationList (annotationList (panel s')) s';
           step_effects := []; step_tasks := [] |}.
Proof.
  intros Hs. eexists. split; [reflexivity|].
  intros ok body s' Hs'. unfold call. cbn.
  rewrite remove_first_plain by exact Hs'. reflexivity.
Qed.


(** *** A selected layer stays selected *)

Ltac steady_step :=
  first
    [ apply Safe_bind
    | apply Safe_try_catch
    | apply Safe_try_finally
    | apply Safe_for_each
    | apply Safe_modify; intros ? ?; assumption
    | apply Safe_emit
    | apply Safe_or_type_error
    | apply Safe_json
    | apply Safe_fetch
    | apply Safe_await
    | apply Safe_get_state
    | match goal with
      | |- Safe _ _ _ (if ?b then _ else _) => destruct b
      | |- Safe _ _ _ (match ?x with _ => _ end) => destruct x
      | |- forall _, _ => intro
      end
    | constructor ].

Ltac steady := unfold Steady; repeat steady_step.

Lemma Steady_fetchAnnotations layerId : Steady unit (fetchAnnotations layerId).
Proof.
  unfold Steady, fetchAnnotations.
  destruct (Value.truthy layerId) eqn:Hid; cbn [negb]; [|steady].
  apply Safe_bind; [apply Safe_modify; intros s _; exact Hid|]. intros _.
  unfold annotation_card. steady.
Qed.

Lemma Steady_fetchLayers : Steady unit fetchLayers.
Proof. unfold fetchLayers, layer_option. steady. Qed.

Lemma Steady_pageObserver entries : Steady unit (pageObserver entries).
Proof. unfold pageObserver, pageObserver_entry. steady. Qed.

Lemma Steady_render_pages (count : nat) :
  forall k, Steady unit (render_pages count k).
Proof.
  induction count as [|count IH]; intros k; cbn [render_pages]; [steady|].
  unfold Steady in *. apply Safe_get_state. intros s _.
  destruct (k <=? totalPages (vars s)); [|steady].
  apply Safe_bind; [unfold render_page; steady|]. intros _. apply IH.
Qed.

Lemma Steady_loadPdf pdfUrl : Steady unit (loadPdf pdfUrl).
Proof.
  unfold Steady, loadPdf, renderAllPages, setupTextSelection, alert,
    console_error.
  apply Safe_bind; [apply Safe_emit|]. intros _.
  apply Safe_try_catch; [|steady].
  apply Safe_bind; [apply Safe_await|]. intros [|ok body|n|]; try steady.
  apply Steady_render_pages.
Qed.

Lemma Steady_saveAnnotation : Steady unit saveAnnotation.
Proof.
  unfold saveAnnotation, alert, console_error, spawn. steady.
  apply Steady_fetchAnnotations.
Qed.

Lemma Steady_confirmLayerBtn_onclick : Steady unit confirmLayerBtn_onclick.
Proof.
  unfold confirmLayerBtn_onclick, alert, console_error, spawn. steady;
    first [apply Steady_fetchLayers | apply Steady_fetchAnnotations].
Qed.

Lemma handler_steady (ev : Event) (w : World) :
  match ev with
  | Settle _ _ => True
  | _ => Steady unit (snd (handler ev w))
  end.
Proof.
  destruct ev as [entries|selection|text|text|i|i| |i answer| | | | | | |
                 |i reply]; cbn [handler snd]; try exact Logic.I.
  - apply Steady_pageObserver.
  - unfold viewerArea_mouseup. steady.
  - steady.
  - steady.
  - steady.
  - destruct (choose i (layerSelect (panel (state w)))); [|steady].
    unfold Steady. apply Safe_bind; [steady|]. intros _.
    apply Steady_fetchAnnotations.
  - apply Steady_saveAnnotation.
  - unfold deleteAnnotation, confirm. steady.
  - unfold openCreateLayerModal, group_option, alert, console_error. steady.
  - apply Steady_confirmLayerBtn_onclick.
  - unfold cancelLayerBtn_onclick. steady.
  - unfold createLayerModal_click. steady.
  - unfold askAiToExplain, alert, console_error. steady.
  - unfold prevPageBtn_click, scroll_to_page. steady.
  - unfold nextPageBtn_click, scroll_to_page. steady.
Qed.


Lemma call_steady (p : Prog unit) :
  Steady unit p ->
  forall user s,
    still_selected s (step_state (call user p s)) /\
    Forall (SafeTask (fun _ => True) keeps_layer) (step_tasks (call user p s)).
Proof.
  intros Hp user s.
  destruct (call_safe (fun _ => True) keeps_layer still_selected) with
    (p := p) (user := user) (s := s) as (_ & H2 & H3); auto.
  - intros s0 H. exact H.
  - intros a b c Hab Hbc H. auto.
  - intros f Hf s0 _. split; [exact Logic.I|]. exact (Hf s0).
Qed.

Lemma boot_steady (host : State) :
  Forall (SafeTask (fun _ => True) keeps_layer) (pending (boot host)).
Proof.
  unfold boot. cbn [pending]. apply call_steady.
  unfold Steady, init, spawn.
  apply Safe_bind; [|intros _].
  - constructor; [apply Steady_fetchLayers|constructor].
  - constructor; [apply Steady_loadPdf|constructor].
Qed.

Lemma step_steady (w : World) (ev : Event) :
  Forall (SafeTask (fun _ => True) keeps_layer) (pending w) ->
  event_ok w ev = true ->
  Forall (SafeTask (fun _ => True) keeps_layer) (pending (step ev w)) /\
  still_selected (state w) (state (step ev w)).
Proof.
  intros Hw Hev. rewrite step_unfold. cbn [state pending].
  pose proof (handler_steady ev w) as Hh.
  assert (Hcall : Steady unit (snd (handler ev w))).
  { destruct ev as [entries|selection|text|text|i|i| |i answer| | | | | | |
                   |i reply]; try exact Hh.
    cbn [handler snd event_ok] in *.
    destruct (nth_error (pending w) i) as [t|] eqn:Hi; [|discriminate].
    exact (Forall_nth_error _ _ _ _ _ Hw Hi reply Hev). }
  destruct (call_steady _ Hcall (fst (handler ev w)) (state w)) as [H1 H2].
  split; [|exact H1].
  apply Forall_app. split; [|exact H2].
  destruct ev; try exact Hw. apply Forall_remove_nth, Hw.
Qed.

Lemma steps_steady (evs : list Event) :
  forall w,
    Forall (SafeTask (fun _ => True) keeps_layer) (pending w) ->
    trace_ok evs w = true ->
    Forall (SafeTask (fun _ => True) keeps_layer) (pending (steps evs w)) /\
    still_selected (state w) (state (steps evs w)).
Proof.
  induction evs as [|ev evs IH]; intros w Hw Hok.
  - split; [exact Hw|]. intros H. exact H.
  - cbn [trace_ok] in Hok. apply andb_true_iff in Hok.
    destruct Hok as [Hev Hrest].
    destruct (step_steady w ev Hw Hev) as [H1 H2].
    destruct (IH (step ev w) H1 Hrest) as [H3 H4].
    cbn [steps fold_left]. split; [exact H3|].
    intros H. apply H4, H2, H.
Qed.

Lemma trace_ok_app (evs evs' : list Event) :
  forall w,
    trace_ok (evs ++ evs') w = true <->
    trace_ok evs w = true /\ trace_ok evs' (steps evs w) = true.
Proof.
  induction evs as [|ev evs IH]; intros w; cbn [app trace_ok steps fold_left].
  - tauto.
  - rewrite andb_true_iff, IH, andb_true_iff. tauto.
Qed.

(** Once a layer is selected, it is selected in every later state of the
    page. *)
Lemma layer_stays_selected (host : State) (evs evs' : list Event) :
  trace_ok evs (boot host) = true ->
  trace_ok evs' (steps evs (boot host)) = true ->
  layer_selected (state (steps evs (boot host))) ->
  layer_selected (state (steps evs' (steps evs (boot host)))).
Proof.
  intros Hok Hok' Hsel.
  destruct (steps_steady evs (boot host) (boot_steady host) Hok) as [H1 _].
  destruct (steps_steady evs' _ H1 Hok') as [_ H2].
  apply H2, Hsel.
Qed.


Lemma steps_app (evs evs' : list Event) (w : World) :
  steps (evs ++ evs') w = steps evs' (steps evs w).
Proof. unfold steps. apply fold_left_app. Qed.

(** *** Saving a note: success *)

(** C4: in any state the page has reached, with a note typed and a layer
    selected, a click on save issues the create request and leaves its
    continuation waiting; whatever happens on the page in between, when the
    request succeeds the continuation clears the textarea and the pending
    quote, replaces the list by the loading placeholder and requests the
    annotations of the selected layer again; when that request is answered
    the list is what [renderAnnotations] builds from the answer.  No card is
    added locally. *)
Theorem saveAnnotation_success_refetches (host : State) (evs : list Event) :
  trace_ok evs (boot host) = true ->
  let w := steps evs (boot host) in
  JsString.trim (annotationTextarea (panel (state w))) <> [] ->
  layer_selected (state w) ->
  exists body k,
    step ClickSave w =
      {| state := state w;
         log := log w ++
                [Request (Fetch $"/api/annotation/new" POST (Some body))];
         pending := pending w ++
                    [{| task_req := Fetch $"/api/annotation/new" POST (Some body);
                        task_cont := k |}] |} /\
    forall evs' b,
      trace_ok evs' (step ClickSave w) = true ->
      let s' := state (steps evs' (step ClickSave w)) in
      let layer := currentLayerId (vars s') in
      let refetch :=
        Fetch ($"/api/layer/" ++ Value.to_string layer ++ $"/annotations")
              GET None in
      exists k',
        call no_dialog (k (Response true b)) s' =
          {| step_state :=
               set_currentHighlightedText []
                 (set_annotationTextarea []
                    (set_annotationList [Paragraph $"Loading..."]
                       (set_currentLayerId layer s')));
             step_effects := [Request refetch];
             step_tasks := [{| task_req := refetch; task_cont := k' |}] |} /\
        forall ok annotations s'',
          annotationList (panel (step_state
            (call no_dialog (k' (Response ok (Some annotations))) s''))) =
          annotationList (panel (final
            (run no_dialog (renderAnnotations annotations) s''))).
Proof.
  intros Hok w Hnote Hlayer.
  destruct (saveAnnotation_resumed (state w) Hnote Hlayer)
    as (body & k & Hrun & Hresume).
  exists body, k.
  assert (Hstep :
    step ClickSave w =
      {| state := state w;
         log := log w ++
                [Request (Fetch $"/api/annotation/new" POST (Some body))];
         pending := pending w ++
                    [{| task_req := Fetch $"/api/annotation/new" POST (Some body);
                        task_cont := k |}] |}).
  { rewrite step_unfold. cbn [handler fst snd]. unfold call.
    rewrite Hrun. reflexivity. }
  split; [exact Hstep|].
  intros evs' b Hok'. apply Hresume.
  assert (Hsaved : steps (evs ++ [ClickSave]) (boot host) = step ClickSave w)
    by (rewrite steps_app; reflexivity).
  pose proof (layer_stays_selected host (evs ++ [ClickSave]) evs') as Hstay.
  rewrite Hsaved in Hstay. apply Hstay.
  - apply trace_ok_app. split; [exact Hok|]. reflexivity.
  - exact Hok'.
  - rewrite Hstep. exact Hlayer.
Qed.

(** *** Sequencing and the interpreter *)

Lemma after_after (A : Type) (e1 e2 : list Effect) (t1 t2 : list Task)
  (t : Turn A) :
  after e1 t1 (after e2 t2 t) = after (e1 ++ e2) (t1 ++ t2) t.
Proof using. unfold after. cbn. rewrite !app_assoc. reflexivity. Qed.

Lemma after_nil (A : Type) (t : Turn A) : after [] [] t = t.
Proof using. destruct t. reflexivity. Qed.

(** One turn of [p] followed by [f]. *)
Lemma run_bind (A : Type) (p : Prog A) :
  forall (B : Type) (f : A -> Prog B) user s,
    run user (bind p f) s =
      match outcome (run user p s) with
      | Returned a =>
          after (effects (run user p s)) (spawned (run user p s))
                (run user (f a) (final (run user p s)))
      | Thrown e =>
          {| final := final (run user p s); effects := effects (run user p s);
             spawned := spawned (run user p s); outcome := Thrown e |}
      | Waiting r k =>
          {| final := final (run user p s); effects := effects (run user p s);
             spawned := spawned (run user p s);
             outcome := Waiting r (fun x => bind (k x) f) |}
      end.
Proof using.
  induction p as [A a|A e|A k IH|A g k IH|A e k IH|A msg k IH|A r k IH
                 |A q IHq k IHk];
    intros B f user s; cbn [bind run final effects spawned outcome].
  - rewrite after_nil. reflexivity.
  - reflexivity.
  - apply IH.
  - apply IH.
  - rewrite IH. destruct (outcome (run user k s)); reflexivity.
  - rewrite IH. destruct (outcome (run user (k (user msg)) s)); reflexivity.
  - reflexivity.
  - rewrite IHk.
    destruct (outcome (run user k (final (run user q s)))); unfold after; cbn;
      rewrite ?app_assoc; reflexivity.
Qed.

(** One turn of [try { p } catch (e) { h e }]. *)
Lemma run_try_catch (A : Type) (p : Prog A) :
  forall (h : Exn -> Prog A) user s,
    run user (try_catch p h) s =
      match outcome (run user p s) with
      | Returned a => run user p s
      | Thrown e =>
          after (effects (run user p s)) (spawned (run user p s))
                (run user (h e) (final (run user p s)))
      | Waiting r k =>
          {| final := final (run user p s); effects := effects (run user p s);
             spawned := spawned (run user p s);
             outcome := Waiting r (fun x => try_catch (k x) h) |}
      end.
Proof using.
  induction p as [A a|A e|A k IH|A g k IH|A e k IH|A msg k IH|A r k IH
                 |A q IHq k IHk];
    intros h user s; cbn [try_catch run final effects spawned outcome].
  - reflexivity.
  - rewrite after_nil. reflexivity.
  - apply IH.
  - apply IH.
  - rewrite IH. destruct (outcome (run user k s)) eqn:E; try reflexivity.
    destruct (run user k s); cbn in *. subst. reflexivity.
  - rewrite IH.
    destruct (outcome (run user (k (user msg)) s)) eqn:E; try reflexivity.
    destruct (run user (k (user msg)) s); cbn in *. subst. reflexivity.
  - reflexivity.
  - rewrite IHk.
    destruct (outcome (run user k (final (run user q s)))) eqn:E;
      unfold after; cbn; rewrite ?app_assoc; try reflexivity.
    destruct (run user k (final (run user q s))); cbn in *. subst. reflexivity.
Qed.

Lemma settle_all_after (A : Type) user (replies : list Reply) :
  forall effs tasks (t : Turn A),
    settle_all user replies (after effs tasks t) =
    after effs tasks (settle_all user replies t).
Proof using.
  induction replies as [|x replies IH]; intros effs tasks t; [reflexivity|].
  cbn [settle_all fold_left] in *.
  replace (resume user (after effs tasks t) x)
    with (after effs tasks (resume user t x)); [apply IH|].
  unfold resume. cbn [after outcome final effects spawned].
  destruct (outcome t); [reflexivity|reflexivity|].
  rewrite after_after. reflexivity.
Qed.

Lemma settle_all_nil (A : Type) user (t : Turn A) :
  settle_all user [] t = t.
Proof using. reflexivity. Qed.

Lemma settle_all_cons (A : Type) user x (l : list Reply) (t : Turn A) :
  settle_all user (x :: l) t = settle_all user l (resume user t x).
Proof using. reflexivity. Qed.

Lemma settle_all_app (A : Type) user (l1 l2 : list Reply) (t : Turn A) :
  settle_all user (l1 ++ l2) t = settle_all user l2 (settle_all user l1 t).
Proof using. unfold settle_all. apply fold_left_app. Qed.

Lemma settle_all_done (A : Type) user (replies : list Reply) (t : Turn A) :
  match outcome t with Waiting _ _ => False | _ => True end ->
  settle_all user replies t = t.
Proof using.
  intros Ht. induction replies as [|x replies IH]; [reflexivity|].
  cbn [settle_all fold_left] in *. unfold resume at 2.
  destruct (outcome t); [exact IH|exact IH|contradiction].
Qed.

Lemma consumes_after (A : Type) user (replies : list Reply) :
  forall effs tasks (t : Turn A),
    consumes user replies (after effs tasks t) <-> consumes user replies t.
Proof using.
  induction replies as [|x replies IH]; intros effs tasks t;
    cbn [consumes after outcome]; [reflexivity|].
  destruct (outcome t) eqn:E; try reflexivity.
  unfold resume. cbn [after outcome final effects spawned]. rewrite E.
  rewrite !IH. reflexivity.
Qed.

(** A call that goes on with [f] once [p] has returned: the replies [p]
    awaits, then those of [f]. *)
Lemma settle_bind_returned (A B : Type) (f : A -> Prog B) user
  (more : list Reply) (replies : list Reply) :
  forall (p : Prog A) s effs tasks a,
    consumes user replies (run user p s) ->
    outcome (settle_all user replies (run user p s)) = Returned a ->
    settle_all user (replies ++ more)
      (after effs tasks (run user (bind p f) s)) =
    after (effs ++ effects (settle_all user replies (run user p s)))
          (tasks ++ spawned (settle_all user replies (run user p s)))
          (settle_all user more
             (run user (f a)
                  (final (settle_all user replies (run user p s))))).
Proof using.
  induction replies as [|x replies IH]; intros p s effs tasks a Hc Ho.
  - rewrite settle_all_nil in *. cbn [app]. rewrite run_bind, Ho.
    rewrite after_after, settle_all_after. reflexivity.
  - cbn [consumes] in Hc. cbn [app]. rewrite !settle_all_cons.
    rewrite settle_all_cons in Ho.
    destruct (outcome (run user p s)) as [a0|e|r k] eqn:E; try contradiction.
    assert (R1 : resume user (run user p s) x =
                 after (effects (run user p s)) (spawned (run user p s))
                       (run user (k x) (final (run user p s))))
      by (unfold resume; rewrite E; reflexivity).
    assert (R2 : resume user (after effs tasks (run user (bind p f) s)) x =
                 after (effs ++ effects (run user p s))
                       (tasks ++ spawned (run user p s))
                       (run user (bind (k x) f) (final (run user p s)))).
    { rewrite run_bind, E. unfold resume. cbn [after outcome final effects spawned].
      reflexivity. }
    rewrite R1 in Hc, Ho |- *. rewrite R2.
    apply consumes_after in Hc.
    rewrite settle_all_after in Ho. rewrite (settle_all_after A).
    cbn [after outcome final effects spawned] in *.
    rewrite (IH (k x) (final (run user p s)) _ _ a Hc Ho).
    rewrite !app_assoc. reflexivity.
Qed.

Lemma resume_waiting (A : Type) user (t : Turn A) r k x :
  outcome t = Waiting r k ->
  resume user t x = after (effects t) (spawned t) (run user (k x) (final t)).
Proof using. intros E. unfold resume. rewrite E. reflexivity. Qed.

Lemma settle_bind_thrown (A B : Type) (f : A -> Prog B) user
  (more : list Reply) (replies : list Reply) :
  forall (p : Prog A) s effs tasks e,
    consumes user replies (run user p s) ->
    outcome (settle_all user replies (run user p s)) = Thrown e ->
    settle_all user (replies ++ more)
      (after effs tasks (run user (bind p f) s)) =
    {| final := final (settle_all user replies (run user p s));
       effects := effs ++ effects (settle_all user replies (run user p s));
       spawned := tasks ++ spawned (settle_all user replies (run user p s));
       outcome := Thrown e |}.
Proof using.
  induction replies as [|x replies IH]; intros p s effs tasks e Hc Ho.
  - rewrite settle_all_nil in *. cbn [app]. rewrite run_bind, Ho.
    apply settle_all_done. exact Logic.I.
  - cbn [consumes] in Hc. cbn [app]. rewrite !settle_all_cons.
    rewrite settle_all_cons in Ho.
    destruct (outcome (run user p s)) as [a0|e0|r k] eqn:E; try contradiction.
    rewrite (resume_waiting A user _ r k x E) in Hc, Ho |- *.
    rewrite (resume_waiting B user _ r (fun x => bind (k x) f) x)
      by (rewrite run_bind, E; reflexivity).
    rewrite run_bind, E. cbn [after outcome final effects spawned].
    change {| final := final (run user (bind (k x) f) (final (run user p s)));
              effects := (effs ++ effects (run user p s)) ++
                         effects (run user (bind (k x) f) (final (run user p s)));
              spawned := (tasks ++ spawned (run user p s)) ++
                         spawned (run user (bind (k x) f) (final (run user p s)));
              outcome := outcome (run user (bind (k x) f) (final (run user p s))) |}
      with (after (effs ++ effects (run user p s))
                  (tasks ++ spawned (run user p s))
                  (run user (bind (k x) f) (final (run user p s)))).
    apply consumes_after in Hc.
    rewrite settle_all_after in Ho. rewrite (settle_all_after A).
    cbn [after outcome final effects spawned] in *.
    rewrite (IH (k x) (final (run user p s)) _ _ e Hc Ho).
    rewrite !app_assoc. reflexivity.
Qed.

Lemma consumes_bind (A B : Type) (f : A -> Prog B) user
  (more : list Reply) (replies : list Reply) :
  forall (p : Prog A) s,
    consumes user replies (run user p s) ->
    match outcome (settle_all user replies (run user p s)) with
    | Returned a =>
        consumes user more
          (run user (f a) (final (settle_all user replies (run user p s))))
    | _ => more = []
    end ->
    consumes user (replies ++ more) (run user (bind p f) s).
Proof using.
  induction replies as [|x replies IH]; intros p s Hc Ho.
  - rewrite settle_all_nil in Ho. cbn [app consumes] in *. rewrite run_bind.
    destruct (outcome (run user p s)) as [a|e|r k] eqn:E; try contradiction.
    + apply consumes_after. exact Ho.
    + subst more. exact Logic.I.
  - cbn [consumes] in Hc. cbn [app consumes]. rewrite settle_all_cons in Ho.
    destruct (outcome (run user p s)) as [a0|e0|r k] eqn:E; try contradiction.
    rewrite (resume_waiting A user _ r k x E) in Hc, Ho.
    assert (E' : outcome (run user (bind p f) s) =
                 Waiting r (fun x => bind (k x) f))
      by (rewrite run_bind, E; reflexivity).
    rewrite E'. rewrite (resume_waiting B user _ _ _ x E').
    apply consumes_after. apply consumes_after in Hc.
    rewrite settle_all_after in Ho. cbn [after outcome final] in Ho.
    replace (final (run user (bind p f) s)) with (final (run user p s))
      by (rewrite (run_bind A p), E; reflexivity).
    apply IH; assumption.
Qed.

(** The same for a call under [try]: the handler runs when [p] has
    thrown. *)
Lemma settle_try_catch_returned (A : Type) (h : Exn -> Prog A) user
  (more : list Reply) (replies : list Reply) :
  forall (p : Prog A) s effs tasks a,
    consumes user replies (run user p s) ->
    outcome (settle_all user replies (run user p s)) = Returned a ->
    settle_all user (replies ++ more)
      (after effs tasks (run user (try_catch p h) s)) =
    after effs tasks (settle_all user replies (run user p s)).
Proof using.
  induction replies as [|x replies IH]; intros p s effs tasks a Hc Ho.
  - rewrite settle_all_nil in *. cbn [app]. rewrite run_try_catch, Ho.
    apply settle_all_done. cbn [after outcome]. rewrite Ho. exact Logic.I.
  - cbn [consumes] in Hc. cbn [app]. rewrite !settle_all_cons.
    rewrite settle_all_cons in Ho.
    destruct (outcome (run user p s)) as [a0|e0|r k] eqn:E; try contradiction.
    rewrite (resume_waiting A user _ r k x E) in Hc, Ho |- *.
    assert (E' : outcome (run user (try_catch p h) s) =
                 Waiting r (fun x => try_catch (k x) h))
      by (rewrite run_try_catch, E; reflexivity).
    rewrite (resume_waiting A user (after effs tasks _) _ _ x E').
    cbn [after final effects spawned]. rewrite run_try_catch, E.
    cbn [final effects spawned].
    change (settle_all user (replies ++ more)
              (after (effs ++ effects (run user p s))
                     (tasks ++ spawned (run user p s))
                     (run user (try_catch (k x) h) (final (run user p s)))) =
            after effs tasks
              (settle_all user replies
                 (after (effects (run user p s)) (spawned (run user p s))
                        (run user (k x) (final (run user p s)))))).
    apply consumes_after in Hc.
    rewrite settle_all_after in Ho. rewrite (settle_all_after A user replies).
    cbn [after outcome] in Ho.
    rewrite (IH (k x) (final (run user p s)) _ _ a Hc Ho).
    rewrite after_after. reflexivity.
Qed.

Lemma settle_try_catch_thrown (A : Type) (h : Exn -> Prog A) user
  (more : list Reply) (replies : list Reply) :
  forall (p : Prog A) s effs tasks e,
    consumes user replies (run user p s) ->
    outcome (settle_all user replies (run user p s)) = Thrown e ->
    settle_all user (replies ++ more)
      (after effs tasks (run user (try_catch p h) s)) =
    after (effs ++ effects (settle_all user replies (run user p s)))
          (tasks ++ spawned (settle_all user replies (run user p s)))
          (settle_all user more
             (run user (h e)
                  (final (settle_all user replies (run user p s))))).
Proof using.
  induction replies as [|x replies IH]; intros p s effs tasks e Hc Ho.
  - rewrite settle_all_nil in *. cbn [app]. rewrite run_try_catch, Ho.
    rewrite after_after, settle_all_after. reflexivity.
  - cbn [consumes] in Hc. cbn [app]. rewrite !settle_all_cons.
    rewrite settle_all_cons in Ho.
    destruct (outcome (run user p s)) as [a0|e0|r k] eqn:E; try contradiction.
    rewrite (resume_waiting A user _ r k x E) in Hc, Ho |- *.
    assert (E' : outcome (run user (try_catch p h) s) =
                 Waiting r (fun x => try_catch (k x) h))
      by (rewrite run_try_catch, E; reflexivity).
    rewrite (resume_waiting A user (after effs tasks _) _ _ x E').
    cbn [after final effects spawned]. rewrite run_try_catch, E.
    cbn [final effects spawned].
    change (settle_all user (replies ++ more)
              (after (effs ++ effects (run user p s))
                     (tasks ++ spawned (run user p s))
                     (run user (try_catch (k x) h) (final (run user p s)))) =
            after
              (effs ++ effects (settle_all user replies
                 (after (effects (run user p s)) (spawned (run user p s))
                        (run user (k x) (final (run user p s))))))
              (tasks ++ spawned (settle_all user replies
                 (after (effects (run user p s)) (spawned (run user p s))
                        (run user (k x) (final (run user p s))))))
              (settle_all user more
                 (run user (h e)
                    (final (settle_all user replies
                       (after (effects (run user p s)) (spawned (run user p s))
                              (run user (k x) (final (run user p s))))))))).
    apply consumes_after in Hc.
    rewrite settle_all_after in Ho. rewrite !(settle_all_after A user replies).
    cbn [after outcome final effects spawned] in *.
    rewrite (IH (k x) (final (run user p s)) _ _ e Hc Ho).
    rewrite !app_assoc. reflexivity.
Qed.

Lemma consumes_try_catch (A : Type) (h : Exn -> Prog A) user
  (more : list Reply) (replies : list Reply) :
  forall (p : Prog A) s,
    consumes user replies (run user p s) ->
    match outcome (settle_all user replies (run user p s)) with
    | Thrown e =>
        consumes user more
          (run user (h e) (final (settle_all user replies (run user p s))))
    | _ => more = []
    end ->
    consumes user (replies ++ more) (run user (try_catch p h) s).
Proof using.
  induction replies as [|x replies IH]; intros p s Hc Ho.
  - rewrite settle_all_nil in Ho. cbn [app consumes] in *. rewrite run_try_catch.
    destruct (outcome (run user p s)) as [a|e|r k] eqn:E; try contradiction.
    + subst more. cbn. rewrite E. exact Logic.I.
    + apply consumes_after. exact Ho.
  - cbn [consumes] in Hc. cbn [app consumes]. rewrite settle_all_cons in Ho.
    destruct (outcome (run user p s)) as [a0|e0|r k] eqn:E; try contradiction.
    rewrite (resume_waiting A user _ r k x E) in Hc, Ho.
    assert (E' : outcome (run user (try_catch p h) s) =
                 Waiting r (fun x => try_catch (k x) h))
      by (rewrite run_try_catch, E; reflexivity).
    rewrite E'. rewrite (resume_waiting A user _ _ _ x E').
    apply consumes_after. apply consumes_after in Hc.
    rewrite settle_all_after in Ho. cbn [after outcome final] in Ho.
    replace (final (run user (try_catch p h) s)) with (final (run user p s))
      by (rewrite (run_try_catch A p), E; reflexivity).
    apply IH; assumption.
Qed.

(** *** Rendering the pages *)

Lemma int_to_string_inj (a b : Z) :
  Number.int_to_string a = Number.int_to_string b -> a = b.
Proof.
  intros E. pose proof (parseInt_int_to_string a) as Ha.
  rewrite E, parseInt_int_to_string in Ha. congruence.
Qed.

Lemma page_wrapper_id_inj (a b : Z) :
  page_wrapper_id a = page_wrapper_id b -> a = b.
Proof.
  unfold page_wrapper_id. intros E. apply app_inv_head in E.
  apply int_to_string_inj, E.
Qed.

Lemma add_text_layer_other (id : jsstring) (l : list PageWrapper) :
  Forall (fun w => wrapper_id w <> id) l -> map (add_text_layer id) l = l.
Proof.
  induction 1 as [|w l Hw Hl IH]; cbn; [reflexivity|].
  rewrite IH. unfold add_text_layer.
  destruct (JsString.eqb (wrapper_id w) id) eqn:E; [|reflexivity].
  apply eqb_eq in E. contradiction.
Qed.

Lemma eqb_refl (a : jsstring) : JsString.eqb a a = true.
Proof. apply eqb_eq. reflexivity. Qed.

(** The state one page leaves. *)
Lemma render_page_settled (k : Z) (fate : PageFate) (s : State) :
  Forall (fun w => wrapper_id w <> page_wrapper_id k)
         (viewerContainer (viewer s)) ->
  consumes no_dialog (page_replies fate) (run no_dialog (render_page k) s) /\
  settle_all no_dialog (page_replies fate) (run no_dialog (render_page k) s) =
    {| final :=
         match page_result k fate with
         | [] => s
         | added =>
             set_observed (observed (viewer s) ++ map wrapper_id added)
               (set_viewerContainer (viewerContainer (viewer s) ++ added) s)
         end;
       effects := page_effects k fate;
       spawned := [];
       outcome := Returned tt |}.
Proof.
  intros Hfresh.
  assert (Hmap :
    map (add_text_layer (page_wrapper_id k))
        (viewerContainer (viewer s) ++ [page_wrapper k [Canvas]]) =
    viewerContainer (viewer s) ++ [page_wrapper k [Canvas; TextLayer]]).
  { rewrite map_app, add_text_layer_other by exact Hfresh.
    cbn [map]. unfold add_text_layer. cbn [wrapper_id page_wrapper].
    rewrite eqb_refl. reflexivity. }
  destruct fate; (split; [cbn; exact Logic.I|]);
    unfold settle_all, resume, after; cbn; try reflexivity;
    unfold page_wrapper in Hmap; cbn in Hmap; rewrite Hmap; reflexivity.
Qed.

Lemma with_pages_nil (s : State) : with_pages [] s = s.
Proof.
  destruct s as [v [c o n m l] p d b]. unfold with_pages. cbn.
  rewrite !app_nil_r. reflexivity.
Qed.

Lemma with_pages_app (a b : list PageWrapper) (s : State) :
  with_pages b (with_pages a s) = with_pages (a ++ b) s.
Proof.
  unfold with_pages. cbn. rewrite map_app, !app_assoc. reflexivity.
Qed.

Lemma page_result_ids (k : Z) (fate : PageFate) :
  Forall (fun w => wrapper_id w = page_wrapper_id k) (page_result k fate).
Proof. destruct fate; repeat constructor. Qed.

(** The loop over the pages [k], [k + 1], ... up to [totalPages]. *)
Lemma render_pages_settled (fates : list PageFate) :
  forall k s count,
    totalPages (vars s) = k + Z.of_nat (List.length fates) - 1 ->
    (List.length fates <= count)%nat ->
    Forall (fun w => exists j, j < k /\ wrapper_id w = page_wrapper_id j)
           (viewerContainer (viewer s)) ->
    consumes no_dialog (flat_map page_replies fates)
             (run no_dialog (render_pages count k) s) /\
    settle_all no_dialog (flat_map page_replies fates)
               (run no_dialog (render_pages count k) s) =
      {| final := with_pages (pages_result k fates) s;
         effects := pages_effects k fates;
         spawned := [];
         outcome := Returned tt |}.
Proof.
  induction fates as [|fate fates IH]; intros k s count Htotal Hcount Hids.
  - cbn [List.length Z.of_nat] in Htotal.
    assert (Hrun : run no_dialog (render_pages count k) s =
                   {| final := s; effects := []; spawned := [];
                      outcome := Returned tt |}).
    { destruct count as [|count]; [reflexivity|].
      cbn [render_pages bind get_state run].
      destruct (Z.leb_spec k (totalPages (vars s))) as [Hle|_]; [lia|].
      reflexivity. }
    rewrite Hrun. unfold pages_result, pages_effects.
    cbn [flat_map numbered]. rewrite with_pages_nil. split; [exact Logic.I|].
    reflexivity.
  - destruct count as [|count]; [cbn in Hcount; lia|].
    cbn [List.length] in Htotal, Hcount.
    assert (Hrun : run no_dialog (render_pages (S count) k) s =
                   run no_dialog
                     (render_page k ;; render_pages count (k + 1)) s).
    { cbn [render_pages]. cbn [bind get_state run].
      destruct (Z.leb_spec k (totalPages (vars s))) as [_|Hlt]; [reflexivity|].
      lia. }
    rewrite Hrun. cbn [flat_map].
    assert (Hfresh : Forall (fun w => wrapper_id w <> page_wrapper_id k)
                            (viewerContainer (viewer s))).
    { eapply Forall_impl; [|exact Hids]. intros w (j & Hj & E) E'.
      rewrite E in E'. apply page_wrapper_id_inj in E'. lia. }
    destruct (render_page_settled k fate s Hfresh) as [Hc1 Hs1].
    assert (Hfinal :
      final (settle_all no_dialog (page_replies fate)
               (run no_dialog (render_page k) s)) =
      with_pages (page_result k fate) s).
    { rewrite Hs1. cbn [final].
      destruct (page_result k fate) eqn:E; [|reflexivity].
      rewrite with_pages_nil. reflexivity. }
    destruct (IH (k + 1) (with_pages (page_result k fate) s) count)
      as [Hc2 Hs2].
    { cbn. lia. }
    { lia. }
    { cbn. apply Forall_app. split.
      - eapply Forall_impl; [|exact Hids]. intros w (j & Hj & E).
        exists j. split; [lia|exact E].
      - eapply Forall_impl; [|apply page_result_ids]. intros w E.
        exists k. split; [lia|exact E]. }
    split.
    + apply consumes_bind; [exact Hc1|]. rewrite Hs1. cbn [outcome].
      rewrite Hs1 in Hfinal. cbn [final] in Hfinal |- *. rewrite Hfinal.
      exact Hc2.
    + rewrite <- (after_nil _ (run no_dialog
                                 (render_page k ;; render_pages count (k + 1)) s)).
      rewrite (settle_bind_returned unit unit _ no_dialog _ _ _ _ [] [] tt Hc1)
        by (rewrite Hs1; reflexivity).
      rewrite Hfinal, Hs2, Hs1. unfold after. cbn [final effects spawned outcome].
      rewrite with_pages_app. reflexivity.
Qed.

(** X1: [renderAllPages] goes through every page of the document
    whatever goes wrong with a page.  For a document of [length fates]
    pages, where [fates] tells for each page which of its four awaited
    operations is rejected, if any: the loop awaits exactly the replies of
    these operations and returns; a page whose [getPage] is rejected leaves
    nothing, every other page leaves its wrapper, in page order, with the
    text layer if [getTextContent] resolved; the observer watches exactly
    these wrappers; each failed page is reported once on the console and
    nothing else on the page changes. *)
Theorem renderAllPages_survives_page_errors (fates : list PageFate)
  (s : State) :
  totalPages (vars s) = Z.of_nat (List.length fates) ->
  let replies := flat_map page_replies fates in
  let t := settle_all no_dialog replies (run no_dialog renderAllPages s) in
  consumes no_dialog replies (run no_dialog renderAllPages s) /\
  t = {| final :=
           with_pages (pages_result 1 fates)
             (set_observed [] (set_viewerContainer [] s));
         effects := pages_effects 1 fates;
         spawned := [];
         outcome := Returned tt |} /\
  viewerContainer (viewer (final t)) = pages_result 1 fates /\
  observed (viewer (final t)) = map wrapper_id (pages_result 1 fates).
Proof.
  intros Htotal replies t.
  assert (Hrun : run no_dialog renderAllPages s =
                 run no_dialog
                   (render_pages (Z.to_nat (totalPages (vars s))) 1)
                   (set_observed [] (set_viewerContainer [] s)))
    by reflexivity.
  destruct (render_pages_settled fates 1
              (set_observed [] (set_viewerContainer [] s))
              (Z.to_nat (totalPages (vars s)))) as [Hc Hs].
  - change (totalPages (vars s) = 1 + Z.of_nat (List.length fates) - 1). lia.
  - rewrite Htotal. lia.
  - cbn. constructor.
  - subst t replies. rewrite Hrun. split; [exact Hc|].
    split; [exact Hs|]. rewrite Hs. split; reflexivity.
Qed.

(** X2: [loadPdf] from start to end.  When the document arrives with
    [length fates] pages, the page count is stored and shown, the pages are
    rendered as [renderAllPages] does, whatever their fates, and then the
    selection listener is added to the viewer, once; no message is shown.
    When the document is rejected, the error is logged, the message
    "Could not load PDF file." is shown, and the page is left as it was:
    no page, no listener. *)
Theorem loadPdf_settled (pdfUrl : jsstring) (fates : list PageFate)
  (s : State) :
  let n := Z.of_nat (List.length fates) in
  settle_all no_dialog (PdfDocument n :: flat_map page_replies fates)
             (run no_dialog (loadPdf pdfUrl) s) =
    {| final :=
         set_mouseupListeners (S (mouseupListeners (viewer s)))
           (with_pages (pages_result 1 fates)
              (set_observed []
                 (set_viewerContainer []
                    (set_pageCountDisplay (Number.int_to_string n)
                       (set_totalPages n (set_pdfDoc (Some n) s))))));
       effects :=
         ConsoleLog ($"Loading PDF from URL: " ++ pdfUrl) ::
         Request (GetDocument pdfUrl) :: pages_effects 1 fates;
       spawned := [];
       outcome := Returned tt |} /\
  settle_all no_dialog [Rejected] (run no_dialog (loadPdf pdfUrl) s) =
    {| final := s;
       effects :=
         [ConsoleLog ($"Loading PDF from URL: " ++ pdfUrl);
          Request (GetDocument pdfUrl);
          ConsoleError Rejection;
          Alert $"Could not load PDF file."];
       spawned := [];
       outcome := Returned tt |}.
Proof.
  intros n. split; [|reflexivity].
  set (s3 := set_observed []
               (set_viewerContainer []
                  (set_pageCountDisplay (Number.int_to_string n)
                     (set_totalPages n (set_pdfDoc (Some n) s))))).
  set (h := fun error : Exn =>
              console_error error ;; alert $"Could not load PDF file.").
  assert (Hresume :
    resume no_dialog (run no_dialog (loadPdf pdfUrl) s) (PdfDocument n) =
    after [ConsoleLog ($"Loading PDF from URL: " ++ pdfUrl);
           Request (GetDocument pdfUrl)] []
      (run no_dialog
         (try_catch (render_pages (Z.to_nat n) 1 ;; setupTextSelection) h)
         s3)) by reflexivity.
  rewrite settle_all_cons, Hresume.
  destruct (render_pages_settled fates 1 s3 (Z.to_nat n)) as [Hc Hs].
  { change (n = 1 + Z.of_nat (List.length fates) - 1). lia. }
  { lia. }
  { cbn. constructor. }
  assert (Hc' : consumes no_dialog (flat_map page_replies fates ++ [])
                  (run no_dialog
                     (render_pages (Z.to_nat n) 1 ;; setupTextSelection) s3)).
  { apply consumes_bind; [exact Hc|]. rewrite Hs. exact Logic.I. }
  assert (Hs' :
    settle_all no_dialog (flat_map page_replies fates ++ [])
      (run no_dialog (render_pages (Z.to_nat n) 1 ;; setupTextSelection) s3) =
    {| final :=
         set_mouseupListeners (S (mouseupListeners (viewer s)))
           (with_pages (pages_result 1 fates) s3);
       effects := pages_effects 1 fates;
       spawned := [];
       outcome := Returned tt |}).
  { rewrite <- (after_nil _ (run no_dialog
                  (render_pages (Z.to_nat n) 1 ;; setupTextSelection) s3)).
    rewrite (settle_bind_returned unit unit _ no_dialog _ _ _ _ [] [] tt Hc)
      by (rewrite Hs; reflexivity).
    rewrite Hs. unfold after. cbn. rewrite !app_nil_r. reflexivity. }
  rewrite app_nil_r in Hc', Hs'.
  rewrite <- (app_nil_r (flat_map page_replies fates)) at 1.
  rewrite (settle_try_catch_returned unit h no_dialog [] _ _ _ _ _ tt Hc')
    by (rewrite Hs'; reflexivity).
  rewrite Hs'. reflexivity.
Qed.

(** *** The observer and the indicator *)

(** X3: the observer callback takes the page of the last intersecting
    entry of a report.  When the last entry of a report is the wrapper
    [renderAllPages] made for page [k], intersecting, the callback ends
    with [currentPageNum] equal to [k] and the indicator showing [k],
    whatever the entries before it, and it changes nothing else: the id
    [page-wrapper-k] is read back as the number [k]. *)
Theorem pageObserver_last_entry_wins (entries : list Entry) (k : Z) :
  1 <= k ->
  forall s,
    call no_dialog
      (pageObserver
         (entries ++ [{| target := page_wrapper_id k;
                         isIntersecting := true |}])) s =
      {| step_state :=
           set_pageNumDisplay (Number.int_to_string k)
             (set_currentPageNum (Int k) s);
         step_effects := [];
         step_tasks := [] |}.
Proof.
  intros Hk.
  assert (Ht : Value.truthy (VNum (Int k)) = true).
  { cbn. destruct (Z.eqb_spec k 0); [lia|reflexivity]. }
  induction entries as [|e entries IH]; intros s.
  - unfold call, pageObserver. cbn [app for_each].
    unfold pageObserver_entry. cbn [isIntersecting target].
    rewrite page_of_wrapper_id, Ht by lia. reflexivity.
  - unfold call, pageObserver in *. cbn [app for_each].
    destruct (isIntersecting e &&
              Value.truthy (VNum (page_of_id (target e)))) eqn:E.
    + apply andb_true_iff in E. destruct E as [Ei Et].
      assert (Hrun : forall rest,
        run no_dialog
          (pageObserver_entry e ;; for_each rest pageObserver_entry) s =
        run no_dialog (for_each rest pageObserver_entry)
          (set_pageNumDisplay (Number.to_string (page_of_id (target e)))
             (set_currentPageNum (page_of_id (target e)) s))).
      { intros rest. unfold pageObserver_entry. rewrite Ei.
        cbv zeta. rewrite Et. reflexivity. }
      rewrite Hrun, IH. reflexivity.
    + assert (Hrun : forall rest,
        run no_dialog
          (pageObserver_entry e ;; for_each rest pageObserver_entry) s =
        run no_dialog (for_each rest pageObserver_entry) s).
      { intros rest. unfold pageObserver_entry.
        destruct (isIntersecting e); [|reflexivity].
        cbv zeta. cbn [andb] in E. rewrite E. reflexivity. }
      rewrite Hrun, IH. reflexivity.
Qed.

Ltac offstage := unfold Offstage; repeat safe_step.

Lemma Offstage_fetchAnnotations layerId :
  Offstage unit (fetchAnnotations layerId).
Proof. unfold fetchAnnotations, renderAnnotations, annotation_card. offstage. Qed.

Lemma Offstage_fetchLayers : Offstage unit fetchLayers.
Proof. unfold fetchLayers, layer_option. offstage. Qed.

Lemma Offstage_render_pages (count : nat) :
  forall k, Offstage unit (render_pages count k).
Proof.
  induction count as [|count IH]; intros k; cbn [render_pages]; [offstage|].
  unfold Offstage in *. apply Safe_get_state. intros s _.
  destruct (k <=? totalPages (vars s)); [|offstage].
  apply Safe_bind; [unfold render_page; offstage|]. intros _. apply IH.
Qed.

Lemma Offstage_loadPdf pdfUrl : Offstage unit (loadPdf pdfUrl).
Proof.
  unfold Offstage, loadPdf, renderAllPages, setupTextSelection, alert,
    console_error.
  apply Safe_bind; [apply Safe_emit|]. intros _.
  apply Safe_try_catch; [|offstage].
  apply Safe_bind; [apply Safe_await|]. intros [|ok body|n|]; try offstage.
  apply Offstage_render_pages.
Qed.

Lemma handler_offstage (ev : Event) (w : World) :
  match ev with
  | Intersect _ | Settle _ _ => True
  | _ => Offstage unit (snd (handler ev w))
  end.
Proof.
  destruct ev as [entries|selection|text|text|i|i| |i answer| | | | | | |
                 |i reply]; cbn [handler snd]; try exact Logic.I.
  - unfold viewerArea_mouseup. offstage.
  - offstage.
  - offstage.
  - offstage.
  - destruct (choose i (layerSelect (panel (state w)))); [|offstage].
    unfold Offstage. apply Safe_bind; [offstage|]. intros _.
    apply Offstage_fetchAnnotations.
  - unfold saveAnnotation, alert, console_error, spawn. offstage.
    apply Offstage_fetchAnnotations.
  - unfold deleteAnnotation, confirm. offstage.
  - unfold openCreateLayerModal, group_option, alert, console_error. offstage.
  - unfold confirmLayerBtn_onclick, alert, console_error, spawn. offstage;
      first [apply Offstage_fetchLayers | apply Offstage_fetchAnnotations].
  - unfold cancelLayerBtn_onclick. offstage.
  - unfold createLayerModal_click. offstage.
  - unfold askAiToExplain, alert, console_error. offstage.
  - unfold prevPageBtn_click, scroll_to_page. offstage.
  - unfold nextPageBtn_click, scroll_to_page. offstage.
Qed.

Lemma indicator_ok_view (host s s' : State) :
  indicator_view s' = indicator_view s ->
  indicator_ok host s -> indicator_ok host s'.
Proof.
  unfold indicator_view, indicator_ok. intros E. injection E as E1 E2.
  rewrite E1, E2. auto.
Qed.

Lemma call_offstage (p : Prog unit) :
  Offstage unit p ->
  forall user s,
    indicator_view (step_state (call user p s)) = indicator_view s /\
    Forall (SafeTask (fun _ => True) keeps_indicator)
           (step_tasks (call user p s)).
Proof.
  intros Hp user s.
  destruct (call_safe (fun _ => True) keeps_indicator
              (fun a b => indicator_view b = indicator_view a)) with
    (p := p) (user := user) (s := s) as (_ & H2 & H3); auto.
  intros a b c Hab Hbc. congruence.
Qed.

Lemma pageObserver_indicator (host : State) (entries : list Entry) :
  forall s,
    indicator_ok host s ->
    indicator_ok host (step_state (call no_dialog (pageObserver entries) s)) /\
    step_tasks (call no_dialog (pageObserver entries) s) = [].
Proof.
  induction entries as [|e entries IH]; intros s Hs; [auto|].
  unfold call, pageObserver in *. cbn [for_each].
  destruct (isIntersecting e &&
            Value.truthy (VNum (page_of_id (target e)))) eqn:E.
  - apply andb_true_iff in E. destruct E as [Ei Et].
    assert (Hrun :
      run no_dialog
        (pageObserver_entry e ;; for_each entries pageObserver_entry) s =
      run no_dialog (for_each entries pageObserver_entry)
        (set_pageNumDisplay (Number.to_string (page_of_id (target e)))
           (set_currentPageNum (page_of_id (target e)) s))).
    { unfold pageObserver_entry. rewrite Ei. cbv zeta. rewrite Et.
      reflexivity. }
    rewrite Hrun. apply IH. right. reflexivity.
  - assert (Hrun :
      run no_dialog
        (pageObserver_entry e ;; for_each entries pageObserver_entry) s =
      run no_dialog (for_each entries pageObserver_entry) s).
    { unfold pageObserver_entry. destruct (isIntersecting e); [|reflexivity].
      cbv zeta. cbn [andb] in E. rewrite E. reflexivity. }
    rewrite Hrun. apply IH. exact Hs.
Qed.

Lemma boot_offstage (host : State) :
  indicator_ok host (state (boot host)) /\
  Forall (SafeTask (fun _ => True) keeps_indicator) (pending (boot host)).
Proof.
  unfold boot. cbn [state pending].
  destruct (call_offstage init) with (user := no_dialog)
                                     (s := initial_state host) as [H1 H2].
  - unfold Offstage, init, spawn.
    apply Safe_bind; [|intros _].
    + constructor; [apply Offstage_fetchLayers|constructor].
    + constructor; [apply Offstage_loadPdf|constructor].
  - split; [|exact H2].
    apply (indicator_ok_view host (initial_state host)); [exact H1|].
    left. split; reflexivity.
Qed.

Lemma step_offstage (host : State) (w : World) (ev : Event) :
  indicator_ok host (state w) ->
  Forall (SafeTask (fun _ => True) keeps_indicator) (pending w) ->
  event_ok w ev = true ->
  indicator_ok host (state (step ev w)) /\
  Forall (SafeTask (fun _ => True) keeps_indicator) (pending (step ev w)).
Proof.
  intros Hs Hw Hev. rewrite step_unfold. cbn [state pending].
  pose proof (handler_offstage ev w) as Hh.
  destruct ev as [entries|selection|text|text|i|i| |i answer| | | | | | |
                 |i reply];
    try (match goal with
         | |- context [call ?u ?p (state w)] =>
             destruct (call_offstage p Hh u (state w)) as [H1 H2]
         end;
         split; [exact (indicator_ok_view host _ _ H1 Hs)|];
         apply Forall_app; split; [exact Hw|exact H2]).
  - cbn [handler fst snd].
    destruct (pageObserver_indicator host entries (state w) Hs) as [H1 H2].
    split; [exact H1|]. rewrite H2, app_nil_r. exact Hw.
  - cbn [handler fst snd event_ok] in *.
    destruct (nth_error (pending w) i) as [t|] eqn:Hi; [|discriminate].
    pose proof (Forall_nth_error _ _ _ _ _ Hw Hi reply Hev) as Hsafe.
    destruct (call_offstage _ Hsafe no_dialog (state w)) as [H1 H2].
    split; [exact (indicator_ok_view host _ _ H1 Hs)|].
    apply Forall_app. split; [apply Forall_remove_nth, Hw|exact H2].
Qed.

(** X4: the page indicator never disagrees with the page a note is
    filed under.  In every state the page reaches from start-up, through
    any events the environment may deliver, the indicator shows
    [currentPageNum]; the only exception is the time before the observer
    has reported a page, when [currentPageNum] is 1 and the indicator
    still shows the text of the hosting page. *)
Theorem pageNumDisplay_shows_current_page (host : State) (evs : list Event) :
  trace_ok evs (boot host) = true ->
  indicator_ok host (state (steps evs (boot host))).
Proof.
  destruct (boot_offstage host) as [H1 H2].
  revert H1 H2. generalize (boot host).
  induction evs as [|ev evs IH]; intros w Hs Hw Hok; [exact Hs|].
  cbn [trace_ok] in Hok. apply andb_true_iff in Hok. destruct Hok as [Hev Hrest].
  destruct (step_offstage host w ev Hs Hw Hev) as [H1 H2].
  cbn [steps fold_left]. apply IH; assumption.
Qed.

(** *** The list of layers *)

Lemma get_prop (name : jsstring) (v : Val) :
  has_properties v = true -> Value.get name v = Some (prop name v).
Proof.
  unfold prop. destruct v; cbn; intros H; try reflexivity; discriminate.
Qed.

(** The loop that appends one option per layer. *)
Lemma layer_options_run (layers : list Val) :
  Forall (fun v => has_properties v = true) layers ->
  forall sel s,
    run no_dialog (for_each layers layer_option) (set_layerSelect sel s) =
      {| final :=
           set_layerSelect
             {| options := options sel ++ map layer_as_option layers;
                selectedIndex := selectedIndex sel |} s;
         effects := []; spawned := []; outcome := Returned tt |}.
Proof.
  induction 1 as [|layer layers Hl Hls IH]; intros sel s.
  - cbn. rewrite app_nil_r. destruct sel. reflexivity.
  - cbn [for_each map].
    assert (Hrun :
      run no_dialog (layer_option layer ;; for_each layers layer_option)
          (set_layerSelect sel s) =
      run no_dialog (for_each layers layer_option)
          (set_layerSelect (Dom.append_option (layer_as_option layer) sel) s)).
    { unfold layer_option.
      rewrite !(get_prop _ layer Hl). reflexivity. }
    rewrite Hrun, IH. cbn. rewrite <- app_assoc. reflexivity.
Qed.



(** *** Cards *)

(** One annotation that can be rendered appends one card. *)
Lemma card_run (annotation : Val) :
  renderable annotation = true ->
  exists c,
    card_shows CURRENT_USER_ID annotation c /\
    forall (rest : Prog unit) l s,
      run no_dialog (annotation_card annotation ;; rest)
          (set_annotationList l s) =
      run no_dialog rest (set_annotationList (l ++ [CardNode c]) s).
Proof.
  unfold renderable. intros Hr.
  destruct annotation as [| |b|n|x|items|fields]; try discriminate.
  cbn [Value.get] in Hr.
  destruct (Value.lookup $"content" fields) as [| |b|n|x|items|fs] eqn:Ec;
    try discriminate.
  - eexists. split; cycle 1.
    + intros rest l s. unfold annotation_card. cbn [Value.get or_type_error bind].
      rewrite Ec. reflexivity.
    + unfold card_shows, prop. cbn [Value.get]. rewrite Ec.
      repeat split; try reflexivity; cbn [card_quote];
        destruct (Value.truthy (Value.lookup $"highlighted_text" fields));
        intros; congruence.
  - eexists. split; cycle 1.
    + intros rest l s. unfold annotation_card. cbn [Value.get or_type_error bind].
      rewrite Ec. reflexivity.
    + unfold card_shows, prop. cbn [Value.get]. rewrite Ec.
      repeat split; try reflexivity; cbn [card_quote];
        destruct (Value.truthy (Value.lookup $"highlighted_text" fields));
        intros; congruence.
Qed.

(** One that cannot throws before anything is appended. *)
Lemma card_throws (annotation : Val) :
  renderable annotation = false ->
  forall (rest : Prog unit) s,
    run no_dialog (annotation_card annotation ;; rest) s =
      {| final := s; effects := []; spawned := [];
         outcome := Thrown TypeError |}.
Proof.
  unfold renderable. intros Hr rest s.
  destruct annotation as [| |b|n|x|items|fields]; try reflexivity.
  cbn [Value.get] in Hr. unfold annotation_card.
  cbn [Value.get or_type_error bind].
  destruct (Value.lookup $"content" fields) as [| |b|n|x|items|fs] eqn:Ec;
    try discriminate; reflexivity.
Qed.

(** The loop over the annotations: one card for each, up to the first
    that cannot be rendered, where the loop throws. *)
Lemma cards_run (items : list Val) :
  exists good cards stop,
    Forall2 (card_shows CURRENT_USER_ID) good cards /\
    match stop with
    | None => items = good
    | Some (bad, rest) => items = good ++ bad :: rest /\ renderable bad = false
    end /\
    forall l s,
      run no_dialog (for_each items annotation_card) (set_annotationList l s) =
        {| final := set_annotationList (l ++ map CardNode cards) s;
           effects := []; spawned := [];
           outcome := match stop with
                      | None => Returned tt
                      | Some _ => Thrown TypeError
                      end |}.
Proof.
  induction items as [|a items IH].
  - exists [], [], None. split; [constructor|]. split; [reflexivity|].
    intros l s. cbn. rewrite app_nil_r. reflexivity.
  - destruct (renderable a) eqn:Ha.
    + destruct (card_run a Ha) as (c & Hc & Hrun).
      destruct IH as (good & cards & stop & Hgood & Hstop & Hrest).
      exists (a :: good), (c :: cards), stop.
      split; [constructor; assumption|]. split.
      * destruct stop as [[bad rest]|]; [|congruence].
        destruct Hstop as [E Hbad]. split; [rewrite E; reflexivity|exact Hbad].
      * intros l s. cbn [for_each]. rewrite Hrun, Hrest. cbn [map].
        rewrite <- app_assoc. reflexivity.
    + exists [], [], (Some (a, items)).
      split; [constructor|]. split; [auto|].
      intros l s. cbn [for_each]. rewrite card_throws by exact Ha.
      cbn. rewrite app_nil_r. reflexivity.
Qed.

Lemma renderAnnotations_array (a : Val) (items : list Val) (s : State) :
  run no_dialog (renderAnnotations (VArr (a :: items))) s =
  run no_dialog (for_each (a :: items) annotation_card)
      (set_annotationList [] s).
Proof. reflexivity. Qed.


Lemma own_delete_shown (items : list Val) (a : Val) (c : Card) :
  In a items -> card_shows CURRENT_USER_ID a c ->
  own_delete CURRENT_USER_ID items (CardNode c).
Proof.
  intros Hin (_ & _ & _ & Hdel & _) id Hid. rewrite Hdel in Hid.
  destruct (Value.strict_eq (prop $"author_id" a) CURRENT_USER_ID) eqn:E;
    [|discriminate].
  exists a. injection Hid as <-. auto.
Qed.

(** X7: whatever the backend sends as the list of annotations, an array
    or not, complete or not, no card of the list [renderAnnotations]
    leaves offers deletion of another reader's note: a card has a delete
    button only if it was made from an annotation of the array whose
    author is the current user, and the button carries that annotation's
    id. *)
Theorem renderAnnotations_own_delete_only (annotations : Val) (s : State) :
  Forall (own_delete CURRENT_USER_ID (items_of annotations))
    (annotationList
       (panel (final (run no_dialog (renderAnnotations annotations) s)))).
Proof.
  destruct annotations as [| |b|n|x|items|fields];
    try (cbn; constructor; fail).
  - destruct x; cbn; repeat constructor.
  - destruct items as [|a items]; [cbn; repeat constructor|].
    rewrite renderAnnotations_array.
    destruct (cards_run (a :: items))
      as (good & cards & stop & Hgood & Hstop & Hrun).
    rewrite Hrun. cbn [final panel set_annotationList on_panel annotationList app].
    unfold items_of. cbn [array_items].
    assert (Hsub : forall x, In x good -> In x (a :: items)).
    { destruct stop as [[bad rest]|]; [|subst good; auto].
      destruct Hstop as [E _]. intros x Hx. rewrite E.
      apply in_or_app. left. exact Hx. }
    clear Hrun Hstop. induction Hgood as [|g c good cards Hc Hrest IH];
      cbn [map]; constructor.
    + apply (own_delete_shown _ g); [apply Hsub; left; reflexivity|exact Hc].
    + apply IH. intros x Hx. apply Hsub. right. exact Hx.
  - cbn. destruct (Value.strict_eq _ _); cbn; repeat constructor.
Qed.

(** What [renderAnnotations] leaves is a function of the annotations
    alone, and only the list changes. *)
Lemma renderAnnotations_nodes (annotations : Val) :
  exists nodes o,
    (o = Returned tt \/ o = Thrown TypeError) /\
    forall s,
      run no_dialog (renderAnnotations annotations) s =
        {| final := set_annotationList nodes s;
           effects := []; spawned := []; outcome := o |}.
Proof.
  destruct annotations as [| |b|n|x|items|fields];
    try (eexists; eexists; split; [|intros s; reflexivity]; auto).
  - destruct x; eexists; eexists; (split; [|intros s; reflexivity]); auto.
  - destruct items as [|a items];
      [eexists; eexists; split; [|intros s; reflexivity]; auto|].
    destruct (cards_run (a :: items))
      as (good & cards & stop & Hgood & Hstop & Hrun).
    eexists. eexists. split; cycle 1.
    + intros s. rewrite renderAnnotations_array, Hrun. reflexivity.
    + destruct stop; auto.
  - unfold renderAnnotations. cbn [length_is_zero or_type_error bind].
    destruct (Value.strict_eq _ _); eexists; eexists;
      (split; [|intros s; reflexivity]); auto.
Qed.


(** *** Requesting the annotations of a layer *)

Lemma fetchAnnotations_run (layerId : Val) (s : State) :
  Value.truthy layerId = true ->
  run no_dialog (fetchAnnotations layerId) s =
    {| final := set_annotationList [Paragraph $"Loading..."]
                  (set_currentLayerId layerId s);
       effects :=
         [Request (Fetch ($"/api/layer/" ++ Value.to_string layerId ++
                          $"/annotations") GET None)];
       spawned := [];
       outcome :=
         Waiting (Fetch ($"/api/layer/" ++ Value.to_string layerId ++
                         $"/annotations") GET None)
           (fun x =>
              try_catch
                (response <- (x0 <- match x with
                                    | Rejected => Throw Rejection
                                    | _ => Ret x
                                    end ;;
                              match x0 with
                              | Response ok b => ret (ok, b)
                              | _ => Throw Rejection
                              end) ;;
                 annotations <- json (snd response) ;;
                 renderAnnotations annotations)
                (fun error => console_error error)) |}.
Proof. intros H. unfold fetchAnnotations. rewrite H. reflexivity. Qed.

(** X8: [fetchAnnotations] when the annotations do not come as
    an array.  The call has replaced the list by "Loading..." when it
    suspends.  If the reply cannot be read (rejected fetch, body not
    JSON) the page is left as it is, so the list goes on showing
    "Loading..."; if the body is a JSON value that is not an array and
    whose [length] is not 0 (an error record, say, of a response whose
    status is never looked at) the list is left empty.  In both cases
    the error is logged and the reader is shown no message. *)
Theorem fetchAnnotations_failures (layerId : Val) (s : State) :
  Value.truthy layerId = true ->
  exists k,
    outcome (run no_dialog (fetchAnnotations layerId) s) =
      Waiting (Fetch ($"/api/layer/" ++ Value.to_string layerId ++
                      $"/annotations") GET None) k /\
    annotationList (panel (final (run no_dialog (fetchAnnotations layerId) s))) =
      [Paragraph $"Loading..."] /\
    (forall reply s',
       unreadable reply = true ->
       exists e,
         call no_dialog (k reply) s' =
           {| step_state := s';
              step_effects := [ConsoleError e];
              step_tasks := [] |}) /\
    (forall ok body s',
       array_items body = None ->
       length_is_zero body <> Some true ->
       call no_dialog (k (Response ok (Some body))) s' =
         {| step_state := set_annotationList [] s';
            step_effects := [ConsoleError TypeError];
            step_tasks := [] |}).
Proof.
  intros Hid. rewrite fetchAnnotations_run by exact Hid.
  eexists. split; [reflexivity|]. split; [reflexivity|]. split.
  - intros reply s' Hbad.
    destruct reply as [|ok [body|]| |]; try discriminate;
      eexists; reflexivity.
  - intros ok body s' Harr Hlen. unfold call.
    destruct body as [| |b|n|x|items|fields]; try reflexivity.
    + destruct x; [cbn in Hlen; congruence|reflexivity].
    + discriminate.
    + cbn in Hlen |- *.
      destruct (Value.strict_eq _ _); [congruence|reflexivity].
Qed.


(** X10: a response is rendered whatever layer is current when it
    arrives.  The continuation of a request for the annotations of a
    layer, resumed in any state of the page, in particular one where
    another layer has been selected since, replaces the list by what
    [renderAnnotations] makes of the body and leaves every variable,
    [currentLayerId] included, as it finds it: of two requests in flight
    the response that arrives last decides what the list shows, while a
    save goes to the layer requested last. *)
Theorem fetchAnnotations_renders_any_response (layerId : Val) (s : State) :
  Value.truthy layerId = true ->
  exists k,
    outcome (run no_dialog (fetchAnnotations layerId) s) =
      Waiting (Fetch ($"/api/layer/" ++ Value.to_string layerId ++
                      $"/annotations") GET None) k /\
    forall ok annotations s',
      let r := call no_dialog (k (Response ok (Some annotations))) s' in
      step_state r =
        set_annotationList
          (annotationList
             (panel (final (run no_dialog (renderAnnotations annotations) s))))
          s' /\
      currentLayerId (vars (step_state r)) = currentLayerId (vars s') /\
      step_tasks r = [].
Proof.
  intros Hid. rewrite fetchAnnotations_run by exact Hid.
  eexists. split; [reflexivity|].
  intros ok annotations s'.
  destruct (renderAnnotations_nodes annotations) as (nodes & o & Ho & Hrun).
  unfold call.
  match goal with
  | |- context [run no_dialog ?p s'] =>
      assert (E : run no_dialog p s' =
                  run no_dialog
                    (try_catch (renderAnnotations annotations)
                               (fun error => console_error error)) s')
        by reflexivity;
      rewrite E
  end.
  rewrite run_try_catch, !Hrun. cbn [outcome final effects spawned].
  destruct Ho as [-> | ->]; cbn; auto.
Qed.

(** *** Saving and deleting: what goes wrong *)

(** X11: a save that fails loses nothing.  When the create
    request fails (the fetch is rejected or the response has a non-success
    status), in whatever state the page is by then, the error is logged,
    "Error saving note." is shown, and the page is left exactly as it is:
    the draft and the pending quote are kept and the list is not fetched
    again. *)
Theorem saveAnnotation_failure_keeps_draft (s : State) :
  JsString.trim (annotationTextarea (panel s)) <> [] ->
  Value.truthy (currentLayerId (vars s)) = true ->
  exists body k,
    outcome (run no_dialog saveAnnotation s) =
      Waiting (Fetch $"/api/annotation/new" POST (Some body)) k /\
    forall reply s',
      request_failed reply = true ->
      exists e,
        call no_dialog (k reply) s' =
          {| step_state := s';
             step_effects := [ConsoleError e; Alert $"Error saving note."];
             step_tasks := [] |}.
Proof.
  intros Hnote Hlayer. unfold saveAnnotation. cbn.
  destruct (JsString.trim (annotationTextarea (panel s))) as [|c note];
    [congruence|].
  cbn. rewrite Hlayer. cbn.
  eexists. eexists. split; [reflexivity|].
  intros reply s' Hfail.
  destruct reply as [|[|] b| |]; try discriminate; eexists; reflexivity.
Qed.

(** X12: the location a note is filed under is a page of the document.
    In every state the page reaches from start-up, a click on save with a
    note typed and a layer selected posts the pending quote and, as
    [position_data], the text "Page z" for the current page [z]; [z] is at
    least 1; once the document is there [z] is at most [totalPages] if
    the document has a page, and "Page 1" is posted if it has none. *)
Theorem saveAnnotation_posts_valid_page (host : State) (evs : list Event) :
  trace_ok evs (boot host) = true ->
  let w := steps evs (boot host) in
  JsString.trim (annotationTextarea (panel (state w))) <> [] ->
  layer_selected (state w) ->
  exists fields k z,
    step ClickSave w =
      {| state := state w;
         log := log w ++
                [Request (Fetch $"/api/annotation/new" POST
                            (Some (VObj fields)))];
         pending := pending w ++
                    [{| task_req := Fetch $"/api/annotation/new" POST
                                      (Some (VObj fields));
                        task_cont := k |}] |} /\
    currentPageNum (vars (state w)) = Int z /\
    Value.lookup $"highlighted_text" fields =
      VStr (currentHighlightedText (vars (state w))) /\
    Value.lookup $"position_data" fields =
      VStr ($"Page " ++ Number.int_to_string z) /\
    1 <= z /\
    (forall doc, pdfDoc (vars (state w)) = Some doc ->
       (1 <= totalPages (vars (state w)) ->
        z <= totalPages (vars (state w))) /\
       (totalPages (vars (state w)) < 1 -> z = 1)).
Proof.
  intros Hok w Hnote Hlayer.
  assert (Hw : WorldInv w) by (apply steps_inv; [apply boot_inv|exact Hok]).
  assert (Hpage : exists z,
            currentPageNum (vars (state w)) = Int z /\ 1 <= z /\
            (forall doc, pdfDoc (vars (state w)) = Some doc ->
               (1 <= totalPages (vars (state w)) ->
                z <= totalPages (vars (state w))) /\
               (totalPages (vars (state w)) < 1 -> z = 1))).
  { destruct Hw as [([n|] & HT & _) | ((Hdoc & _ & Hcur & _) & _)].
    - destruct HT as (Htotal & (z & Hz & Hzn) & _).
      exists z. rewrite Htotal. split; [exact Hz|]. split; [lia|].
      intros doc _. split; lia.
    - destruct HT as (Hdoc & _ & Hcur & _).
      exists 1. split; [exact Hcur|]. split; [lia|]. congruence.
    - exists 1. split; [exact Hcur|]. split; [lia|]. congruence. }
  destruct Hpage as (z & Hz & Hz1 & Hzn).
  rewrite step_unfold. cbn [handler fst snd]. unfold call, saveAnnotation.
  cbn [bind get_state run].
  destruct (JsString.trim (annotationTextarea (panel (state w))))
    as [|c note] eqn:Enote; [congruence|].
  unfold layer_selected in Hlayer.
  cbn [Value.truthy negb]. rewrite Hlayer, Hz. cbn [negb].
  unfold Value.stringify.
  destruct (Value.json (currentLayerId (vars (state w)))) as [j|] eqn:Ej.
  - cbn. rewrite Ej. cbn.
    eexists. eexists. exists z. split; [reflexivity|].
    split; [reflexivity|]. split; [reflexivity|]. split; [reflexivity|].
    split; [exact Hz1|exact Hzn].
  - destruct (currentLayerId (vars (state w))) as [| | |[|]| | |];
      discriminate.
Qed.

Lemma trimStart_white (text : jsstring) :
  forallb JsString.is_white text = true -> JsString.trimStart text = [].
Proof.
  induction text as [|c text IH]; cbn [forallb JsString.trimStart];
    [reflexivity|].
  intros H. apply andb_true_iff in H. destruct H as [Hc Ht].
  rewrite Hc. apply IH, Ht.
Qed.

Lemma trim_white (text : jsstring) :
  forallb JsString.is_white text = true -> JsString.trim text = [].
Proof.
  intros H. unfold JsString.trim, JsString.trimEnd.
  rewrite (trimStart_white text H). reflexivity.
Qed.

(** X13: input made of white space only counts as no input.  With
    nothing but spaces, tabs and line breaks in the note, save and Ask AI
    each show their message and do nothing else; with nothing but white
    space in the name, confirming the dialog shows "Please enter a name."
    and does nothing else: no request is issued and the page, the dialog
    included, is left as it is. *)
Theorem blank_input_is_refused (s : State) :
  (forallb JsString.is_white (annotationTextarea (panel s)) = true ->
   call no_dialog saveAnnotation s =
     {| step_state := s; step_effects := [Alert $"Please write a note."];
        step_tasks := [] |} /\
   call no_dialog askAiToExplain s =
     {| step_state := s;
        step_effects :=
          [Alert $"Please write a question or thought in the box first."];
        step_tasks := [] |}) /\
  (forallb JsString.is_white (newLayerNameInput (modal s)) = true ->
   call no_dialog confirmLayerBtn_onclick s =
     {| step_state := s; step_effects := [Alert $"Please enter a name."];
        step_tasks := [] |}).
Proof.
  split.
  - intros H. unfold call, saveAnnotation, askAiToExplain.
    cbn [bind get_state run]. rewrite (trim_white _ H). split; reflexivity.
  - intros H. unfold call, confirmLayerBtn_onclick.
    cbn [bind get_state run]. rewrite (trim_white _ H). reflexivity.
Qed.

(** *** The dialog that creates a layer: success *)

Lemma set_layerSelect_same (s : State) :
  set_layerSelect (layerSelect (panel s)) s = s.
Proof. destruct s as [v w [l a t] m b]. reflexivity. Qed.

(** The loop over the layers on any array: it returns, or throws at an
    element whose properties cannot be read, and touches the selector
    only. *)
Lemma layer_options_any (layers : list Val) :
  forall sel s,
    exists sel' o,
      (o = Returned tt \/ o = Thrown TypeError) /\
      run no_dialog (for_each layers layer_option) (set_layerSelect sel s) =
        {| final := set_layerSelect sel' s;
           effects := []; spawned := []; outcome := o |}.
Proof.
  induction layers as [|layer layers IH]; intros sel s.
  - exists sel, (Returned tt). split; [auto|reflexivity].
  - destruct (has_properties layer) eqn:Hl.
    + destruct (IH (Dom.append_option (layer_as_option layer) sel) s)
        as (sel' & o & Ho & Hrun).
      exists sel', o. split; [exact Ho|]. cbn [for_each]. rewrite <- Hrun.
      unfold layer_option. rewrite !(get_prop _ layer Hl). reflexivity.
    + exists sel, (Thrown TypeError). split; [auto|].
      destruct layer; try discriminate; reflexivity.
Qed.

(** [fetchLayers] after its request: with any reply that answers the
    request it returns, having touched nothing but the selector; it logs
    at most one error and shows no message. *)
Lemma fetchLayers_continuation :
  exists k,
    (forall s,
       run no_dialog fetchLayers s =
         {| final := s;
            effects :=
              [Request (Fetch ($"/api/book/" ++ Value.to_string EBOOK_ID ++
                               $"/layers") GET None)];
            spawned := [];
            outcome :=
              Waiting (Fetch ($"/api/book/" ++ Value.to_string EBOOK_ID ++
                              $"/layers") GET None) k |}) /\
    (forall reply s,
       match reply with Rejected | Response _ _ => True | _ => False end ->
       exists sel effs,
         run no_dialog (k reply) s =
           {| final := set_layerSelect sel s; effects := effs; spawned := [];
              outcome := Returned tt |} /\
         (effs = [] \/ exists e, effs = [ConsoleError e]) /\
         (unreadable reply = true -> sel = layerSelect (panel s))) /\
    (forall ok layers s,
       forallb has_properties layers = true ->
       run no_dialog (k (Response ok (Some (VArr layers)))) s =
         {| final :=
              set_layerSelect
                {| options :=
                     layer_placeholder ::
                     match layers with
                     | [] => [no_layers_placeholder]
                     | _ => []
                     end ++ map layer_as_option layers;
                   selectedIndex := Some O |} s;
            effects := []; spawned := []; outcome := Returned tt |}).
Proof.
  eexists. split; [intros s; reflexivity|].
  set (h := fun error : Exn => console_error error).
  assert (Harr : forall ok layers s,
    run no_dialog
      (try_catch
         (response <- (x0 <- Ret (Response ok (Some (VArr layers))) ;;
                       match x0 with
                       | Response ok b => ret (ok, b)
                       | _ => Throw Rejection
                       end) ;;
          layers <- json (snd response) ;;
          modify (set_layerSelect
                    {| options := [layer_placeholder];
                       selectedIndex := Some O |}) ;;
          empty <- or_type_error (length_is_zero layers) ;;
          (if empty : bool then
             modify (fun s => set_layerSelect
                                (Dom.append_option no_layers_placeholder
                                   (layerSelect (panel s))) s)
           else ret tt) ;;
          items <- or_type_error (array_items layers) ;;
          for_each items layer_option) h) s =
    run no_dialog (try_catch (for_each layers layer_option) h)
      (set_layerSelect
         {| options :=
              layer_placeholder ::
              match layers with
              | [] => [no_layers_placeholder]
              | _ => []
              end;
            selectedIndex := Some O |} s))
    by (intros ok layers s; destruct layers; reflexivity).
  split.
  - intros reply s Hreply.
    destruct reply as [|ok [body|]| |]; try contradiction.
    + exists (layerSelect (panel s)). eexists.
      rewrite set_layerSelect_same. split; [reflexivity|].
      split; [right; eexists; reflexivity|reflexivity].
    + destruct body as [| |b|n|x|layers|fields];
        try (eexists; eexists; split; [reflexivity|];
             split; [right; eexists; reflexivity|discriminate]).
      * destruct x;
          (eexists; eexists; split; [reflexivity|];
           split; [right; eexists; reflexivity|discriminate]).
      * change (run no_dialog _ s) with
          (run no_dialog
             (try_catch
                (response <- (x0 <- Ret (Response ok (Some (VArr layers))) ;;
                              match x0 with
                              | Response ok b => ret (ok, b)
                              | _ => Throw Rejection
                              end) ;;
                 layers <- json (snd response) ;;
                 modify (set_layerSelect
                           {| options := [layer_placeholder];
                              selectedIndex := Some O |}) ;;
                 empty <- or_type_error (length_is_zero layers) ;;
                 (if empty : bool then
                    modify (fun s => set_layerSelect
                                       (Dom.append_option no_layers_placeholder
                                          (layerSelect (panel s))) s)
                  else ret tt) ;;
                 items <- or_type_error (array_items layers) ;;
                 for_each items layer_option) h) s).
        rewrite Harr, run_try_catch.
        match goal with
        | |- context [run no_dialog (for_each layers layer_option)
                          (set_layerSelect ?sel s)] =>
            destruct (layer_options_any layers sel s)
              as (sel' & o & Ho & Hrun)
        end.
        rewrite Hrun. cbn [outcome final effects spawned].
        destruct Ho as [-> | ->].
        -- exists sel'. eexists. split; [reflexivity|].
           split; [left; reflexivity|discriminate].
        -- exists sel'. eexists. split; [reflexivity|].
           split; [right; eexists; reflexivity|discriminate].
      * cbn. destruct (Value.strict_eq _ _);
          (eexists; eexists; split; [reflexivity|];
           split; [right; eexists; reflexivity|discriminate]).
    + exists (layerSelect (panel s)). eexists.
      rewrite set_layerSelect_same. split; [reflexivity|].
      split; [right; eexists; reflexivity|reflexivity].
  - intros ok layers s Hrec.
    assert (Hall : Forall (fun v => has_properties v = true) layers)
      by (apply Forall_forall; rewrite forallb_forall in Hrec; exact Hrec).
    change (run no_dialog _ s) with
      (run no_dialog
         (try_catch
            (response <- (x0 <- Ret (Response ok (Some (VArr layers))) ;;
                          match x0 with
                          | Response ok b => ret (ok, b)
                          | _ => Throw Rejection
                          end) ;;
             layers <- json (snd response) ;;
             modify (set_layerSelect
                       {| options := [layer_placeholder];
                          selectedIndex := Some O |}) ;;
             empty <- or_type_error (length_is_zero layers) ;;
             (if empty : bool then
                modify (fun s => set_layerSelect
                                   (Dom.append_option no_layers_placeholder
                                      (layerSelect (panel s))) s)
              else ret tt) ;;
             items <- or_type_error (array_items layers) ;;
             for_each items layer_option) h) s).
    rewrite Harr, run_try_catch, layer_options_run by exact Hall.
    cbn. destruct layers; reflexivity.
Qed.



Lemma existsb_map_fun (A B : Type) (f : B -> bool) (g : A -> B) (l : list A) :
  existsb f (map g l) = existsb (fun x => f (g x)) l.
Proof.
  induction l as [|x l IH]; cbn; [reflexivity|]. rewrite IH. reflexivity.
Qed.

Lemma reply_ok_fetch (url : jsstring) (method : Method) (body : option Val)
  (reply : Reply) :
  reply_ok (Fetch url method body) reply = true ->
  match reply with Rejected | Response _ _ => True | _ => False end.
Proof. destruct reply; cbn; auto; discriminate. Qed.

(** X14: [fetchLayers] never fails and never speaks.  Whatever
    answers its request (a rejection, a body that is not JSON, any JSON
    value, an array with elements that are no records), the call returns
    with nothing left waiting, has changed nothing on the page but the
    selector, has logged at most one error and has shown no message.  When
    the reply cannot be read at all, the selector too is left as it was. *)
Theorem fetchLayers_never_fails (s : State) :
  exists k,
    outcome (run no_dialog fetchLayers s) =
      Waiting (Fetch ($"/api/book/" ++ Value.to_string EBOOK_ID ++
                      $"/layers") GET None) k /\
    forall reply s',
      reply_ok (Fetch ($"/api/book/" ++ Value.to_string EBOOK_ID ++
                       $"/layers") GET None) reply = true ->
      exists sel logged,
        call no_dialog (k reply) s' =
          {| step_state := set_layerSelect sel s';
             step_effects := logged;
             step_tasks := [] |} /\
        (logged = [] \/ exists e, logged = [ConsoleError e]) /\
        (unreadable reply = true -> sel = layerSelect (panel s')).
Proof.
  destruct fetchLayers_continuation as (k & Hrun & Hany & _).
  exists k. split; [rewrite Hrun; reflexivity|].
  intros reply s' Hreply. apply reply_ok_fetch in Hreply.
  destruct (Hany reply s' Hreply) as (sel & effs & Hk & Heffs & Hsel).
  exists sel, effs. unfold call. rewrite Hk. cbn. rewrite app_nil_r. auto.
Qed.

(** The confirm handler turn by turn once the creation has succeeded: it
    closes the dialog and has the layers fetched again; when these have
    been dealt with it waits for the body of the creation response; when
    that has settled it reads the new layer. *)
Lemma confirmLayerBtn_resumed (s : State) :
  JsString.trim (newLayerNameInput (modal s)) <> [] ->
  let layers_request :=
    Fetch ($"/api/book/" ++ Value.to_string EBOOK_ID ++ $"/layers")
          GET None in
  exists body k1,
    outcome (run no_dialog confirmLayerBtn_onclick s) =
      Waiting (Fetch $"/api/layer/new" POST (Some body)) k1 /\
    forall answer s1,
      exists k2,
        run no_dialog (k1 (Response true answer)) s1 =
          {| final := set_createLayerModal_display $"none" s1;
             effects := [Request layers_request];
             spawned := [];
             outcome := Waiting layers_request k2 |} /\
        forall reply s2,
          reply_ok layers_request reply = true ->
          exists sel logged k3,
            run no_dialog (k2 reply) s2 =
              {| final := set_layerSelect sel s2;
                 effects := logged ++ [Request (ReadJson answer)];
                 spawned := [];
                 outcome := Waiting (ReadJson answer) k3 |} /\
            (logged = [] \/ exists e, logged = [ConsoleError e]) /\
            (unreadable reply = true -> sel = layerSelect (panel s2)) /\
            (forall ok layers,
               reply = Response ok (Some (VArr layers)) ->
               forallb has_properties layers = true ->
               sel = {| options :=
                          layer_placeholder ::
                          match layers with
                          | [] => [no_layers_placeholder]
                          | _ => []
                          end ++ map layer_as_option layers;
                        selectedIndex := Some O |}) /\
            forall settled s3,
              run no_dialog (k3 settled) s3 =
              run no_dialog
                (try_catch
                   (match settled with
                    | Rejected => Throw Rejection
                    | _ =>
                        newLayer <- json answer ;;
                        id <- or_type_error (Value.get $"id" newLayer) ;;
                        modify (fun s => set_layerSelect
                                  (Dom.set_select_value (Value.to_string id)
                                     (layerSelect (panel s))) s) ;;
                        spawn (fetchAnnotations id)
                    end)
                   (fun error =>
                      console_error error ;; alert $"Error creating layer."))
                s3.
Proof.
  intros Hname layers_request.
  destruct fetchLayers_continuation as (kfl & Hfl & Hany & Harr).
  unfold confirmLayerBtn_onclick. cbn [bind get_state run].
  destruct (JsString.trim (newLayerNameInput (modal s))) as [|c name];
    [congruence|].
  cbn [Value.truthy negb].
  eexists. eexists. split; [reflexivity|].
  intros answer s1.
  set (h := fun error : Exn =>
              console_error error ;; alert $"Error creating layer.").
  set (rest := fun _ : unit =>
         newLayer <- read_json answer ;;
         id <- or_type_error (Value.get $"id" newLayer) ;;
         modify (fun s => set_layerSelect
                   (Dom.set_select_value (Value.to_string id)
                      (layerSelect (panel s))) s) ;;
         spawn (fetchAnnotations id)).
  match goal with
  | |- exists k2, run no_dialog ?p s1 = _ /\ _ =>
      assert (E1 : run no_dialog p s1 =
                   run no_dialog (try_catch (bind fetchLayers rest) h)
                       (set_createLayerModal_display $"none" s1))
        by reflexivity
  end.
  eexists. split.
  { rewrite E1, run_try_catch, run_bind, Hfl. reflexivity. }
  intros reply s2 Hreply. apply reply_ok_fetch in Hreply.
  destruct (Hany reply s2 Hreply) as (sel & effs & Hk & Heffs & Hunread).
  exists sel, effs. eexists. split.
  { rewrite run_try_catch, run_bind, Hk.
    cbn [outcome final effects spawned]. unfold rest, read_json, await.
    cbn [bind run after final effects spawned outcome].
    rewrite app_nil_r. reflexivity. }
  split; [exact Heffs|]. split; [exact Hunread|]. split.
  - intros ok layers -> Hrec.
    rewrite (Harr ok layers s2 Hrec) in Hk.
    apply (f_equal (fun t => layerSelect (panel (final t)))) in Hk.
    cbn in Hk. symmetry. exact Hk.
  - intros settled s3. destruct settled; reflexivity.
Qed.


(** X16: a creation whose answer cannot be read is reported as a failure
    after the fact.  When the creation request succeeds, whatever its
    body, the dialog is closed, the layers are requested again and, once
    that request is answered, the handler waits for the body of the
    creation response.  If reading the body fails, or the body is not
    JSON or is [null], then in whatever state the page is by then the
    error is logged and "Error creating layer." is shown, although the
    layer exists; the page is left as it is: no layer is made current and
    no annotations are requested. *)
Theorem confirmLayerBtn_created_unread (s : State) :
  JsString.trim (newLayerNameInput (modal s)) <> [] ->
  exists body k1,
    outcome (run no_dialog confirmLayerBtn_onclick s) =
      Waiting (Fetch $"/api/layer/new" POST (Some body)) k1 /\
    forall answer s1,
      let layers_request :=
        Fetch ($"/api/book/" ++ Value.to_string EBOOK_ID ++ $"/layers")
              GET None in
      exists k2,
        run no_dialog (k1 (Response true answer)) s1 =
          {| final := set_createLayerModal_display $"none" s1;
             effects := [Request layers_request];
             spawned := [];
             outcome := Waiting layers_request k2 |} /\
        forall reply s2,
          reply_ok layers_request reply = true ->
          exists sel logged k3,
            run no_dialog (k2 reply) s2 =
              {| final := set_layerSelect sel s2;
                 effects := logged ++ [Request (ReadJson answer)];
                 spawned := [];
                 outcome := Waiting (ReadJson answer) k3 |} /\
            (logged = [] \/ exists e, logged = [ConsoleError e]) /\
            forall settled s3,
              reply_ok (ReadJson answer) settled = true ->
              settled = Rejected \/ no_record answer = true ->
              exists e,
                call no_dialog (k3 settled) s3 =
                  {| step_state := s3;
                     step_effects :=
                       [ConsoleError e; Alert $"Error creating layer."];
                     step_tasks := [] |}.
Proof.
  intros Hname.
  destruct (confirmLayerBtn_resumed s Hname) as (body & k1 & Hrun & Hk1).
  exists body, k1. split; [exact Hrun|].
  intros answer s1 layers_request.
  destruct (Hk1 answer s1) as (k2 & Hk2 & Hnext).
  exists k2. split; [exact Hk2|].
  intros reply s2 Hreply.
  destruct (Hnext reply s2 Hreply)
    as (sel & logged & k3 & Hk3 & Hlogged & _ & _ & Hread).
  exists sel, logged, k3. split; [exact Hk3|]. split; [exact Hlogged|].
  intros settled s3 Hok Hbad. unfold call. rewrite Hread.
  destruct settled as [|ok b|n|]; try discriminate Hok.
  - eexists. reflexivity.
  - destruct Hbad as [Hbad|Hbad]; [discriminate|].
    destruct answer as [[| |b|n|x|items|fields]|]; try discriminate;
      eexists; reflexivity.
Qed.



(** *** Page navigation *)

(** X18: the previous and next buttons never leave the document.  In a
    viewer that holds wrappers of pages 1 to [n], as [renderAllPages]
    makes them, a click on page [z] asks for the wrapper of page
    [z + delta] ([delta] is -1 for previous, 1 for next): if that wrapper
    is in the viewer it is scrolled into view, and if [z + delta] is not a
    page of the document (previous on page 1, next on page [n]) nothing
    happens at all.  Either way the page, [currentPageNum] included, is
    left as it is: only the observer moves the current page. *)
Theorem scroll_to_page_within_document (n z delta : Z) (s : State) :
  Forall (fun w => exists k, 1 <= k <= n /\ wrapper_id w = page_wrapper_id k)
         (viewerContainer (viewer s)) ->
  currentPageNum (vars s) = Int z ->
  let r := call no_dialog (scroll_to_page delta) s in
  step_state r = s /\ step_tasks r = [] /\
  ((exists w, In w (viewerContainer (viewer s)) /\
              wrapper_id w = page_wrapper_id (z + delta)) ->
   step_effects r = [ScrollIntoView (page_wrapper_id (z + delta))]) /\
  (z + delta < 1 \/ n < z + delta -> step_effects r = []).
Proof.
  intros Hids Hz r. subst r. unfold call, scroll_to_page.
  cbn [bind get_state run]. rewrite Hz. cbn [num_add Number.to_string].
  change ($"page-wrapper-" ++ Number.int_to_string (z + delta))
    with (page_wrapper_id (z + delta)).
  destruct (has_wrapper (page_wrapper_id (z + delta)) s) eqn:Hw.
  - repeat split; auto.
    intros Hout. exfalso. unfold has_wrapper in Hw.
    apply existsb_exists in Hw. destruct Hw as (w & Hin & E).
    apply eqb_eq in E. rewrite Forall_forall in Hids.
    destruct (Hids w Hin) as (k & Hk & Ek). rewrite Ek in E.
    apply page_wrapper_id_inj in E. lia.
  - repeat split; auto.
    intros (w & Hin & E). exfalso.
    assert (Hex : has_wrapper (page_wrapper_id (z + delta)) s = true).
    { unfold has_wrapper. apply existsb_exists. exists w.
      split; [exact Hin|]. apply eqb_eq, E. }
    congruence.
Qed.

(** *** Deleting a note, on the running page *)















(** *** The selection listener *)

Lemma Bystander_bind (A B : Type) (p : Prog A) (f : A -> Prog B) :
  Bystander A p -> (forall a, Bystander B (f a)) -> Bystander B (bind p f).
Proof using.
  intros Hp Hf. induction Hp; cbn; try (constructor; auto; fail); auto.
Qed.

Lemma Bystander_try_catch (A : Type) (p : Prog A) (h : Exn -> Prog A) :
  Bystander A p -> (forall e, Bystander A (h e)) ->
  Bystander A (try_catch p h).
Proof using.
  intros Hp Hh. induction Hp; cbn; try (constructor; auto; fail); auto.
Qed.

Lemma Bystander_try_finally (A : Type) (p : Prog A) (f : Prog unit) :
  Bystander A p -> Bystander unit f -> Bystander A (try_finally p f).
Proof using.
  intros Hp Hf. induction Hp; cbn; try (constructor; auto; fail).
  - apply Bystander_bind; [exact Hf|]. intros _. constructor.
  - apply Bystander_bind; [exact Hf|]. intros _. constructor.
Qed.

Lemma Bystander_for_each (A : Type) (items : list A) (f : A -> Prog unit) :
  (forall x, Bystander unit (f x)) -> Bystander unit (for_each items f).
Proof using.
  intros Hf. induction items as [|x items IH]; cbn; [constructor|].
  apply Bystander_bind; auto.
Qed.

Lemma Bystander_modify (f : State -> State) :
  bystanding f -> Bystander unit (modify f).
Proof using. intros Hf. constructor; [exact Hf|constructor]. Qed.

Lemma Bystander_emit (e : Effect) : Bystander unit (emit e).
Proof using. repeat constructor. Qed.

Lemma Bystander_or_type_error (A : Type) (x : option A) :
  Bystander A (or_type_error x).
Proof using. destruct x; constructor. Qed.

Lemma Bystander_json (body : option Val) : Bystander Val (json body).
Proof using. destruct body; constructor. Qed.

Lemma Bystander_await (r : Req) :
  page_request r = false -> Bystander Reply (await r).
Proof using.
  intros Hr. constructor; [exact Hr|]. intros reply. destruct reply; constructor.
Qed.

Lemma Bystander_fetch url method body :
  Bystander (bool * option Val) (fetch url method body).
Proof using.
  unfold fetch. apply Bystander_bind; [apply Bystander_await; reflexivity|].
  intros x. destruct x; constructor.
Qed.

Lemma Bystander_get_state (A : Type) (k : State -> Prog A) :
  (forall s, Bystander A (k s)) -> Bystander A (bind get_state k).
Proof using. intros Hk. cbn. constructor. exact Hk. Qed.

Ltac bystander_step :=
  first
    [ apply Bystander_bind
    | apply Bystander_try_catch
    | apply Bystander_try_finally
    | apply Bystander_for_each
    | apply Bystander_modify; intro; reflexivity
    | apply Bystander_emit
    | apply Bystander_or_type_error
    | apply Bystander_json
    | apply Bystander_fetch
    | apply Bystander_await; reflexivity
    | apply Bystander_get_state
    | match goal with
      | |- Bystander _ (if ?b then _ else _) => destruct b
      | |- Bystander _ (match ?x with _ => _ end) => destruct x
      | |- forall _, _ => intro
      end
    | constructor ].

Ltac bystander := repeat bystander_step.

Lemma Bystander_fetchLayers : Bystander unit fetchLayers.
Proof. unfold fetchLayers, layer_option. bystander. Qed.

Lemma Bystander_fetchAnnotations layerId :
  Bystander unit (fetchAnnotations layerId).
Proof.
  unfold fetchAnnotations, renderAnnotations, annotation_card. bystander.
Qed.

Lemma handler_bystander (ev : Event) (w : World) :
  match ev with
  | Settle _ _ => True
  | _ => Bystander unit (snd (handler ev w))
  end.
Proof.
  destruct ev; cbn [handler snd]; try exact Logic.I.
  - unfold pageObserver, pageObserver_entry. bystander.
  - unfold viewerArea_mouseup. bystander.
  - bystander.
  - bystander.
  - bystander.
  - destruct (choose i (layerSelect (panel (state w)))); [|bystander].
    apply Bystander_bind; [bystander|]. intros _.
    apply Bystander_fetchAnnotations.
  - unfold saveAnnotation, alert, console_error, spawn. bystander.
    apply Bystander_fetchAnnotations.
  - destruct (nth_error (annotationList (panel (state w))) i) as [[text|c]|];
      [|destruct (card_delete c)|]; unfold deleteAnnotation, confirm;
      bystander.
  - unfold openCreateLayerModal, group_option, alert, console_error.
    bystander.
  - unfold confirmLayerBtn_onclick, read_json, alert, console_error, spawn.
    bystander;
      first [apply Bystander_fetchLayers | apply Bystander_fetchAnnotations].
  - unfold cancelLayerBtn_onclick. bystander.
  - unfold createLayerModal_click. bystander.
  - destruct (button_disabled (askAiBtn (state w))); [bystander|].
    unfold askAiToExplain, alert, console_error. bystander.
  - unfold prevPageBtn_click, scroll_to_page. bystander.
  - unfold nextPageBtn_click, scroll_to_page. bystander.
Qed.

Lemma Calm_weaken (A : Type) (p : Prog A) :
  Calm false A p -> Calm true A p.
Proof using.
  induction 1; constructor; auto.
Qed.

Lemma Calm_bind (throws : bool) (A B : Type) (p : Prog A) (f : A -> Prog B) :
  Calm throws A p -> (forall a, Calm throws B (f a)) ->
  Calm throws B (bind p f).
Proof using.
  intros Hp Hf. induction Hp; cbn; try (constructor; auto; fail); auto.
Qed.

Lemma Calm_try_catch (throws : bool) (A : Type) (p : Prog A)
  (h : Exn -> Prog A) :
  Calm true A p -> (forall e, Calm throws A (h e)) ->
  Calm throws A (try_catch p h).
Proof using.
  intros Hp Hh. induction Hp; cbn; try (constructor; auto; fail); auto.
Qed.

Lemma Calm_await (r : Req) :
  page_request r = true -> Calm true Reply (await r).
Proof using.
  intros Hr. constructor; [exact Hr|].
  intros reply. destruct reply; constructor; reflexivity.
Qed.

Lemma Calm_modify (throws : bool) (f : State -> State) :
  bystanding f -> Calm throws unit (modify f).
Proof using. intros Hf. constructor; [exact Hf|constructor]. Qed.

Lemma Calm_get_state (throws : bool) (A : Type) (k : State -> Prog A) :
  (forall s, Calm throws A (k s)) -> Calm throws A (bind get_state k).
Proof using. intros Hk. cbn. constructor. exact Hk. Qed.

Lemma Calm_render_page (pageNum : Z) : Calm false unit (render_page pageNum).
Proof.
  unfold render_page.
  apply Calm_try_catch; [|intros e; repeat constructor].
  repeat first
    [ apply Calm_bind
    | apply Calm_await; reflexivity
    | apply Calm_modify; intro; reflexivity
    | intro
    | constructor ].
Qed.

Lemma Calm_render_pages (count : nat) :
  forall pageNum, Calm false unit (render_pages count pageNum).
Proof.
  induction count as [|count IH]; intros pageNum; cbn [render_pages].
  - constructor.
  - apply Calm_get_state. intros s.
    destruct (pageNum <=? totalPages (vars s)); [|constructor].
    apply Calm_bind; [apply Calm_render_page|]. intros _. apply IH.
Qed.

Lemma Calm_renderAllPages : Calm false unit renderAllPages.
Proof.
  unfold renderAllPages.
  apply Calm_bind; [apply Calm_modify; intro; reflexivity|]. intros _.
  apply Calm_bind; [apply Calm_modify; intro; reflexivity|]. intros _.
  apply Calm_get_state. intros s. apply Calm_render_pages.
Qed.

Lemma Finishing_bind (A : Type) (p : Prog A) (f : A -> Prog unit) :
  Calm false A p -> (forall a, Finishing (f a)) -> Finishing (bind p f).
Proof using.
  intros Hp Hf. induction Hp; cbn; try (constructor; auto; fail); auto.
  discriminate.
Qed.

Lemma Finishing_try_catch (p : Prog unit) (h : Exn -> Prog unit) :
  Finishing p -> Finishing (try_catch p h).
Proof using.
  induction 1 as [k Hk IH|f k Hf Hk IH|e k Hk IH|r k Hr Hk IH|];
    cbn [try_catch].
  - constructor. exact IH.
  - constructor; assumption.
  - constructor. exact IH.
  - constructor; assumption.
  - exact Fin_Done.
Qed.

(** One turn of a bystander. *)
Lemma run_bystander (A : Type) (p : Prog A) :
  Bystander A p ->
  forall user s,
    loader_view (final (run user p s)) = loader_view s /\
    Forall bystander_task (spawned (run user p s)) /\
    match outcome (run user p s) with
    | Waiting r k =>
        page_request r = false /\ forall reply, Bystander A (k reply)
    | _ => True
    end.
Proof using.
  induction 1 as [A a|A e|A k Hk IH|A f k Hf Hk IH|A e k Hk IH
                 |A msg k Hk IH|A r k Hr Hk IH|A q k Hq IHq Hk IHk];
    intros user s; cbn [run final spawned outcome effects].
  - auto.
  - auto.
  - apply IH.
  - destruct (IH user (f s)) as (H1 & H2 & H3).
    split; [rewrite H1; apply Hf|]. auto.
  - apply IH.
  - apply IH.
  - auto.
  - destruct (IHq user s) as (Q1 & Q2 & Q3).
    destruct (IHk user (final (run user q s))) as (K1 & K2 & K3).
    split; [congruence|]. split; [|exact K3].
    apply Forall_app. split; [exact Q2|].
    apply Forall_app. split; [|exact K2].
    destruct (outcome (run user q s)) as [u|e|r k0]; cbn; constructor;
      [|constructor].
    exact Q3.
Qed.

Lemma call_bystander (p : Prog unit) :
  Bystander unit p ->
  forall user s,
    loader_view (step_state (call user p s)) = loader_view s /\
    Forall bystander_task (step_tasks (call user p s)).
Proof using.
  intros Hp user s. unfold call. cbn [step_state step_tasks].
  destruct (run_bystander unit p Hp user s) as (H1 & H2 & H3).
  split; [exact H1|]. apply Forall_app. split; [exact H2|].
  destruct (outcome (run user p s)) as [u|e|r k]; cbn; constructor;
    [|constructor].
  exact H3.
Qed.

(** One turn of the rest of [loadPdf]: it returns with the listener
    added, or it waits for a page again. *)
Lemma run_finishing (p : Prog unit) :
  Finishing p ->
  forall user s,
    spawned (run user p s) = [] /\
    match outcome (run user p s) with
    | Returned _ =>
        loader_view (final (run user p s)) =
          (pdfDoc (vars s), S (mouseupListeners (viewer s)))
    | Thrown _ => False
    | Waiting r k =>
        page_request r = true /\
        loader_view (final (run user p s)) = loader_view s /\
        forall reply, Finishing (k reply)
    end.
Proof using.
  induction 1 as [k Hk IH|f k Hf Hk IH|e k Hk IH|r k Hr Hk IH|];
    intros user s; cbn [run final spawned outcome effects].
  - apply IH.
  - destruct (IH user (f s)) as (H1 & H2). split; [exact H1|].
    pose proof (Hf s) as Ef. unfold loader_view in Ef.
    injection Ef as E1 E2.
    destruct (outcome (run user k (f s))) as [u|e|r k0]; auto.
    + rewrite H2, E1, E2. reflexivity.
    + destruct H2 as (H2 & H3 & H4). split; [exact H2|].
      split; [|exact H4]. rewrite H3. apply Hf.
  - apply IH.
  - auto.
  - split; reflexivity.
Qed.

Lemma run_opening (p : Prog unit) :
  Opening p ->
  forall user s,
    loader_view s = (None, O) ->
    spawned (run user p s) = [] /\
    match outcome (run user p s) with
    | Returned _ =>
        exists d,
          loader_view (final (run user p s)) =
            (d, match d with Some _ => 1%nat | None => O end)
    | Thrown _ => False
    | Waiting r k =>
        page_request r = true /\
        (exists n, loader_view (final (run user p s)) = (Some n, O)) /\
        forall reply, Finishing (k reply)
    end.
Proof using.
  intros [n q Hq | q Hq] user s Hs.
  - cbn [run].
    destruct (run_finishing q Hq user (set_pdfDoc (Some n) s)) as (H1 & H2).
    split; [exact H1|].
    unfold loader_view in Hs. injection Hs as _ Hl.
    destruct (outcome (run user q (set_pdfDoc (Some n) s))) as [u|e|r k];
      auto.
    + exists (Some n). rewrite H2. cbn. rewrite Hl. reflexivity.
    + destruct H2 as (H2 & H3 & H4). split; [exact H2|].
      split; [|exact H4]. exists n. rewrite H3. unfold loader_view. cbn.
      rewrite Hl. reflexivity.
  - destruct (Hq user s) as (H1 & H2 & H3). split; [exact H2|].
    rewrite H3. exists None. rewrite H1. exact Hs.
Qed.

Lemma remove_nth_none (A : Type) (l : list A) :
  forall i, nth_error l i = None -> remove_nth i l = l.
Proof using.
  induction l as [|x l IH]; intros [|i] H; cbn in *; try reflexivity;
    [discriminate|].
  rewrite IH by exact H. reflexivity.
Qed.

Lemma boot_loader (host : State) : Loader (boot host).
Proof.
  left. unfold boot, call, init. cbn.
  eexists None, [_], _, []. split; [reflexivity|]. split; [reflexivity|].
  split.
  - split; [reflexivity|]. intros reply. cbn [task_cont].
    destruct reply as [|ok body|n|].
    + apply Open_Failed. intros user s. repeat split.
    + apply Open_Failed. intros user s. repeat split.
    + apply (Open_Document n
               (Modify (set_totalPages n)
                  (Modify (set_pageCountDisplay (Number.int_to_string n))
                     (try_catch (renderAllPages ;; setupTextSelection)
                        (fun error =>
                           console_error error ;;
                           alert $"Could not load PDF file."))))).
      apply Fin_Modify; [intro; reflexivity|].
      apply Fin_Modify; [intro; reflexivity|].
      apply Finishing_try_catch, Finishing_bind;
        [apply Calm_renderAllPages|].
      intros _. exact Fin_Done.
    + apply Open_Failed. intros user s. repeat split.
  - constructor; [|constructor]. split; [reflexivity|].
    intros reply. cbn [task_cont]. unfold layer_option. bystander.
Qed.

(** A turn of a handler that is a bystander. *)
Lemma loader_bystander_turn (w : World) (p : Prog unit) user lg :
  Loader w -> Bystander unit p ->
  Loader {| state := step_state (call user p (state w)); log := lg;
            pending := pending w ++ step_tasks (call user p (state w)) |}.
Proof using.
  intros Hw Hp.
  destruct (call_bystander p Hp user (state w)) as [Hview Htasks].
  destruct Hw as [(d & l1 & t & l2 & Hv & Hpend & Ht & Hrest)
                 | (d & Hv & Hrest)].
  - left. exists d, l1, t, (l2 ++ step_tasks (call user p (state w))).
    cbn [state pending]. split; [congruence|].
    split; [rewrite Hpend, <- app_assoc; reflexivity|].
    split; [exact Ht|]. rewrite app_assoc. apply Forall_app. auto.
  - right. exists d. cbn [state pending]. split; [congruence|].
    apply Forall_app. auto.
Qed.

(** A turn that resumes a pending task. *)
Lemma loader_settle_turn (w : World) (i : nat) (t : Task) (reply : Reply) lg :
  Loader w ->
  nth_error (pending w) i = Some t ->
  Loader
    {| state := step_state (call no_dialog (task_cont t reply) (state w));
       log := lg;
       pending :=
         remove_nth i (pending w) ++
         step_tasks (call no_dialog (task_cont t reply) (state w)) |}.
Proof using.
  intros [(d & l1 & t0 & l2 & Hv & Hpend & Ht & Hrest) | (d & Hv & Hrest)] Hi.
  - rewrite Hpend in Hi |- *.
    apply Forall_app in Hrest. destruct Hrest as [HQ1 HQ2].
    destruct (nth_error_around _ l1 t0 l2 i t Hi)
      as [[Hn Hr]|[[Hn Hr]|(j & Hn & Hr)]]; rewrite Hr.
    + destruct (Forall_nth_error _ _ _ _ _ HQ1 Hn) as [_ Hby].
      destruct (call_bystander _ (Hby reply) no_dialog (state w))
        as [Hview Htasks].
      left. eexists d, (remove_nth i l1), t0, (l2 ++ _).
      cbn [state pending]. split; [congruence|].
      split; [rewrite <- app_assoc; reflexivity|]. split; [exact Ht|].
      apply Forall_app. split; [apply Forall_remove_nth, HQ1|].
      apply Forall_app. auto.
    + subst t0. unfold call. cbn [step_state step_tasks state pending].
      destruct d as [n|].
      * destruct Ht as [_ Hfin].
        destruct (run_finishing _ (Hfin reply) no_dialog (state w))
          as (H1 & H2).
        rewrite H1.
        unfold loader_view in Hv. injection Hv as Hdoc Hl.
        destruct (outcome (run no_dialog (task_cont t reply) (state w)))
          as [u|e|r k]; [|contradiction|].
        -- right. exists (Some n). cbn [state pending snd settle_call app].
           rewrite app_nil_r. split; [|apply Forall_app; auto].
           rewrite H2, Hdoc, Hl. reflexivity.
        -- destruct H2 as (H2 & H3 & H4).
           left. exists (Some n), (l1 ++ l2),
             {| task_req := r; task_cont := k |}, [].
           cbn [state pending snd settle_call app]. split.
           { rewrite H3. unfold loader_view. rewrite Hdoc, Hl. reflexivity. }
           split; [reflexivity|]. split; [split; [exact H2|exact H4]|].
           rewrite app_nil_r. apply Forall_app. auto.
      * destruct Ht as [_ Hopen].
        destruct (run_opening _ (Hopen reply) no_dialog (state w) Hv)
          as (H1 & H2).
        rewrite H1.
        destruct (outcome (run no_dialog (task_cont t reply) (state w)))
          as [u|e|r k]; [|contradiction|].
        -- destruct H2 as (d & H2). right. exists d.
           cbn [state pending snd settle_call app]. rewrite app_nil_r.
           split; [exact H2|apply Forall_app; auto].
        -- destruct H2 as (H2 & (n & H3) & H4).
           left. exists (Some n), (l1 ++ l2),
             {| task_req := r; task_cont := k |}, [].
           cbn [state pending snd settle_call app]. split; [exact H3|].
           split; [reflexivity|]. split; [split; [exact H2|exact H4]|].
           rewrite app_nil_r. apply Forall_app. auto.
    + destruct (Forall_nth_error _ _ _ _ _ HQ2 Hn) as [_ Hby].
      destruct (call_bystander _ (Hby reply) no_dialog (state w))
        as [Hview Htasks].
      left. eexists d, l1, t0, (remove_nth j l2 ++ _).
      cbn [state pending]. split; [congruence|].
      split; [rewrite <- app_assoc; reflexivity|]. split; [exact Ht|].
      apply Forall_app. split; [exact HQ1|].
      apply Forall_app. split; [apply Forall_remove_nth, HQ2|exact Htasks].
  - destruct (Forall_nth_error _ _ _ _ _ Hrest Hi) as [_ Hby].
    destruct (call_bystander _ (Hby reply) no_dialog (state w))
      as [Hview Htasks].
    right. exists d. cbn [state pending]. split; [congruence|].
    apply Forall_app. split; [apply Forall_remove_nth, Hrest|exact Htasks].
Qed.

Lemma step_loader (ev : Event) (w : World) : Loader w -> Loader (step ev w).
Proof.
  intros Hw. pose proof (handler_bystander ev w) as Hby.
  rewrite step_unfold.
  destruct ev as [entries|selection|text|text|i|i| |i answer| | | | | | |
                 |i reply];
    try (apply loader_bystander_turn; assumption).
  cbn [handler fst snd].
  destruct (nth_error (pending w) i) as [t|] eqn:Hi.
  - apply loader_settle_turn; assumption.
  - rewrite (remove_nth_none _ _ _ Hi).
    apply loader_bystander_turn; [exact Hw|constructor].
Qed.

Lemma steps_loader (evs : list Event) :
  forall w, Loader w -> Loader (steps evs w).
Proof.
  induction evs as [|ev evs IH]; intros w Hw; [exact Hw|].
  cbn [steps fold_left]. apply IH, step_loader, Hw.
Qed.

(** The listener is there exactly when the loading has finished. *)
Lemma loader_listeners (w : World) :
  Loader w ->
  mouseupListeners (viewer (state w)) =
    if loading_finished w then 1%nat else O.
Proof using.
  unfold loading_finished, loader_view.
  intros [(d & l1 & t & l2 & Hv & Hpend & Ht & Hrest) | (d & Hv & Hrest)];
    injection Hv as Hdoc Hl; rewrite Hdoc, Hl.
  - destruct d as [n|]; [|reflexivity].
    destruct Ht as [Hreq _].
    rewrite Hpend, forallb_app. cbn [forallb]. rewrite Hreq. cbn [negb andb].
    rewrite andb_false_r. reflexivity.
  - destruct d as [n|]; [|reflexivity].
    assert (H : forallb (fun t => negb (page_request (task_req t)))
                        (pending w) = true).
    { apply forallb_forall. intros t Hin. rewrite Forall_forall in Hrest.
      destruct (Hrest t Hin) as [Hreq _]. rewrite Hreq. reflexivity. }
    rewrite H. reflexivity.
Qed.

(** C6: what a pointer release in the viewer does, in every state the
    page reaches from start-up.  The listener is added at the end of
    [loadPdf]: it is there, once, exactly when the document has arrived
    and none of its pages is awaited any more.  From then on a pointer
    release stores the trimmed selection as the pending quote when it is
    not empty, overwriting the quote stored before, and leaves the
    pending quote as it is when it is empty; before that, and for good
    when the document could not be loaded, a pointer release changes
    nothing.  Either way nothing else on the page changes, nothing is
    shown and nothing is requested. *)
Theorem pointer_release_pending_quote (host : State) (evs : list Event)
  (selection : jsstring) :
  let w := steps evs (boot host) in
  let w' := step (MouseUp selection) w in
  mouseupListeners (viewer (state w)) =
    (if loading_finished w then 1%nat else O) /\
  state w' =
    (if loading_finished w then
       match JsString.trim selection with
       | [] => state w
       | selectedText => set_currentHighlightedText selectedText (state w)
       end
     else state w) /\
  currentHighlightedText (vars (state w')) =
    (if loading_finished w then
       match JsString.trim selection with
       | [] => currentHighlightedText (vars (state w))
       | selectedText => selectedText
       end
     else currentHighlightedText (vars (state w))) /\
  log w' = log w /\ pending w' = pending w.
Proof.
  intros w w'.
  assert (Hw : Loader w) by (apply steps_loader, boot_loader).
  pose proof (loader_listeners w Hw) as Hl.
  split; [exact Hl|].
  unfold w'. rewrite step_unfold. cbn [handler fst snd state log pending].
  rewrite Hl. unfold call, viewerArea_mouseup.
  destruct (loading_finished w); cbn [seq for_each];
    [destruct (JsString.trim selection) as [|c t]|]; cbn;
    rewrite !app_nil_r; auto.
Qed.


(** *** The layer requested last *)

Lemma requested_last_app (l1 l2 : list Effect) :
  requested_last (l1 ++ l2) =
    match requested_last l2 with
    | Some url => Some url
    | None => requested_last l1
    end.
Proof using.
  induction l1 as [|e l1 IH]; cbn [app requested_last].
  - destruct (requested_last l2); reflexivity.
  - rewrite IH. destruct (requested_last l2); reflexivity.
Qed.

Lemma tied_nil (s : State) : tied (currentLayerId (vars s)) [] s.
Proof using. reflexivity. Qed.

Lemma tied_app (before : Val) (e1 e2 : list Effect) (s1 s2 : State) :
  tied before e1 s1 -> tied (currentLayerId (vars s1)) e2 s2 ->
  tied before (e1 ++ e2) s2.
Proof using.
  unfold tied. rewrite requested_last_app.
  destruct (requested_last e2) as [url|]; [auto|].
  intros H1 H2. rewrite H2.
  destruct (requested_last e1) as [url|]; exact H1.
Qed.

Lemma tied_cons (before : Val) (e : Effect) (effs : list Effect) (s : State) :
  annotations_requested e = None ->
  tied before effs s -> tied before (e :: effs) s.
Proof using.
  unfold tied. cbn [requested_last]. intros E.
  destruct (requested_last effs); [auto|]. rewrite E. auto.
Qed.

Lemma Tied_bind (A B : Type) (p : Prog A) (f : A -> Prog B) :
  Tied A p -> (forall a, Tied B (f a)) -> Tied B (bind p f).
Proof using.
  intros Hp Hf.
  induction Hp as [A a|A e|A k Hk IH|A g k Hg Hk IH|A e k He Hk IH
                  |A msg k Hk IH|A r k Hr Hk IH|A q k Hq IHq Hk IHk
                  |A layerId g k Hid Hg Hk IH];
    cbn [bind]; try (constructor; auto; fail); auto.
Qed.

Lemma Tied_try_catch (A : Type) (p : Prog A) (h : Exn -> Prog A) :
  Tied A p -> (forall e, Tied A (h e)) -> Tied A (try_catch p h).
Proof using.
  intros Hp Hh.
  induction Hp as [A a|A e|A k Hk IH|A g k Hg Hk IH|A e k He Hk IH
                  |A msg k Hk IH|A r k Hr Hk IH|A q k Hq IHq Hk IHk
                  |A layerId g k Hid Hg Hk IH];
    cbn [try_catch]; try (constructor; auto; fail); auto.
Qed.

Lemma Tied_try_finally (A : Type) (p : Prog A) (f : Prog unit) :
  Tied A p -> Tied unit f -> Tied A (try_finally p f).
Proof using.
  intros Hp Hf.
  induction Hp as [A a|A e|A k Hk IH|A g k Hg Hk IH|A e k He Hk IH
                  |A msg k Hk IH|A r k Hr Hk IH|A q k Hq IHq Hk IHk
                  |A layerId g k Hid Hg Hk IH];
    cbn [try_finally]; try (constructor; auto; fail).
  - apply Tied_bind; [exact Hf|]. intros _. constructor.
  - apply Tied_bind; [exact Hf|]. intros _. constructor.
Qed.

Lemma Tied_for_each (A : Type) (items : list A) (f : A -> Prog unit) :
  (forall x, Tied unit (f x)) -> Tied unit (for_each items f).
Proof using.
  intros Hf. induction items as [|x items IH]; cbn; [constructor|].
  apply Tied_bind; auto.
Qed.

Lemma Tied_modify (f : State -> State) :
  keeps_layer_id f -> Tied unit (modify f).
Proof using. intros Hf. apply Tied_Modify; [exact Hf|constructor]. Qed.

Lemma Tied_emit (e : Effect) :
  annotations_requested e = None -> Tied unit (emit e).
Proof using. intros He. apply Tied_Emit; [exact He|constructor]. Qed.

Lemma Tied_or_type_error (A : Type) (x : option A) :
  Tied A (or_type_error x).
Proof using. destruct x; constructor. Qed.

Lemma Tied_json (body : option Val) : Tied Val (json body).
Proof using. destruct body; constructor. Qed.

Lemma Tied_await (r : Req) :
  annotations_requested (Request r) = None -> Tied Reply (await r).
Proof using.
  intros Hr. apply Tied_Await; [exact Hr|].
  intros reply. destruct reply; constructor.
Qed.

Lemma Tied_fetch url method body :
  annotations_requested (Request (Fetch url method body)) = None ->
  Tied (bool * option Val) (fetch url method body).
Proof using.
  intros Hr. unfold fetch. apply Tied_bind; [apply Tied_await; exact Hr|].
  intros x. destruct x; constructor.
Qed.

Lemma Tied_get_state (A : Type) (k : State -> Prog A) :
  (forall s, Tied A (k s)) -> Tied A (bind get_state k).
Proof using. intros Hk. cbn. constructor. exact Hk. Qed.

Lemma Tied_spawn (p : Prog unit) : Tied unit p -> Tied unit (spawn p).
Proof using. intros Hp. apply Tied_Spawn; [exact Hp|constructor]. Qed.

Ltac tied_step :=
  first
    [ apply Tied_bind
    | apply Tied_try_catch
    | apply Tied_try_finally
    | apply Tied_for_each
    | apply Tied_modify; intro; reflexivity
    | apply Tied_emit; reflexivity
    | apply Tied_or_type_error
    | apply Tied_json
    | apply Tied_fetch; reflexivity
    | apply Tied_await; reflexivity
    | apply Tied_get_state
    | apply Tied_Ret
    | apply Tied_Throw
    | apply Tied_Ask
    | match goal with
      | |- Tied _ (if ?b then _ else _) => destruct b
      | |- Tied _ (match ?x with _ => _ end) => destruct x
      | |- forall _, _ => intro
      end ].

Ltac tied_prog := repeat tied_step.

Lemma Tied_fetchLayers : Tied unit fetchLayers.
Proof. unfold fetchLayers, layer_option. tied_prog. Qed.

Lemma Tied_renderAnnotations annotations :
  Tied unit (renderAnnotations annotations).
Proof. unfold renderAnnotations, annotation_card. tied_prog. Qed.

(** [fetchAnnotations]: the id is assigned and its annotations are
    requested, or nothing of the two. *)
Lemma Tied_fetchAnnotations layerId : Tied unit (fetchAnnotations layerId).
Proof.
  unfold fetchAnnotations.
  destruct (Value.truthy layerId) eqn:Hid; cbn [negb]; [|tied_prog].
  cbn [bind modify fetch await try_catch].
  apply Tied_Select; [exact Hid|intro; reflexivity|].
  intros reply. unfold console_error.
  apply Tied_try_catch; [|tied_prog].
  apply Tied_bind.
  - apply Tied_bind; [destruct reply; constructor|].
    intros x. destruct x; constructor.
  - intros response. apply Tied_bind; [apply Tied_json|].
    intros annotations. apply Tied_renderAnnotations.
Qed.

Lemma Tied_render_pages (count : nat) :
  forall pageNum, Tied unit (render_pages count pageNum).
Proof.
  induction count as [|count IH]; intros pageNum; cbn [render_pages];
    [tied_prog|].
  apply Tied_get_state. intros s.
  destruct (pageNum <=? totalPages (vars s)); [|tied_prog].
  apply Tied_bind; [unfold render_page, console_error; tied_prog|].
  intros _. apply IH.
Qed.

Lemma Tied_loadPdf pdfUrl : Tied unit (loadPdf pdfUrl).
Proof.
  unfold loadPdf, renderAllPages, setupTextSelection, alert, console_error.
  apply Tied_bind; [tied_prog|]. intros _.
  apply Tied_try_catch; [|tied_prog].
  apply Tied_bind; [tied_prog|]. intros doc.
  destruct doc; try apply Tied_Throw.
  apply Tied_bind; [tied_prog|]. intros _.
  apply Tied_bind; [tied_prog|]. intros _.
  apply Tied_bind; [tied_prog|]. intros _.
  apply Tied_bind; [|tied_prog].
  apply Tied_bind; [tied_prog|]. intros _.
  apply Tied_bind; [tied_prog|]. intros _.
  apply Tied_get_state. intros s. apply Tied_render_pages.
Qed.

Lemma handler_tied (ev : Event) (w : World) :
  match ev with
  | Settle _ _ => True
  | _ => Tied unit (snd (handler ev w))
  end.
Proof.
  destruct ev; cbn [handler snd]; try exact Logic.I.
  - unfold pageObserver, pageObserver_entry. tied_prog.
  - unfold viewerArea_mouseup. tied_prog.
  - tied_prog.
  - tied_prog.
  - tied_prog.
  - destruct (choose i (layerSelect (panel (state w)))); [|tied_prog].
    apply Tied_bind; [tied_prog|]. intros _. apply Tied_fetchAnnotations.
  - unfold saveAnnotation, alert, console_error. tied_prog.
    apply Tied_spawn, Tied_fetchAnnotations.
  - destruct (nth_error (annotationList (panel (state w))) i) as [[text|c]|];
      [|destruct (card_delete c)|]; unfold deleteAnnotation, confirm;
      tied_prog.
  - unfold openCreateLayerModal, group_option, alert, console_error.
    tied_prog.
  - unfold confirmLayerBtn_onclick, read_json, alert, console_error.
    tied_prog;
      first [apply Tied_fetchLayers
            | apply Tied_spawn, Tied_fetchAnnotations].
  - unfold cancelLayerBtn_onclick. tied_prog.
  - unfold createLayerModal_click. tied_prog.
  - destruct (button_disabled (askAiBtn (state w))); [tied_prog|].
    unfold askAiToExplain, alert, console_error. tied_prog.
  - unfold prevPageBtn_click, scroll_to_page. tied_prog.
  - unfold nextPageBtn_click, scroll_to_page. tied_prog.
Qed.

Lemma tied_settle_call (o : Outcome unit) (s : State) :
  tied (currentLayerId (vars s)) (fst (settle_call o)) s.
Proof using. destruct o; reflexivity. Qed.

(** One turn of such a program. *)
Lemma run_tied (A : Type) (p : Prog A) :
  Tied A p ->
  forall user s,
    tied (currentLayerId (vars s)) (effects (run user p s))
         (final (run user p s)) /\
    Forall tied_task (spawned (run user p s)) /\
    match outcome (run user p s) with
    | Waiting r k => forall reply, Tied A (k reply)
    | _ => True
    end.
Proof using.
  induction 1 as [A a|A e|A k Hk IH|A g k Hg Hk IH|A e k He Hk IH
                 |A msg k Hk IH|A r k Hr Hk IH|A q k Hq IHq Hk IHk
                 |A layerId g k Hid Hg Hk IH];
    intros user s; cbn [run final spawned outcome effects].
  - split; [apply tied_nil|auto].
  - split; [apply tied_nil|auto].
  - apply IH.
  - destruct (IH user (g s)) as (H1 & H2 & H3).
    rewrite Hg in H1. auto.
  - destruct (IH user s) as (H1 & H2 & H3).
    split; [apply tied_cons; assumption|auto].
  - destruct (IH (user msg) user s) as (H1 & H2 & H3).
    split; [apply tied_cons; [reflexivity|assumption]|auto].
  - split; [|auto]. unfold tied. cbn [requested_last]. rewrite Hr.
    reflexivity.
  - destruct (IHq user s) as (Q1 & Q2 & Q3).
    destruct (IHk user (final (run user q s))) as (K1 & K2 & K3).
    split; [|split; [|exact K3]].
    + apply (tied_app _ _ _ (final (run user q s))); [exact Q1|].
      apply (tied_app _ _ _ (final (run user q s)));
        [apply tied_settle_call|exact K1].
    + apply Forall_app. split; [exact Q2|].
      apply Forall_app. split; [|exact K2].
      destruct (outcome (run user q s)) as [u|e|r k0]; cbn; constructor;
        [|constructor].
      exact Q3.
  - split; [|auto]. unfold tied. cbn [requested_last annotations_requested].
    change (JsString.starts_with $"/api/layer/" (annotations_url layerId))
      with true. cbn iota.
    rewrite Hg. cbn. auto.
Qed.

Lemma call_tied (p : Prog unit) :
  Tied unit p ->
  forall user s,
    tied (currentLayerId (vars s)) (step_effects (call user p s))
         (step_state (call user p s)) /\
    Forall tied_task (step_tasks (call user p s)).
Proof using.
  intros Hp user s. unfold call. cbn [step_state step_effects step_tasks].
  destruct (run_tied unit p Hp user s) as (H1 & H2 & H3). split.
  - apply (tied_app _ _ _ (final (run user p s))); [exact H1|].
    apply tied_settle_call.
  - apply Forall_app. split; [exact H2|].
    destruct (outcome (run user p s)) as [u|e|r k]; cbn; constructor;
      [|constructor].
    exact H3.
Qed.

Lemma boot_follows (host : State) : Follows (boot host).
Proof.
  assert (Hinit : Tied unit init).
  { unfold init. apply Tied_bind; [apply Tied_spawn, Tied_fetchLayers|].
    intros _. apply Tied_spawn, Tied_loadPdf. }
  destruct (call_tied init Hinit no_dialog (initial_state host)) as [H1 H2].
  split; assumption.
Qed.

Lemma step_follows (ev : Event) (w : World) : Follows w -> Follows (step ev w).
Proof.
  intros [Hlog Htasks]. pose proof (handler_tied ev w) as Hev.
  rewrite step_unfold.
  assert (Hturn : forall user p rest,
    Tied unit p -> Forall tied_task rest ->
    Follows {| state := step_state (call user p (state w));
               log := log w ++ step_effects (call user p (state w));
               pending := rest ++ step_tasks (call user p (state w)) |}).
  { intros user p rest Hp Hrest.
    destruct (call_tied p Hp user (state w)) as [H1 H2]. split.
    - cbn [log state]. apply (tied_app _ _ _ (state w)); assumption.
    - cbn [pending]. apply Forall_app. auto. }
  destruct ev as [entries|selection|text|text|i|i| |i answer| | | | | | |
                 |i reply];
    try (apply Hturn; assumption).
  cbn [handler fst snd]. apply Hturn; [|apply Forall_remove_nth, Htasks].
  destruct (nth_error (pending w) i) as [t|] eqn:Hi; [|constructor].
  apply (Forall_nth_error _ _ _ _ _ Htasks Hi).
Qed.

Lemma steps_follows (evs : list Event) :
  forall w, Follows w -> Follows (steps evs w).
Proof.
  induction evs as [|ev evs IH]; intros w Hw; [exact Hw|].
  cbn [steps fold_left]. apply IH, step_follows, Hw.
Qed.

(** C9: a save goes to the layer whose annotations were requested last.
    A call of [fetchAnnotations] with an id that passes its guard (a
    truthy value) has stored the id in [currentLayerId] when it suspends
    on the request for that layer's annotations; a call with any other id,
    [null] or not, shows the prompt and neither stores the id nor requests
    anything.  Nothing else assigns the variable or requests annotations:
    in every state the page reaches from start-up, [currentLayerId] is
    [null] if no annotations have been requested yet, and otherwise it is
    the truthy id of the layer whose annotations were requested last,
    whoever asked for them, and a save with a note typed posts that id as
    [layer_id]. *)
Theorem save_posts_to_layer_requested_last (host : State)
  (evs : list Event) :
  let w := steps evs (boot host) in
  (forall layerId s,
     Value.truthy layerId = true ->
     exists k,
       run no_dialog (fetchAnnotations layerId) s =
         {| final := set_annotationList [Paragraph $"Loading..."]
                       (set_currentLayerId layerId s);
            effects := [Request (Fetch (annotations_url layerId) GET None)];
            spawned := [];
            outcome :=
              Waiting (Fetch (annotations_url layerId) GET None) k |}) /\
  (forall layerId s,
     Value.truthy layerId = false ->
     call no_dialog (fetchAnnotations layerId) s =
       {| step_state :=
            set_annotationList [Paragraph $"Select a journal layer above."] s;
          step_effects := [];
          step_tasks := [] |}) /\
  match requested_last (log w) with
  | None => currentLayerId (vars (state w)) = VNull
  | Some url =>
      url = annotations_url (currentLayerId (vars (state w))) /\
      Value.truthy (currentLayerId (vars (state w))) = true /\
      (JsString.trim (annotationTextarea (panel (state w))) <> [] ->
       exists fields k,
         step ClickSave w =
           {| state := state w;
              log := log w ++
                     [Request (Fetch $"/api/annotation/new" POST
                                 (Some (VObj fields)))];
              pending := pending w ++
                         [{| task_req := Fetch $"/api/annotation/new" POST
                                           (Some (VObj fields));
                             task_cont := k |}] |} /\
         Value.lookup $"layer_id" fields =
           Value.stringify (currentLayerId (vars (state w))))
  end.
Proof.
  intros w. split; [|split].
  - intros layerId s Hid. unfold fetchAnnotations. rewrite Hid.
    eexists. reflexivity.
  - intros layerId s Hid. unfold call, fetchAnnotations. rewrite Hid.
    reflexivity.
  - assert (Hw : Follows w) by (apply steps_follows, boot_follows).
    destruct Hw as [Hlog _]. unfold tied in Hlog.
    destruct (requested_last (log w)) as [url|]; [|exact Hlog].
    destruct Hlog as [Hurl Hid]. split; [exact Hurl|]. split; [exact Hid|].
    intros Hnote. rewrite step_unfold. cbn [handler fst snd].
    unfold call, saveAnnotation. cbn [bind get_state run].
    destruct (JsString.trim (annotationTextarea (panel (state w))))
      as [|c note]; [congruence|].
    cbn [Value.truthy negb]. rewrite Hid. cbn [negb].
    unfold Value.stringify.
    destruct (Value.json (currentLayerId (vars (state w)))) as [j|] eqn:Ej.
    + cbn. rewrite Ej. cbn. eexists. eexists. split; reflexivity.
    + destruct (currentLayerId (vars (state w))) as [| | |[|]| | |];
        discriminate.
Qed.

End Reader.

(** ** The properties at concrete inputs *)

(** C1: the reader's own note is rendered as a card with a delete button;
    the reader clicks it and confirms; the delete request is issued and
    succeeds; the card is still in the list.  [renderAnnotations] gives the
    card no [data-id] attribute, so the selector of [deleteAnnotation] finds
    nothing to remove. *)
Theorem delete_confirmed_card_remains :
  exists card k,
    annotationList (panel (rendered Sample.user)) = [CardNode card] /\
    card_delete card = Some (VNum (Int 7)) /\
    run accept (deleteAnnotation (VNum (Int 7))) (rendered Sample.user) =
      {| final := rendered Sample.user;
         effects :=
           [ConfirmDialog $"Delete this note?" true;
            Request (Fetch $"/api/annotation/7/delete" POST None)];
         spawned := [];
         outcome := Waiting (Fetch $"/api/annotation/7/delete" POST None) k |} /\
    annotationList
      (panel (step_state
                (call no_dialog (k (Response true None)) (rendered Sample.user)))) =
      [CardNode card].
Proof.
  eexists. eexists. repeat split; reflexivity.
Qed.

(** C2, counterexample: the creation request is rejected; the error is
    shown and the dialog is still displayed. *)
Lemma layer_creation_failure_keeps_dialog_open :
  exists body k,
    outcome (run no_dialog (confirmLayerBtn_onclick Sample.ebook Sample.user)
                 Sample.naming) =
      Waiting (Fetch $"/api/layer/new" POST (Some body)) k /\
    step_effects (call no_dialog (k Rejected) Sample.naming) =
      [ConsoleError Rejection; Alert $"Error creating layer."] /\
    createLayerModal_display
      (modal (step_state (call no_dialog (k Rejected) Sample.naming))) =
      $"flex".
Proof.
  eexists. eexists. repeat split; reflexivity.
Qed.

(** C3, at the sample page with nothing typed. *)
Lemma saveAnnotation_fails_fast_witness :
  exists msg,
    call no_dialog (saveAnnotation Sample.user) Sample.host =
      {| step_state := Sample.host; step_effects := [Alert msg];
         step_tasks := [] |}.
Proof.
  apply saveAnnotation_fails_fast. left. reflexivity.
Defined.

(** C4, on the sample run in which the reader has picked a layer and typed
    a note. *)
Lemma saveAnnotation_success_refetches_witness :
  exists body k,
    step Sample.ebook Sample.user ClickSave
         (steps Sample.ebook Sample.user note_taking
                (boot Sample.ebook Sample.url Sample.host)) =
      {| state :=
           state (steps Sample.ebook Sample.user note_taking
                        (boot Sample.ebook Sample.url Sample.host));
         log :=
           log (steps Sample.ebook Sample.user note_taking
                      (boot Sample.ebook Sample.url Sample.host)) ++
           [Request (Fetch $"/api/annotation/new" POST (Some body))];
         pending :=
           pending (steps Sample.ebook Sample.user note_taking
                          (boot Sample.ebook Sample.url Sample.host)) ++
           [{| task_req := Fetch $"/api/annotation/new" POST (Some body);
               task_cont := k |}] |}.
Proof.
  destruct (saveAnnotation_success_refetches Sample.ebook Sample.user
              Sample.url Sample.host note_taking)
    as (body & k & E & _).
  - vm_compute. reflexivity.
  - vm_compute. discriminate.
  - vm_compute. reflexivity.
  - exists body, k. exact E.
Defined.

(** C5, counterexample: confirming while the groups are loading.  The
    selected value is the empty string, not the sentinel, [parseInt] finds no
    integer in it, and the payload carries [null]. *)
Lemma loading_placeholder_scope_is_null :
  exists fields k,
    Dom.select_value (newLayerGroupSelect (modal Sample.naming)) = [] /\
    JsString.eqb [] $"0" = false /\
    Number.parseInt [] = NaN /\
    outcome (run no_dialog (confirmLayerBtn_onclick Sample.ebook Sample.user)
                 Sample.naming) =
      Waiting (Fetch $"/api/layer/new" POST (Some (VObj fields))) k /\
    Value.lookup $"study_group_id" fields = VNull.
Proof.
  eexists. eexists. repeat split; reflexivity.
Qed.

(** C5, at the sample dialog once the groups have arrived: with the
    group of id 4 selected the payload carries 4, and with the first
    option selected, the sentinel, it carries [null]. *)
Lemma confirm_scope_mapping_witness :
  exists fields k fields0 k0,
    Dom.select_value (newLayerGroupSelect (modal (choosing 1))) = $"4" /\
    outcome (run no_dialog (confirmLayerBtn_onclick Sample.ebook Sample.user)
                 (choosing 1)) =
      Waiting (Fetch $"/api/layer/new" POST (Some (VObj fields))) k /\
    Value.lookup $"name" fields = VStr $"Notes" /\
    Value.lookup $"study_group_id" fields = VNum (Int 4) /\
    Dom.select_value (newLayerGroupSelect (modal (choosing 0))) = $"0" /\
    outcome (run no_dialog (confirmLayerBtn_onclick Sample.ebook Sample.user)
                 (choosing 0)) =
      Waiting (Fetch $"/api/layer/new" POST (Some (VObj fields0))) k0 /\
    Value.lookup $"study_group_id" fields0 = VNull.
Proof.
  destruct (confirm_scope_mapping Sample.ebook Sample.user (choosing 1))
    as (fields & k & E & Hname & _ & _ & _ & Hid); [discriminate|].
  destruct (confirm_scope_mapping Sample.ebook Sample.user (choosing 0))
    as (fields0 & k0 & E0 & _ & Hsentinel & _); [discriminate|].
  exists fields, k, fields0, k0.
  split; [reflexivity|]. split; [rewrite E; reflexivity|].
  split; [exact Hname|].
  split; [apply (Hid 4); [discriminate|cbn; lia|reflexivity]|].
  split; [reflexivity|]. split; [rewrite E0; reflexivity|].
  apply Hsentinel. reflexivity.
Defined.

(** C6, on the sample run in which the document has been loaded: the
    selection, trimmed, is the pending quote. *)
Lemma pointer_release_pending_quote_witness :
  loading_finished
    (steps Sample.ebook Sample.user loaded
           (boot Sample.ebook Sample.url Sample.host)) = true /\
  currentHighlightedText
    (vars (state (step Sample.ebook Sample.user (MouseUp $" a quote ")
                    (steps Sample.ebook Sample.user loaded
                           (boot Sample.ebook Sample.url Sample.host))))) =
    $"a quote".
Proof.
  split; [vm_compute; reflexivity|].
  destruct (pointer_release_pending_quote Sample.ebook Sample.user Sample.url
              Sample.host loaded $" a quote ") as (_ & _ & H & _).
  rewrite H. vm_compute. reflexivity.
Defined.

(** C6, counterexample: a pointer release with a selection that is not
    empty after trimming, while the document is still being fetched, and
    again after the document could not be loaded.  There is no listener
    and the selection is not stored. *)
Lemma pointer_release_without_listener :
  JsString.trim $"a quote" = $"a quote" /\
  currentHighlightedText
    (vars (state (step Sample.ebook Sample.user (MouseUp $"a quote")
                    (boot Sample.ebook Sample.url Sample.host)))) = [] /\
  trace_ok Sample.ebook Sample.user [Settle 1 Rejected]
           (boot Sample.ebook Sample.url Sample.host) = true /\
  currentHighlightedText
    (vars (state (step Sample.ebook Sample.user (MouseUp $"a quote")
                    (steps Sample.ebook Sample.user [Settle 1 Rejected]
                           (boot Sample.ebook Sample.url Sample.host))))) =
    [].
Proof. repeat split. Qed.

(** C7, on the sample run: the document has two pages, page 2 has been
    reported, and the current page is in range; when the browser then
    reports page 1 with three fifths of it visible, page 1 is the current
    page. *)
Lemma currentPageNum_in_range_witness :
  trace_ok Sample.ebook Sample.user reading
           (boot Sample.ebook Sample.url Sample.host) = true /\
  (exists z,
     currentPageNum
       (vars (state (steps Sample.ebook Sample.user reading
                           (boot Sample.ebook Sample.url Sample.host)))) =
       Int z /\
     1 <= z <=
     totalPages
       (vars (state (steps Sample.ebook Sample.user reading
                           (boot Sample.ebook Sample.url Sample.host))))) /\
  currentPageNum
    (vars (state
       (step Sample.ebook Sample.user
          (Intersect (report pageObserver_threshold
                        [($"page-wrapper-1", QArith_base.Qmake 3 5)]))
          (steps Sample.ebook Sample.user reading
                 (boot Sample.ebook Sample.url Sample.host))))) = Int 1.
Proof.
  assert (Hok : trace_ok Sample.ebook Sample.user reading
                         (boot Sample.ebook Sample.url Sample.host) = true)
    by (vm_compute; reflexivity).
  split; [exact Hok|].
  destruct (currentPageNum_in_range Sample.ebook Sample.user Sample.url
              Sample.host reading Hok)
    as ((z & Hz & Hz1 & Hrange) & _ & _ & _ & Hhalf).
  split.
  - exists z. split; [exact Hz|]. split; [exact Hz1|].
    apply (Hrange 2); vm_compute; [reflexivity|discriminate].
  - destruct (Hhalf $"page-wrapper-1" (QArith_base.Qmake 3 5))
      as (k & Eid & _ & Hcur).
    + vm_compute. reflexivity.
    + vm_compute. discriminate.
    + refine (eq_trans Hcur _). f_equal.
      apply (page_wrapper_id_inj 1 k) in Eid. symmetry. exact Eid.
Defined.

(** C7, counterexample: a document with no page arrives.  The document
    is loaded, the current page is still 1, and [totalPages] is 0. *)
Lemma empty_document_page_out_of_range :
  trace_ok Sample.ebook Sample.user [Settle 1 (PdfDocument 0)]
           (boot Sample.ebook Sample.url Sample.host) = true /\
  pdfDoc (vars (state (steps Sample.ebook Sample.user
                             [Settle 1 (PdfDocument 0)]
                             (boot Sample.ebook Sample.url Sample.host)))) =
    Some 0 /\
  currentPageNum
    (vars (state (steps Sample.ebook Sample.user [Settle 1 (PdfDocument 0)]
                        (boot Sample.ebook Sample.url Sample.host)))) =
    Int 1 /\
  totalPages
    (vars (state (steps Sample.ebook Sample.user [Settle 1 (PdfDocument 0)]
                        (boot Sample.ebook Sample.url Sample.host)))) = 0.
Proof. repeat split. Qed.

(** C8, counterexample: the button of the sample page reads "Ask AI"; after
    a successful explanation it reads [ask_ai_label], which is another
    string. *)
Lemma ask_ai_label_not_restored :
  exists body k,
    button_textContent (askAiBtn Sample.drafting) = $"Ask AI" /\
    outcome (run no_dialog (askAiToExplain Sample.ebook) Sample.drafting) =
      Waiting (Fetch $"/api/ai/explain" POST (Some body)) k /\
    button_textContent
      (askAiBtn (step_state
         (call no_dialog
            (k (Response true
                  (Some (VObj [($"explanation", VStr $"because")]))))
            (final (run no_dialog (askAiToExplain Sample.ebook)
                        Sample.drafting))))) = ask_ai_label /\
    ask_ai_label <> $"Ask AI".
Proof.
  eexists. eexists. repeat split; try reflexivity. discriminate.
Qed.

(** A call with the empty string, which is not [null]: it stores nothing
    and requests nothing, and the selected layer is still 3. *)
Lemma fetchAnnotations_empty_id_ignored :
  VStr [] <> VNull /\
  call no_dialog (fetchAnnotations Sample.user (VStr [])) Sample.drafting =
    {| step_state :=
         set_annotationList [Paragraph $"Select a journal layer above."]
           Sample.drafting;
       step_effects := [];
       step_tasks := [] |} /\
  currentLayerId
    (vars (step_state
       (call no_dialog (fetchAnnotations Sample.user (VStr []))
             Sample.drafting))) = VStr $"3".
Proof.
  repeat split; try reflexivity. discriminate.
Qed.

(** C9, counterexample: the reader has picked layer 3 and creates a layer
    to which the backend gives the id 0.  The confirm handler calls
    [fetchAnnotations] with 0, which is not [null]: the call shows the
    prompt, requests nothing and stores nothing, so layer 3 is still the
    current layer and the layer requested last. *)
Lemma layer_zero_is_not_made_current :
  trace_ok Sample.ebook Sample.user creating_layer_zero
           (boot Sample.ebook Sample.url Sample.host) = true /\
  VNum (Int 0) <> VNull /\
  currentLayerId
    (vars (state (steps Sample.ebook Sample.user creating_layer_zero
                        (boot Sample.ebook Sample.url Sample.host)))) =
    VStr $"3" /\
  annotationList
    (panel (state (steps Sample.ebook Sample.user creating_layer_zero
                         (boot Sample.ebook Sample.url Sample.host)))) =
    [Paragraph $"Select a journal layer above."] /\
  requested_last
    (log (steps Sample.ebook Sample.user creating_layer_zero
                (boot Sample.ebook Sample.url Sample.host))) =
    Some $"/api/layer/3/annotations".
Proof.
  repeat split; try reflexivity. discriminate.
Qed.

(** C9, on the sample run in which the reader creates layer 9 and has
    selected no layer: the annotations of layer 9 were requested last, by
    the dialog, and the note is posted to layer 9. *)
Lemma save_posts_to_layer_requested_last_witness :
  requested_last
    (log (steps Sample.ebook Sample.user creating
                (boot Sample.ebook Sample.url Sample.host))) =
    Some $"/api/layer/9/annotations" /\
  exists fields k,
    step Sample.ebook Sample.user ClickSave
      (steps Sample.ebook Sample.user creating
             (boot Sample.ebook Sample.url Sample.host)) =
      {| state := state (steps Sample.ebook Sample.user creating
                               (boot Sample.ebook Sample.url Sample.host));
         log := log (steps Sample.ebook Sample.user creating
                           (boot Sample.ebook Sample.url Sample.host)) ++
                [Request (Fetch $"/api/annotation/new" POST
                            (Some (VObj fields)))];
         pending := pending (steps Sample.ebook Sample.user creating
                                   (boot Sample.ebook Sample.url Sample.host)) ++
                    [{| task_req := Fetch $"/api/annotation/new" POST
                                      (Some (VObj fields));
                        task_cont := k |}] |} /\
    Value.lookup $"layer_id" fields = VNum (Int 9).
Proof.
  assert (E : requested_last
                (log (steps Sample.ebook Sample.user creating
                            (boot Sample.ebook Sample.url Sample.host))) =
              Some $"/api/layer/9/annotations")
    by (vm_compute; reflexivity).
  split; [exact E|].
  pose proof (save_posts_to_layer_requested_last Sample.ebook Sample.user
                Sample.url Sample.host creating) as H.
  cbv zeta in H. destruct H as (_ & _ & H). rewrite E in H.
  destruct H as (_ & _ & Hsave).
  destruct Hsave as (fields & k & Hstep & Hid);
    [vm_compute; discriminate|].
  exists fields, k. split; [exact Hstep|]. rewrite Hid. reflexivity.
Defined.



(** ** Further properties at concrete inputs *)

(** X1, for a document of three pages: the second cannot be fetched
    and the text of the third cannot be read. *)
Lemma renderAllPages_survives_page_errors_witness :
  viewerContainer
    (viewer (final
       (settle_all no_dialog
          (flat_map page_replies [Complete; FailGetPage; FailTextContent])
          (run no_dialog renderAllPages (set_totalPages 3 Sample.host))))) =
    [page_wrapper 1 [Canvas; TextLayer]; page_wrapper 3 [Canvas]].
Proof.
  destruct (renderAllPages_survives_page_errors
              [Complete; FailGetPage; FailTextContent]
              (set_totalPages 3 Sample.host) eq_refl) as (_ & _ & H & _).
  exact H.
Defined.

(** X3, for a report on pages 1 and 2, both intersecting. *)
Lemma pageObserver_last_entry_wins_witness :
  currentPageNum
    (vars (step_state
       (call no_dialog
          (pageObserver
             ([Sample.page 1 true] ++
              [{| target := page_wrapper_id 2; isIntersecting := true |}]))
          Sample.host))) = Int 2.
Proof.
  rewrite (pageObserver_last_entry_wins [Sample.page 1 true] 2 ltac:(lia)).
  reflexivity.
Defined.

(** X4, on the sample run that ends with page 2 reported. *)
Lemma pageNumDisplay_shows_current_page_witness :
  indicator_ok Sample.host
    (state (steps Sample.ebook Sample.user reading
                  (boot Sample.ebook Sample.url Sample.host))).
Proof.
  apply pageNumDisplay_shows_current_page. vm_compute. reflexivity.
Defined.


(** X8, for layer 8 on the sample page. *)
Lemma fetchAnnotations_failures_witness :
  exists k,
    outcome (run no_dialog (fetchAnnotations Sample.user (VNum (Int 8)))
                 Sample.host) =
      Waiting (Fetch $"/api/layer/8/annotations" GET None) k.
Proof.
  destruct (fetchAnnotations_failures Sample.user (VNum (Int 8)) Sample.host
              eq_refl) as (k & E & _).
  exists k. exact E.
Defined.


(** X10: the annotations of layer 8 arrive when layer 3 is the current
    layer; they are shown and layer 3 stays current. *)
Lemma fetchAnnotations_renders_any_response_witness :
  exists k,
    outcome (run no_dialog (fetchAnnotations Sample.user (VNum (Int 8)))
                 Sample.host) =
      Waiting (Fetch $"/api/layer/8/annotations" GET None) k /\
    currentLayerId
      (vars (step_state
         (call no_dialog (k (Response true (Some (VArr [Sample.annotation]))))
               Sample.drafting))) = VStr $"3".
Proof.
  destruct (fetchAnnotations_renders_any_response Sample.user (VNum (Int 8))
              Sample.host eq_refl) as (k & E & H).
  exists k. split; [exact E|].
  destruct (H true (VArr [Sample.annotation]) Sample.drafting)
    as (_ & Hlayer & _).
  rewrite Hlayer. reflexivity.
Defined.

(** X11, at the sample page with a draft. *)
Lemma saveAnnotation_failure_keeps_draft_witness :
  exists body k,
    outcome (run no_dialog (saveAnnotation Sample.user) Sample.drafting) =
      Waiting (Fetch $"/api/annotation/new" POST (Some body)) k /\
    step_state (call no_dialog (k (Response false None)) Sample.drafting) =
      Sample.drafting.
Proof.
  destruct (saveAnnotation_failure_keeps_draft Sample.user Sample.drafting)
    as (body & k & E & H).
  - vm_compute. discriminate.
  - reflexivity.
  - exists body, k. split; [exact E|].
    destruct (H (Response false None) Sample.drafting eq_refl) as (e & Hcall).
    rewrite Hcall. reflexivity.
Defined.

(** X12, on the sample run in which a layer is picked, a note typed, the
    document of two pages loaded and page 2 reported: the note is filed
    under "Page 2". *)
Lemma saveAnnotation_posts_valid_page_witness :
  exists fields k,
    step Sample.ebook Sample.user ClickSave
      (steps Sample.ebook Sample.user studying
             (boot Sample.ebook Sample.url Sample.host)) =
      {| state := state (steps Sample.ebook Sample.user studying
                               (boot Sample.ebook Sample.url Sample.host));
         log := log (steps Sample.ebook Sample.user studying
                           (boot Sample.ebook Sample.url Sample.host)) ++
                [Request (Fetch $"/api/annotation/new" POST
                            (Some (VObj fields)))];
         pending := pending (steps Sample.ebook Sample.user studying
                                   (boot Sample.ebook Sample.url Sample.host)) ++
                    [{| task_req := Fetch $"/api/annotation/new" POST
                                      (Some (VObj fields));
                        task_cont := k |}] |} /\
    Value.lookup $"position_data" fields = VStr $"Page 2" /\
    pdfDoc (vars (state (steps Sample.ebook Sample.user studying
                               (boot Sample.ebook Sample.url Sample.host)))) =
      Some 2 /\
    totalPages (vars (state (steps Sample.ebook Sample.user studying
                                   (boot Sample.ebook Sample.url Sample.host)))) =
      2.
Proof.
  destruct (saveAnnotation_posts_valid_page Sample.ebook Sample.user
              Sample.url Sample.host studying)
    as (fields & k & z & Hstep & Hcur & _ & Hpos & _).
  - vm_compute. reflexivity.
  - vm_compute. discriminate.
  - vm_compute. reflexivity.
  - exists fields, k. split; [exact Hstep|].
    assert (Hz : z = 2) by (vm_compute in Hcur; congruence).
    rewrite Hz in Hpos. split; [exact Hpos|]. split; reflexivity.
Defined.


(** X16, at the sample dialog: the creation is answered with a body that
    is not JSON; the layers arrive, the body is read, and the failure is
    reported. *)
Lemma confirmLayerBtn_created_unread_witness :
  exists body k1 k2 k3 sel logged e,
    outcome (run no_dialog (confirmLayerBtn_onclick Sample.ebook Sample.user)
                 Sample.naming) =
      Waiting (Fetch $"/api/layer/new" POST (Some body)) k1 /\
    outcome (run no_dialog (k1 (Response true None)) Sample.naming) =
      Waiting (Fetch $"/api/book/5/layers" GET None) k2 /\
    run no_dialog (k2 (Response true (Some (VArr [])))) Sample.naming =
      {| final := set_layerSelect sel Sample.naming;
         effects := logged ++ [Request (ReadJson None)];
         spawned := [];
         outcome := Waiting (ReadJson None) k3 |} /\
    call no_dialog (k3 Resolved) Sample.drafting =
      {| step_state := Sample.drafting;
         step_effects := [ConsoleError e; Alert $"Error creating layer."];
         step_tasks := [] |}.
Proof.
  destruct (confirmLayerBtn_created_unread Sample.ebook Sample.user
              Sample.naming) as (body & k1 & E & H).
  - vm_compute. discriminate.
  - destruct (H None Sample.naming) as (k2 & E2 & Hk2).
    destruct (Hk2 (Response true (Some (VArr []))) Sample.naming eq_refl)
      as (sel & logged & k3 & E3 & _ & Hthird).
    destruct (Hthird Resolved Sample.drafting eq_refl (or_intror eq_refl))
      as (e & Hcall).
    exists body, k1, k2, k3, sel, logged, e.
    split; [exact E|]. split; [rewrite E2; reflexivity|].
    split; [exact E3|exact Hcall].
Defined.

(** X18: on page 1 of a document of two pages, next scrolls to page 2
    and previous does nothing. *)
Lemma scroll_to_page_within_document_witness :
  step_effects
    (call no_dialog nextPageBtn_click
       (with_pages [page_wrapper 1 [Canvas]; page_wrapper 2 [Canvas]]
                   Sample.host)) =
    [ScrollIntoView $"page-wrapper-2"] /\
  step_effects
    (call no_dialog prevPageBtn_click
       (with_pages [page_wrapper 1 [Canvas]; page_wrapper 2 [Canvas]]
                   Sample.host)) = [].
Proof.
  assert (Hids :
    Forall (fun w => exists k, 1 <= k <= 2 /\ wrapper_id w = page_wrapper_id k)
      (viewerContainer
         (viewer (with_pages [page_wrapper 1 [Canvas]; page_wrapper 2 [Canvas]]
                             Sample.host)))).
  { cbn. repeat constructor.
    - exists 1. split; [lia|reflexivity].
    - exists 2. split; [lia|reflexivity]. }
  split.
  - destruct (scroll_to_page_within_document 2 1 1 _ Hids eq_refl)
      as (_ & _ & Hin & _).
    apply Hin. eexists. split; [right; left; reflexivity|reflexivity].
  - destruct (scroll_to_page_within_document 2 1 (-1) _ Hids eq_refl)
      as (_ & _ & _ & Hout).
    apply Hout. left. lia.
Defined.



(** X14, for a rejected request: the page with its draft is left
    as it is. *)
Lemma fetchLayers_never_fails_witness :
  exists k,
    outcome (run no_dialog (fetchLayers Sample.ebook) Sample.host) =
      Waiting (Fetch $"/api/book/5/layers" GET None) k /\
    step_state (call no_dialog (k Rejected) Sample.drafting) =
      Sample.drafting.
Proof.
  destruct (fetchLayers_never_fails Sample.ebook Sample.host) as (k & E & H).
  exists k. split; [exact E|].
  destruct (H Rejected Sample.drafting eq_refl) as (sel & logged & Hc & _ & Hs).
  rewrite Hc, (Hs eq_refl). reflexivity.
Defined.

(** X13, for a note of two spaces and a line break. *)
Lemma blank_input_is_refused_witness :
  step_effects
    (call no_dialog (saveAnnotation Sample.user)
       (set_annotationTextarea [32%N; 32%N; 10%N] Sample.drafting)) =
    [Alert $"Please write a note."].
Proof.
  destruct (blank_input_is_refused Sample.ebook Sample.user
              (set_annotationTextarea [32%N; 32%N; 10%N] Sample.drafting))
    as [H _].
  destruct (H eq_refl) as [Hsave _]. rewrite Hsave. reflexivity.
Defined.


(** * The sign-in page: properties *)

Section AuthProperties.

Import Auth.

(** ** Class lists, lists and the timer queue *)

Lemma class_add_In (token c : jsstring) (classes : list jsstring) :
  In c (class_add token classes) <-> c = token \/ In c classes.
Proof.
  unfold class_add.
  destruct (existsb (JsString.eqb token) classes) eqn:E.
  - split; [auto|]. intros [-> | H]; [|exact H].
    apply existsb_exists in E. destruct E as (x & Hin & Hx).
    apply eqb_eq in Hx. subst x. exact Hin.
  - rewrite in_app_iff. cbn. split.
    + intros [H | [H | []]]; auto.
    + intros [H | H]; auto.
Qed.

Lemma class_remove_In (token c : jsstring) (classes : list jsstring) :
  In c (class_remove token classes) <-> In c classes /\ c <> token.
Proof.
  unfold class_remove. rewrite filter_In. split.
  - intros [H1 H2]. split; [exact H1|]. intros ->.
    rewrite eqb_refl in H2. discriminate.
  - intros [H1 H2]. split; [exact H1|].
    destruct (JsString.eqb c token) eqn:E; [|reflexivity].
    apply eqb_eq in E. contradiction.
Qed.

Lemma update_nth_same (A : Type) (f : A -> A) (l : list A) :
  forall i, nth_error (update_nth i f l) i = option_map f (nth_error l i).
Proof.
  induction l as [|x l IH]; intros [|i]; cbn; auto.
Qed.

Lemma update_nth_other (A : Type) (f : A -> A) (l : list A) :
  forall i j, i <> j -> nth_error (update_nth i f l) j = nth_error l j.
Proof.
  induction l as [|x l IH]; intros [|i] [|j] H; cbn;
    try reflexivity; try congruence.
  apply IH. congruence.
Qed.

Lemma schedule_In (t x : Timer) (queue : list Timer) :
  In x (schedule t queue) <-> x = t \/ In x queue.
Proof.
  induction queue as [|q queue IH]; cbn.
  - intuition congruence.
  - destruct (due q <=? due t)%nat; cbn; [rewrite IH|]; intuition congruence.
Qed.

Lemma schedule_ordered (t : Timer) (queue : list Timer) :
  ordered queue -> ordered (schedule t queue).
Proof.
  induction queue as [|q queue IH]; cbn; [auto|].
  intros [Hq Hrest].
  destruct (Nat.leb_spec (due q) (due t)) as [Hle | Hlt]; cbn.
  - split; [|apply IH, Hrest].
    apply Forall_forall. intros x Hx. apply schedule_In in Hx.
    destruct Hx as [-> | Hx]; [exact Hle|].
    rewrite Forall_forall in Hq. apply Hq, Hx.
  - split; [|split; assumption].
    constructor; [lia|].
    eapply Forall_impl; [|exact Hq]. intros x Hx. cbn in Hx. lia.
Qed.

Lemma schedule_weight (t : Timer) (queue : list Timer) :
  queue_weight (schedule t queue) =
  (weight (callback t) + queue_weight queue)%nat.
Proof.
  unfold queue_weight.
  induction queue as [|q queue IH]; cbn [schedule fold_right]; [lia|].
  destruct (due q <=? due t)%nat; cbn [fold_right]; [rewrite IH|]; lia.
Qed.

(** ** The form *)

Lemma fire_view (c : Callback) (w : World) :
  form_view (page (fire c w)) = form_view (page w).
Proof. destruct c; reflexivity. Qed.

Lemma fire_due_view (fuel limit : nat) :
  forall w, form_view (page (fire_due fuel limit w)) = form_view (page w).
Proof.
  induction fuel as [|fuel IH]; intros w; cbn [fire_due]; [reflexivity|].
  destruct (timers w) as [|t rest]; [reflexivity|].
  destruct (due t <=? limit)%nat; [|reflexivity].
  rewrite IH, fire_view. reflexivity.
Qed.

Lemma auto_fade_all_page (count : nat) :
  forall i w,
    page (auto_fade_all i count w) = page w /\
    now (auto_fade_all i count w) = now w.
Proof.
  induction count as [|count IH]; intros i w; cbn [auto_fade_all]; [auto|].
  destruct (IH (S i) (setTimeout (AutoFade i) 4000 w)) as [H1 H2].
  rewrite H1, H2. auto.
Qed.

Lemma boot_page (host : Page) :
  page (boot host) =
    match adminToggle host, adminCodeBox host with
    | Some _, Some _ => updateAdminCodeVisibility (found host)
    | _, _ => found host
    end.
Proof.
  unfold boot. cbv zeta.
  match goal with
  | |- page (auto_fade_all ?i ?n ?w) = _ =>
      destruct (auto_fade_all_page n i w) as [E _]; rewrite E
  end.
  reflexivity.
Qed.

Lemma admin_ok_view (p p' : Page) :
  form_view p' = form_view p -> admin_ok p -> admin_ok p'.
Proof.
  unfold form_view, admin_ok. intros E H checked display H1 H2.
  injection E as _ _ _ E4 E5 _. rewrite E4 in H1. rewrite E5 in H2. auto.
Qed.

Lemma step_admin_ok (ev : Event) (w : World) :
  admin_ok (page w) -> admin_ok (page (step ev w)).
Proof.
  intros Hw. destruct ev as [| |checked|j|ms]; cbn [step].
  - destruct (signUpLink (page w)); [|exact Hw].
    unfold tab_click. cbn. destruct (container (page w)); exact Hw.
  - destruct (signInLink (page w)); [|exact Hw].
    unfold tab_click. cbn. destruct (container (page w)); exact Hw.
  - destruct (adminToggle (page w)) as [old|] eqn:Et; [|exact Hw].
    cbn. destruct (adminCodeBox (page w)) as [box|] eqn:Eb.
    + intros c d Hc Hd. unfold updateAdminCodeVisibility in Hc, Hd.
      destruct checked; cbn in Hc, Hd;
        injection Hc as <-; injection Hd as <-; reflexivity.
    + intros c d Hc Hd. cbn in Hd. congruence.
  - destruct (nth_error (flashCloseButtons (page w)) j) as [[i|]|];
      exact Hw.
  - apply (admin_ok_view (page w)); [|exact Hw].
    unfold elapse. cbn [page]. apply fire_due_view.
Qed.

(** X20: the field for the admin code is shown exactly when the
    toggle is checked.  On a page that has both, from the moment the script
    has started and after whatever the user does and however much time
    passes, the display of [#adminCodeBox] is "block" if [#adminToggle] is
    checked and "none" if it is not, whatever the page had set at first. *)
Theorem admin_code_box_follows_toggle (host : Page) (evs : list Event) :
  admin_ok (page (steps evs (boot host))).
Proof.
  assert (Hboot : admin_ok (page (boot host))).
  { rewrite boot_page. intros c d.
    destruct (adminToggle host) as [[|]|] eqn:Et;
      destruct (adminCodeBox host) as [box|] eqn:Eb;
      unfold updateAdminCodeVisibility, found; cbn; rewrite ?Et, ?Eb; cbn;
      intros Hc Hd; rewrite ?Et in Hc; rewrite ?Eb in Hd;
      try discriminate Hc; try discriminate Hd;
      injection Hc as <-; injection Hd as <-; reflexivity. }
  revert Hboot. generalize (boot host).
  induction evs as [|ev evs IH]; intros w Hw; [exact Hw|].
  cbn [steps fold_left]. apply IH, step_admin_ok, Hw.
Qed.

(** ** The tabs *)

Lemma fire_due_container (fuel limit : nat) (w : World) :
  container (page (fire_due fuel limit w)) = container (page w) /\
  signUpLink (page (fire_due fuel limit w)) = signUpLink (page w) /\
  signInLink (page (fire_due fuel limit w)) = signInLink (page w).
Proof.
  pose proof (fire_due_view fuel limit w) as E. unfold form_view in E.
  injection E as E1 E2 E3 _ _ _. auto.
Qed.

(** One event, on a page that has the container and both links. *)
Lemma step_tabs (ev : Event) (w : World) (classes : list jsstring) :
  container (page w) = Some classes ->
  signUpLink (page w) = true ->
  signInLink (page w) = true ->
  exists classes',
    container (page (step ev w)) = Some classes' /\
    signUpLink (page (step ev w)) = true /\
    signInLink (page (step ev w)) = true /\
    (forall c, c <> $"active" -> (In c classes' <-> In c classes)) /\
    match ev with
    | ClickSignUp => In $"active" classes'
    | ClickSignIn => ~ In $"active" classes'
    | _ => classes' = classes
    end.
Proof.
  intros Hc Hup Hin. destruct ev as [| |checked|j|ms]; cbn [step].
  - rewrite Hup. unfold tab_click. cbn. rewrite Hc. cbn.
    eexists. split; [reflexivity|]. split; [exact Hup|].
    split; [exact Hin|]. split.
    + intros c Hne. rewrite class_add_In. split; [|auto].
      intros [Hx | Hx]; [contradiction|exact Hx].
    + apply class_add_In. auto.
  - rewrite Hin. unfold tab_click. cbn. rewrite Hc. cbn.
    eexists. split; [reflexivity|]. split; [exact Hup|].
    split; [exact Hin|]. split.
    + intros c Hne. rewrite class_remove_In. tauto.
    + intros Hx. apply class_remove_In in Hx. destruct Hx as [_ Hx]. auto.
  - exists classes. destruct (adminToggle (page w)); cbn;
      [destruct (adminCodeBox (page w)); cbn;
       unfold updateAdminCodeVisibility; destruct checked; cbn|];
      repeat split; auto.
  - exists classes.
    destruct (nth_error (flashCloseButtons (page w)) j) as [[i|]|];
      cbn; repeat split; auto.
  - exists classes. unfold elapse. cbn [page].
    destruct (fire_due_container (queue_weight (timers w)) (now w + ms) w)
      as (E1 & E2 & E3).
    rewrite E1, E2, E3. repeat split; auto.
Qed.

(** X21: the tab shown is the one of the link clicked last.  On a
    page with the container and both links, after any run of events the
    class list of the container holds "active" if the link clicked last was
    the sign-up link and does not hold it if it was the sign-in link; it is
    what the page had if neither was clicked; and no other class is ever
    added or taken away. *)
Theorem container_active_follows_last_tab (host : Page) (evs : list Event)
  (classes : list jsstring) :
  container host = Some classes ->
  signUpLink host = true ->
  signInLink host = true ->
  exists classes',
    container (page (steps evs (boot host))) = Some classes' /\
    (forall c, c <> $"active" -> (In c classes' <-> In c classes)) /\
    match last_tab evs with
    | Some true => In $"active" classes'
    | Some false => ~ In $"active" classes'
    | None => classes' = classes
    end.
Proof.
  intros Hc Hup Hin.
  assert (Hboot : container (page (boot host)) = Some classes /\
                  signUpLink (page (boot host)) = true /\
                  signInLink (page (boot host)) = true).
  { rewrite boot_page. unfold updateAdminCodeVisibility, found.
    destruct (adminToggle host) as [[|]|] eqn:Et;
      destruct (adminCodeBox host) eqn:Eb;
      cbn; rewrite ?Et; cbn; auto. }
  revert Hboot. generalize (boot host). clear Hc Hup Hin. revert classes.
  induction evs as [|ev evs IH]; intros classes w (Hc & Hup & Hin).
  - exists classes. cbn. split; [exact Hc|]. split; [tauto|reflexivity].
  - destruct (step_tabs ev w classes Hc Hup Hin)
      as (c1 & H1 & H2 & H3 & Hother & Hev).
    destruct (IH c1 (step ev w) (conj H1 (conj H2 H3)))
      as (c2 & E & Hother' & Hlast).
    exists c2. cbn [steps fold_left last_tab]. split; [exact E|]. split.
    + intros c Hne. rewrite (Hother' c Hne). apply Hother, Hne.
    + destruct (last_tab evs) as [[|]|]; auto.
      subst c2. destruct ev; auto.
Qed.

(** ** Flash messages and their timers *)

Lemma doomed_spec (limit : nat) (w : World) (i : nat) :
  doomed limit w i <->
  forall f,
    nth_error (flashes (page w)) i = Some f ->
    (flash_removed f = true /\ faded f) \/
    (faded f /\
     exists t, In t (timers w) /\ callback t = Remove i /\
               (due t <= limit)%nat) \/
    (exists t, In t (timers w) /\ callback t = AutoFade i /\
               (due t + 500 <= limit)%nat).
Proof.
  unfold doomed. destruct (nth_error (flashes (page w)) i) as [f|].
  - split; [intros H f' E; injection E as <-; exact H|auto].
  - split; [intros _ f' E; discriminate|auto].
Qed.

Lemma update_nth_length (A : Type) (f : A -> A) (l : list A) :
  forall i, List.length (update_nth i f l) = List.length l.
Proof.
  induction l as [|x l IH]; intros [|i]; cbn; auto.
Qed.

(** What the [i]-th flash was before an update at [k]. *)
Lemma update_nth_inv (A : Type) (g : A -> A) (l : list A) (k i : nat)
  (f' : A) :
  nth_error (update_nth k g l) i = Some f' ->
  exists f, nth_error l i = Some f /\
            (i = k /\ f' = g f \/ i <> k /\ f' = f).
Proof.
  intros H. destruct (Nat.eq_dec k i) as [<- | Hne].
  - rewrite update_nth_same in H.
    destruct (nth_error l k) as [f|]; [|discriminate].
    exists f. injection H as <-. auto.
  - rewrite update_nth_other in H by exact Hne.
    exists f'. split; [exact H|]. right. split; [congruence|reflexivity].
Qed.

Lemma faded_fade (f : Flash) :
  faded {| flash_classes := class_add $"fade-out" (flash_classes f);
           flash_removed := flash_removed f |}.
Proof. unfold faded. cbn. apply class_add_In. auto. Qed.

Lemma faded_kept (f : Flash) :
  faded f ->
  faded {| flash_classes := class_add $"fade-out" (flash_classes f);
           flash_removed := flash_removed f |}.
Proof. intros _. apply faded_fade. Qed.

(** Fading a flash and setting the timer that removes it. *)
Lemma fade_step (i : nat) (w0 : World) :
  let w' := setTimeout (Remove i) 500 (on_page (fade_out i) w0) in
  (sound w0 -> sound w') /\
  (forall limit k, doomed limit w0 k -> doomed limit w' k) /\
  (forall limit, (now w0 + 500 <= limit)%nat -> doomed limit w' i).
Proof.
  cbv zeta. split; [|split].
  - intros Hs t j f' Hin Hcb Hnth. cbn in Hin, Hnth.
    apply update_nth_inv in Hnth.
    destruct Hnth as (f & Hf & [[-> ->] | [Hne ->]]); [apply faded_fade|].
    apply schedule_In in Hin. destruct Hin as [-> | Hin].
    + cbn in Hcb. congruence.
    + exact (Hs t j f Hin Hcb Hf).
  - intros limit k Hd. apply doomed_spec. intros f' Hnth. cbn in Hnth.
    apply update_nth_inv in Hnth. destruct Hnth as (f & Hf & Hcase).
    rewrite doomed_spec in Hd. specialize (Hd f Hf).
    assert (Hfade : faded f -> faded f').
    { destruct Hcase as [[_ ->] | [_ ->]]; [apply faded_kept|auto]. }
    assert (Hrem : flash_removed f' = flash_removed f).
    { destruct Hcase as [[_ ->] | [_ ->]]; reflexivity. }
    destruct Hd as [[H1 H2] | [[H1 (t & Ht & Hcb & Hdue)] | (t & Ht & Hcb & Hdue)]].
    + left. rewrite Hrem. auto.
    + right. left. split; [auto|]. exists t. split; [|auto].
      cbn. apply schedule_In. auto.
    + right. right. exists t. split; [|auto]. cbn. apply schedule_In. auto.
  - intros limit Hlimit. apply doomed_spec. intros f' Hnth. cbn in Hnth.
    apply update_nth_inv in Hnth.
    destruct Hnth as (f & Hf & [[_ ->] | [Hne _]]); [|congruence].
    right. left. split; [apply faded_fade|].
    exists {| due := now w0 + 500; callback := Remove i |}.
    split; [cbn; apply schedule_In; auto|]. cbn. auto.
Qed.

(** Removing a flash. *)
Lemma remove_step (i : nat) (w0 : World) :
  let w' := on_page (remove_flash i) w0 in
  (sound w0 -> sound w') /\
  (forall limit k, doomed limit w0 k -> doomed limit w' k) /\
  (forall limit,
     (forall f, nth_error (flashes (page w0)) i = Some f -> faded f) ->
     doomed limit w' i).
Proof.
  cbv zeta. split; [|split].
  - intros Hs t j f' Hin Hcb Hnth. cbn in Hin, Hnth.
    apply update_nth_inv in Hnth.
    destruct Hnth as (f & Hf & [[-> ->] | [Hne ->]]);
      exact (Hs t _ f Hin Hcb Hf).
  - intros limit k Hd. apply doomed_spec. intros f' Hnth. cbn in Hnth.
    apply update_nth_inv in Hnth. destruct Hnth as (f & Hf & Hcase).
    rewrite doomed_spec in Hd. specialize (Hd f Hf).
    assert (Hfade : faded f -> faded f').
    { destruct Hcase as [[_ ->] | [_ ->]]; auto. }
    assert (Hrem : flash_removed f = true -> flash_removed f' = true).
    { destruct Hcase as [[_ ->] | [_ ->]]; auto. }
    destruct Hd as [[H1 H2] | [[H1 (t & Ht & Hcb & Hdue)] | (t & Ht & Hcb & Hdue)]].
    + left. auto.
    + right. left. split; [auto|]. exists t. auto.
    + right. right. exists t. auto.
  - intros limit Hfaded. apply doomed_spec. intros f' Hnth. cbn in Hnth.
    apply update_nth_inv in Hnth.
    destruct Hnth as (f & Hf & [[_ ->] | [Hne _]]); [|congruence].
    left. split; [reflexivity|]. exact (Hfaded f Hf).
Qed.

(** The head of the queue fires. *)
Lemma fire_head (t : Timer) (rest : list Timer) (w : World) :
  timers w = t :: rest ->
  ordered (timers w) ->
  sound w ->
  let w' := fire (callback t)
              {| page := page w; now := due t; timers := rest;
                 log := log w |} in
  ordered (timers w') /\
  sound w' /\
  (forall limit i, doomed limit w i -> doomed limit w' i) /\
  (queue_weight (timers w') < queue_weight (timers w))%nat.
Proof.
  intros Et Hord Hs. cbv zeta.
  set (w0 := {| page := page w; now := due t; timers := rest;
                log := log w |}).
  rewrite Et in Hord. destruct Hord as [_ Hrest].
  assert (Hs0 : sound w0).
  { intros x j f Hin Hcb Hnth. apply (Hs x j f); auto.
    rewrite Et. right. exact Hin. }
  assert (Hpop : forall limit i,
    doomed limit w i ->
    doomed limit w0 i \/
    (callback t = Remove i /\
     forall f, nth_error (flashes (page w)) i = Some f -> faded f) \/
    (callback t = AutoFade i /\ (due t + 500 <= limit)%nat)).
  { intros limit i Hd.
    destruct (callback t) as [k|k] eqn:Ecb.
    - destruct (Nat.eq_dec k i) as [-> | Hne].
      + destruct (le_dec (due t + 500) limit) as [Hle | Hgt]; [auto|].
        left. apply doomed_spec. intros f Hf.
        rewrite doomed_spec in Hd. specialize (Hd f Hf).
        destruct Hd as [H | [[H1 (x & Hx & Hcb & Hdue)] | (x & Hx & Hcb & Hdue)]];
          [auto| |].
        * right. left. split; [auto|]. exists x. split; [|auto].
          rewrite Et in Hx. destruct Hx as [<- | Hx]; [congruence|exact Hx].
        * right. right. exists x. split; [|auto].
          rewrite Et in Hx. destruct Hx as [<- | Hx]; [lia|exact Hx].
      + left. apply doomed_spec. intros f Hf.
        rewrite doomed_spec in Hd. specialize (Hd f Hf).
        destruct Hd as [H | [[H1 (x & Hx & Hcb & Hdue)] | (x & Hx & Hcb & Hdue)]];
          [auto| |].
        * right. left. split; [auto|]. exists x. split; [|auto].
          rewrite Et in Hx. destruct Hx as [<- | Hx]; [congruence|exact Hx].
        * right. right. exists x. split; [|auto].
          rewrite Et in Hx. destruct Hx as [<- | Hx]; [congruence|exact Hx].
    - destruct (Nat.eq_dec k i) as [-> | Hne].
      + right. left. split; [reflexivity|].
        intros f Hf. apply (Hs t i f); auto. rewrite Et. left. reflexivity.
      + left. apply doomed_spec. intros f Hf.
        rewrite doomed_spec in Hd. specialize (Hd f Hf).
        destruct Hd as [H | [[H1 (x & Hx & Hcb & Hdue)] | (x & Hx & Hcb & Hdue)]];
          [auto| |].
        * right. left. split; [auto|]. exists x. split; [|auto].
          rewrite Et in Hx. destruct Hx as [<- | Hx]; [congruence|exact Hx].
        * right. right. exists x. split; [|auto].
          rewrite Et in Hx. destruct Hx as [<- | Hx]; [congruence|exact Hx]. }
  destruct (callback t) as [k|k] eqn:Ecb; cbn [fire].
  - destruct (fade_step k w0) as (F1 & F2 & F3).
    split; [cbn; apply schedule_ordered, Hrest|].
    split; [apply F1, Hs0|]. split.
    + intros limit i Hd.
      destruct (Hpop limit i Hd) as [H | [[H _] | [H Hle]]];
        [apply F2, H|discriminate|].
      injection H as <-. apply F3. cbn. exact Hle.
    + rewrite Et. cbn [setTimeout timers on_page w0].
      rewrite schedule_weight. unfold queue_weight. cbn. rewrite Ecb. cbn. lia.
  - destruct (remove_step k w0) as (R1 & R2 & R3).
    split; [exact Hrest|]. split; [apply R1, Hs0|]. split.
    + intros limit i Hd.
      destruct (Hpop limit i Hd) as [H | [[H Hf] | [H _]]];
        [apply R2, H| |discriminate].
      injection H as <-. apply R3. exact Hf.
    + rewrite Et. unfold queue_weight. cbn. rewrite Ecb. cbn. lia.
Qed.

Lemma queue_weight_zero (queue : list Timer) :
  queue_weight queue = O -> queue = [].
Proof.
  destruct queue as [|t rest]; [reflexivity|].
  unfold queue_weight. cbn. destruct (callback t); cbn; lia.
Qed.

(** The timers due by [limit] fire: with fuel for the whole queue, none of
    those left is due. *)
Lemma fire_due_inv (fuel limit : nat) :
  forall w,
    ordered (timers w) -> sound w ->
    ordered (timers (fire_due fuel limit w)) /\
    sound (fire_due fuel limit w) /\
    (forall bound i,
       doomed bound w i -> doomed bound (fire_due fuel limit w) i) /\
    ((queue_weight (timers w) <= fuel)%nat ->
     Forall (fun q => (limit < due q)%nat) (timers (fire_due fuel limit w))).
Proof.
  induction fuel as [|fuel IH]; intros w Hord Hs; cbn [fire_due].
  - repeat split; auto. intros Hw.
    rewrite (queue_weight_zero (timers w)) by lia. constructor.
  - destruct (timers w) as [|t rest] eqn:Et.
    + split; [rewrite Et; exact Hord|]. split; [exact Hs|]. split; [auto|].
      intros _. rewrite Et. constructor.
    + destruct (Nat.leb_spec (due t) limit) as [Hle | Hgt].
      * assert (Hord' : ordered (timers w)) by (rewrite Et; exact Hord).
        destruct (fire_head t rest w Et Hord' Hs) as (H1 & H2 & H3 & H4).
        destruct (IH _ H1 H2) as (I1 & I2 & I3 & I4).
        split; [exact I1|]. split; [exact I2|]. split.
        -- intros bound i Hd. apply I3, H3, Hd.
        -- intros Hw. apply I4. rewrite Et in H4. lia.
      * assert (Hord' : ordered (timers w)) by (rewrite Et; exact Hord).
        split; [exact Hord'|]. split; [exact Hs|]. split; [auto|].
        intros _. rewrite Et.
        destruct Hord as [Hhead _]. constructor; [exact Hgt|].
        eapply Forall_impl; [|exact Hhead]. intros q Hq. cbn in Hq. lia.
Qed.

Lemma elapse_inv (ms : nat) (w : World) :
  ahead w -> sound w ->
  ahead (elapse ms w) /\ sound (elapse ms w) /\
  (forall bound i, doomed bound w i -> doomed bound (elapse ms w) i).
Proof.
  intros [_ Hord] Hs.
  destruct (fire_due_inv (queue_weight (timers w)) (now w + ms) w Hord Hs)
    as (H1 & H2 & H3 & H4).
  unfold elapse. cbv zeta. split; [|split].
  - split; [exact (H4 (le_n _))|exact H1].
  - exact H2.
  - intros bound i Hd. exact (H3 bound i Hd).
Qed.

Lemma now_step (ev : Event) (w : World) :
  now (step ev w) =
  (now w + match ev with Elapse ms => ms | _ => O end)%nat.
Proof.
  destruct ev as [| |checked|j|ms]; cbn [step].
  - destruct (signUpLink (page w)); [|lia].
    unfold tab_click. cbn. destruct (container (page w)); cbn; lia.
  - destruct (signInLink (page w)); [|lia].
    unfold tab_click. cbn. destruct (container (page w)); cbn; lia.
  - destruct (adminToggle (page w)); [|lia]. cbn.
    destruct (adminCodeBox (page w)); cbn; lia.
  - destruct (nth_error (flashCloseButtons (page w)) j) as [[i|]|]; cbn; lia.
  - reflexivity.
Qed.

Lemma now_steps (evs : list Event) :
  forall w, now (steps evs w) = (now w + elapsed evs)%nat.
Proof.
  induction evs as [|ev evs IH]; intros w; cbn [steps fold_left elapsed fold_right];
    [lia|].
  change (fold_left (fun w ev => step ev w) evs (step ev w))
    with (steps evs (step ev w)).
  rewrite IH, now_step. fold (elapsed evs). destruct ev; lia.
Qed.

(** Every event keeps the timers in order and lets no doomed flash
    escape. *)
Lemma step_flashes (ev : Event) (w : World) :
  ahead w -> sound w ->
  ahead (step ev w) /\ sound (step ev w) /\
  (forall bound i, doomed bound w i -> doomed bound (step ev w) i).
Proof.
  intros Hw Hs. destruct ev as [| |checked|j|ms]; cbn [step].
  - destruct (signUpLink (page w)); [|auto].
    unfold tab_click. cbn. destruct (container (page w)); auto.
  - destruct (signInLink (page w)); [|auto].
    unfold tab_click. cbn. destruct (container (page w)); auto.
  - destruct (adminToggle (page w)); [|auto]. cbn.
    destruct (adminCodeBox (page w)); [|auto].
    unfold updateAdminCodeVisibility. cbn. destruct checked; auto.
  - destruct (nth_error (flashCloseButtons (page w)) j) as [[i|]|]; auto.
    unfold close_click. destruct (fade_step i w) as (F1 & F2 & _).
    split; [|split; [apply F1, Hs|exact F2]].
    destruct Hw as [Hnow Hord]. split.
    + apply Forall_forall. intros x Hx. cbn in Hx. apply schedule_In in Hx.
      destruct Hx as [-> | Hx]; [cbn; lia|].
      rewrite Forall_forall in Hnow. exact (Hnow x Hx).
    + cbn. apply schedule_ordered, Hord.
  - apply elapse_inv; assumption.
Qed.

Lemma steps_flashes (evs : list Event) :
  forall w,
    ahead w -> sound w ->
    ahead (steps evs w) /\ sound (steps evs w) /\
    (forall bound i, doomed bound w i -> doomed bound (steps evs w) i).
Proof.
  induction evs as [|ev evs IH]; intros w Hw Hs; [auto|].
  destruct (step_flashes ev w Hw Hs) as (H1 & H2 & H3).
  destruct (IH (step ev w) H1 H2) as (I1 & I2 & I3).
  cbn [steps fold_left]. repeat split; auto.
  - apply I1.
  - apply I1.
Qed.

(** The timers set at start-up. *)
Lemma auto_fade_all_timers (count : nat) :
  forall i w,
    ordered (timers w) ->
    ordered (timers (auto_fade_all i count w)) /\
    forall x,
      In x (timers (auto_fade_all i count w)) <->
      In x (timers w) \/
      exists k, (i <= k < i + count)%nat /\
                x = {| due := now w + 4000; callback := AutoFade k |}.
Proof.
  induction count as [|count IH]; intros i w Hord; cbn [auto_fade_all].
  - split; [exact Hord|]. intros x. split; [auto|].
    intros [H | (k & Hk & _)]; [exact H|lia].
  - destruct (IH (S i) (setTimeout (AutoFade i) 4000 w)) as [H1 H2].
    { cbn. apply schedule_ordered, Hord. }
    split; [exact H1|]. intros x. rewrite H2. cbn [setTimeout timers now].
    rewrite schedule_In. split.
    + intros [[-> | H] | (k & Hk & ->)]; auto.
      * right. exists i. split; [lia|reflexivity].
      * right. exists k. split; [lia|reflexivity].
    + intros [H | (k & Hk & ->)]; auto.
      destruct (Nat.eq_dec k i) as [-> | Hne]; auto.
      right. exists k. split; [lia|reflexivity].
Qed.

Lemma flashes_boot (host : Page) :
  flashes (page (boot host)) =
  map (fun f => {| flash_classes := flash_classes f;
                   flash_removed := false |}) (flashes host).
Proof.
  rewrite boot_page. unfold updateAdminCodeVisibility, found.
  destruct host as [c su si [[|]|] [b|] fl btns]; reflexivity.
Qed.

Lemma boot_flashes (host : Page) :
  ahead (boot host) /\ sound (boot host) /\ now (boot host) = O /\
  forall i, doomed 4500 (boot host) i.
Proof.
  unfold boot. cbv zeta.
  match goal with
  | |- context [auto_fade_all ?i ?n ?w] =>
      destruct (auto_fade_all_timers n i w Logic.I) as [Hord Hin];
      destruct (auto_fade_all_page n i w) as [Hpage Hnow];
      fold (boot host) in Hord, Hin, Hpage, Hnow |- *
  end.
  cbn [timers now] in Hin, Hnow.
  split; [|split; [|split; [exact Hnow|]]].
  - split; [|exact Hord]. apply Forall_forall. intros x Hx.
    apply Hin in Hx. destruct Hx as [[] | (k & _ & ->)].
    rewrite Hnow. cbn. lia.
  - intros x j f Hx Hcb _. apply Hin in Hx.
    destruct Hx as [[] | (k & _ & ->)]. discriminate.
  - intros i. apply doomed_spec. intros f Hf. right. right.
    exists {| due := 4000; callback := AutoFade i |}. split; [|cbn; auto].
    apply Hin. right. exists i. split; [|reflexivity].
    rewrite flashes_boot in Hf.
    assert (Hlt : (i < List.length (flashes host))%nat).
    { rewrite <- (length_map
                    (fun f => {| flash_classes := flash_classes f;
                                 flash_removed := false |})).
      apply nth_error_Some. congruence. }
    lia.
Qed.

(** When the time is up, a doomed flash is gone. *)
Lemma doomed_done (limit : nat) (w : World) (i : nat) (f : Flash) :
  ahead w -> (limit <= now w)%nat -> doomed limit w i ->
  nth_error (flashes (page w)) i = Some f ->
  flash_removed f = true /\ faded f.
Proof.
  intros [Hnow _] Hlimit Hd Hf. rewrite doomed_spec in Hd.
  rewrite Forall_forall in Hnow.
  destruct (Hd f Hf) as [H | [[_ (t & Ht & _ & Hdue)] | (t & Ht & _ & Hdue)]];
    [exact H| |]; specialize (Hnow t Ht); lia.
Qed.

Lemma Forall_nth_error_all (A : Type) (P : A -> Prop) (l : list A) :
  (forall i x, nth_error l i = Some x -> P x) -> Forall P l.
Proof.
  induction l as [|a l IH]; intros H; constructor.
  - apply (H O). reflexivity.
  - apply IH. intros i x Hi. apply (H (S i)). exact Hi.
Qed.

Lemma length_flashes_step (ev : Event) (w : World) :
  List.length (flashes (page (step ev w))) = List.length (flashes (page w)) /\
  flashCloseButtons (page (step ev w)) = flashCloseButtons (page w).
Proof.
  assert (Hfire : forall c w0,
    List.length (flashes (page (fire c w0))) =
    List.length (flashes (page w0))).
  { intros [k|k] w0; cbn; apply update_nth_length. }
  assert (Hdue : forall fuel limit w0,
    List.length (flashes (page (fire_due fuel limit w0))) =
    List.length (flashes (page w0))).
  { induction fuel as [|fuel IH]; intros limit w0; cbn [fire_due];
      [reflexivity|].
    destruct (timers w0) as [|t rest]; [reflexivity|].
    destruct (due t <=? limit)%nat; [|reflexivity].
    rewrite IH, Hfire. reflexivity. }
  destruct ev as [| |checked|j|ms]; cbn [step].
  - destruct (signUpLink (page w)); [|auto].
    unfold tab_click. cbn. destruct (container (page w)); auto.
  - destruct (signInLink (page w)); [|auto].
    unfold tab_click. cbn. destruct (container (page w)); auto.
  - destruct (adminToggle (page w)); [|auto]. cbn.
    destruct (adminCodeBox (page w)); [|auto].
    unfold updateAdminCodeVisibility. cbn. destruct checked; auto.
  - destruct (nth_error (flashCloseButtons (page w)) j) as [[i|]|]; auto.
    cbn. split; [apply update_nth_length|reflexivity].
  - unfold elapse. cbn [page]. split; [apply Hdue|].
    pose proof (fire_due_view (queue_weight (timers w)) (now w + ms) w) as E.
    unfold form_view in E. injection E as _ _ _ _ _ E. exact E.
Qed.

Lemma length_flashes_steps (evs : list Event) :
  forall w,
    List.length (flashes (page (steps evs w))) =
      List.length (flashes (page w)) /\
    flashCloseButtons (page (steps evs w)) = flashCloseButtons (page w).
Proof.
  induction evs as [|ev evs IH]; intros w; [auto|].
  cbn [steps fold_left].
  destruct (IH (step ev w)) as [H1 H2].
  destruct (length_flashes_step ev w) as [H3 H4].
  unfold steps in *. rewrite H1, H2. auto.
Qed.

(** X22: every flash message goes away by itself.  Whatever the
    user does in the meantime, once 4500 ms have passed since the script
    started (timers firing when they are due) every flash message the page
    held has the class "fade-out" and has been removed. *)
Theorem flashes_removed_in_time (host : Page) (evs : list Event) :
  (4500 <= elapsed evs)%nat ->
  List.length (flashes (page (steps evs (boot host)))) =
    List.length (flashes host) /\
  Forall (fun f => flash_removed f = true /\ faded f)
         (flashes (page (steps evs (boot host)))).
Proof.
  intros Htime.
  destruct (boot_flashes host) as (Hahead & Hsound & Hnow & Hdoomed).
  destruct (steps_flashes evs (boot host) Hahead Hsound) as (H1 & _ & H3).
  split.
  - destruct (length_flashes_steps evs (boot host)) as [E _].
    rewrite E, flashes_boot. apply length_map.
  - apply Forall_nth_error_all. intros i f Hf.
    apply (doomed_done 4500 (steps evs (boot host)) i f); auto.
    rewrite now_steps, Hnow. lia.
Qed.

(** X23: a close button takes its flash message away.  At any
    moment, a click on a close button that lies in a flash message adds
    the class "fade-out" to that message at once, and whatever the user
    does afterwards the message has been removed once 500 ms have passed
    (timers firing when they are due). *)
Theorem close_button_removes_flash (host : Page) (evs evs' : list Event)
  (j i : nat) :
  nth_error (flashCloseButtons host) j = Some (Some i) ->
  (500 <= elapsed evs')%nat ->
  let w1 := step (ClickClose j) (steps evs (boot host)) in
  (forall f, nth_error (flashes (page w1)) i = Some f -> faded f) /\
  (forall f, nth_error (flashes (page (steps evs' w1))) i = Some f ->
     flash_removed f = true /\ faded f) /\
  List.length (flashes (page (steps evs' w1))) = List.length (flashes host).
Proof.
  intros Hbtn Htime w1.
  destruct (boot_flashes host) as (Hahead & Hsound & Hnow & _).
  destruct (steps_flashes evs (boot host) Hahead Hsound) as (H1 & H2 & _).
  set (w := steps evs (boot host)) in *.
  assert (Hj : nth_error (flashCloseButtons (page w)) j = Some (Some i)).
  { destruct (length_flashes_steps evs (boot host)) as [_ E].
    unfold w. rewrite E, boot_page.
    unfold updateAdminCodeVisibility, found.
    destruct host as [c su si [[|]|] [b|] fl btns]; exact Hbtn. }
  assert (Hw1 : w1 = setTimeout (Remove i) 500 (on_page (fade_out i) w)).
  { unfold w1. cbn [step]. rewrite Hj. reflexivity. }
  destruct (fade_step i w) as (_ & _ & Hdoom).
  specialize (Hdoom (now w + 500)%nat (le_n _)). rewrite <- Hw1 in Hdoom.
  destruct (step_flashes (ClickClose j) w H1 H2) as (A1 & S1 & _).
  fold w1 in A1, S1.
  destruct (steps_flashes evs' w1 A1 S1) as (A2 & _ & D2).
  split; [|split].
  - intros f Hf. rewrite Hw1 in Hf. cbn in Hf.
    apply update_nth_inv in Hf.
    destruct Hf as (f0 & _ & [[_ ->] | [Hne _]]); [apply faded_fade|congruence].
  - intros f Hf.
    apply (doomed_done (now w + 500) (steps evs' w1) i f); auto.
    rewrite now_steps. unfold w1. rewrite now_step. lia.
  - destruct (length_flashes_steps evs' w1) as [E _]. rewrite E.
    destruct (length_flashes_step (ClickClose j) w) as [E1 _].
    fold w1 in E1. rewrite E1.
    destruct (length_flashes_steps evs (boot host)) as [E2 _].
    fold w in E2. rewrite E2, flashes_boot. apply length_map.
Qed.

End AuthProperties.


(** ** The sign-in page at concrete inputs *)

(** X21, on the sample page: sign-up, then sign-in, then sign-up. *)
Lemma container_active_follows_last_tab_witness :
  exists classes',
    Auth.container
      (Auth.page
         (Auth.steps [Auth.ClickSignUp; Auth.ClickSignIn; Auth.Elapse 100;
                      Auth.ClickSignUp]
                     (Auth.boot Auth.sample_page))) = Some classes' /\
    In $"active" classes'.
Proof.
  destruct (container_active_follows_last_tab Auth.sample_page
              [Auth.ClickSignUp; Auth.ClickSignIn; Auth.Elapse 100;
               Auth.ClickSignUp]
              [$"container"] eq_refl eq_refl eq_refl)
    as (classes' & E & _ & H).
  exists classes'. split; [exact E|exact H].
Defined.

(** X22, on the sample page: the reader switches tabs and five
    seconds pass. *)
Lemma flashes_removed_in_time_witness :
  Forall (fun f => Auth.flash_removed f = true /\ Auth.faded f)
    (Auth.flashes
       (Auth.page
          (Auth.steps [Auth.Elapse 3000; Auth.ClickSignUp; Auth.Elapse 2000]
                      (Auth.boot Auth.sample_page)))).
Proof.
  destruct (flashes_removed_in_time Auth.sample_page
              [Auth.Elapse 3000; Auth.ClickSignUp; Auth.Elapse 2000])
    as [_ H].
  - cbn. lia.
  - exact H.
Defined.

(** X23, on the sample page: the first flash is closed after one
    second, and 600 ms later it is gone. *)
Lemma close_button_removes_flash_witness :
  exists f,
    nth_error
      (Auth.flashes
         (Auth.page
            (Auth.steps [Auth.Elapse 600]
               (Auth.step (Auth.ClickClose 0)
                  (Auth.steps [Auth.Elapse 1000]
                     (Auth.boot Auth.sample_page)))))) 0 = Some f /\
    Auth.flash_removed f = true /\ Auth.faded f.
Proof.
  destruct (close_button_removes_flash Auth.sample_page [Auth.Elapse 1000]
              [Auth.Elapse 600] 0 0 eq_refl) as (_ & H & _).
  - cbn. lia.
  - eexists. split; [vm_compute; reflexivity|].
    apply H. vm_compute. reflexivity.
Defined.

(** X20, on the sample page, where the box is displayed at first
    though the toggle is unchecked: the reader checks the toggle. *)
Lemma admin_code_box_follows_toggle_witness :
  exists display,
    Auth.adminCodeBox
      (Auth.page
         (Auth.steps [Auth.ChangeAdmin false; Auth.Elapse 10;
                      Auth.ChangeAdmin true]
                     (Auth.boot Auth.sample_page))) = Some display /\
    display = $"block".
Proof.
  exists $"block". split; [reflexivity|].
  apply (admin_code_box_follows_toggle Auth.sample_page
           [Auth.ChangeAdmin false; Auth.Elapse 10; Auth.ChangeAdmin true]
           true $"block"); reflexivity.
Defined.
